(** * cli-bot-discord: command-language interpreter and virtual filesystem

    A shallow embedding of the core of the repository:
    - [models/errors.py]: the error classes and their hierarchy;
    - [parser/wrapper.py]: [Result] and the evaluators of the typed
      syntax-tree nodes ([List], [Operator], [Pipeline], [If], [For],
      [Loop], [Function], [Compound], [Command]);
    - [models/packages.py]: command dispatch ([Command.unsafe_execute]);
    - [parser/processing.py]: [Processor.finalize];
    - [models/event.py], [models/state.py]: [Event.groups] and the
      variables of a state;
    - [structure/permissions.py]: [Mode] and [Mode.check];
    - [structure/filesystem.py]: paths, inode allocation, creation,
      selection and removal of nodes, [RegularFile.write];
    - [structure/data.py]: [get_by_inode] and [get_path];
    - [parser/__init__.py]: the retry loop of [parse].

    Python values are modelled by the inductive type [Value]; mutation of
    [self] is explicit state passing; exceptions are an [Outcome]. *)

From stdpp Require Import base list gmap strings pretty.
From Stdlib Require Import ZArith Lia String Ascii.

Local Set Warnings "-register-all".
Local Open Scope Z_scope.
Local Open Scope string_scope.
Local Open Scope list_scope.

(* ===================================================================== *)
(** * models/errors.py *)
(* ===================================================================== *)

Module errors.

(** The leaves of the class hierarchy below [BaseError] that the modelled
    code raises or inspects.  [ReturnError] carries a value and is a
    constructor of [Error] below. *)
Inductive ErrorClass :=
| NoCommandError
| FalseError
| NullError
| BreakError
| ContinueError
| NoPrefixError
| ParsingError
| ArgparseError
| UnknownCommandError
| CommandPermissionError
| ReservedVariableError
| NoFileFoundError
| FileExistsError
| PermissionDeniedError
| NonEmptyDirectoryError
| NotADirectoryError
| NotAFileError
| LimitExceededError
| InternalError.

Definition ErrorClass_eqb (a b : ErrorClass) : bool :=
  match a, b with
  | NoCommandError, NoCommandError | FalseError, FalseError
  | NullError, NullError | BreakError, BreakError
  | ContinueError, ContinueError | NoPrefixError, NoPrefixError
  | ParsingError, ParsingError | ArgparseError, ArgparseError
  | UnknownCommandError, UnknownCommandError
  | CommandPermissionError, CommandPermissionError
  | ReservedVariableError, ReservedVariableError
  | NoFileFoundError, NoFileFoundError | FileExistsError, FileExistsError
  | PermissionDeniedError, PermissionDeniedError
  | NonEmptyDirectoryError, NonEmptyDirectoryError
  | NotADirectoryError, NotADirectoryError | NotAFileError, NotAFileError
  | LimitExceededError, LimitExceededError | InternalError, InternalError => true
  | _, _ => false
  end.

(** [class LoopError(KeywordError)], with subclasses [BreakError] and
    [ContinueError]. *)
Definition is_LoopError_class (c : ErrorClass) : bool :=
  match c with
  | BreakError | ContinueError => true
  | _ => false
  end.

(** [class IgnoreError(BotError)]: [NoCommandError], [BoolError]
    ([FalseError], [NullError]), [KeywordError] and [NoPrefixError]. *)
Definition is_IgnoreError_class (c : ErrorClass) : bool :=
  match c with
  | NoCommandError | FalseError | NullError | BreakError | ContinueError
  | NoPrefixError => true
  | _ => false
  end.

End errors.
Export errors.

(* ===================================================================== *)
(** * Python values *)
(* ===================================================================== *)

(** The values that travel through a [Result]: [None], booleans, integers,
    strings, lists, nested [Result]s (their [data] and [last]) and
    instances of [BaseError].  An [Error] is either an instance of one of
    the classes above with its text, or a [ReturnError] with its [value]. *)
Inductive Value :=
| VNone
| VBool (b : bool)
| VInt (n : Z)
| VStr (s : string)
| VList (l : list Value)
| VResult (data : list Value) (last : Value)
| VErr (e : Error)
with Error :=
| MkError (cls : ErrorClass) (text : string)
| ReturnError (value : Value).

(** [isinstance(x, BaseError)] *)
Definition is_BaseError (v : Value) : bool :=
  match v with
  | VErr _ => true
  | _ => false
  end.

(** [isinstance(e, KeywordError)] for a raised or stored error. *)
Definition Error_is_KeywordError (e : Error) : bool :=
  match e with
  | MkError c _ => is_LoopError_class c
  | ReturnError _ => true
  end.

Definition Error_is_ReturnError (e : Error) : bool :=
  match e with
  | ReturnError _ => true
  | MkError _ _ => false
  end.

Definition Error_is_class (c : ErrorClass) (e : Error) : bool :=
  match e with
  | MkError c' _ => ErrorClass_eqb c c'
  | ReturnError _ => false
  end.

Definition is_KeywordError (v : Value) : bool :=
  match v with
  | VErr e => Error_is_KeywordError e
  | _ => false
  end.

Definition is_ReturnError (v : Value) : bool :=
  match v with
  | VErr e => Error_is_ReturnError e
  | _ => false
  end.

(** [type(object) in (list, Result)] *)
Definition is_sequence (v : Value) : bool :=
  match v with
  | VList _ | VResult _ _ => true
  | _ => false
  end.

(** A value that [Result.append] stores as it is: neither a list, nor a
    [Result], nor [None]. *)
Definition is_atom (v : Value) : bool :=
  match v with
  | VList _ | VResult _ _ | VNone => false
  | _ => true
  end.

(** What a [for x in v] loop iterates over; [None] stands for the
    [TypeError] of a value that is not iterable.  A [Result] iterates over
    its [data], a string over its characters. *)
Definition iter_value (v : Value) : option (list Value) :=
  match v with
  | VList l => Some l
  | VResult d _ => Some d
  | VStr s => Some (map (fun c => VStr (String c EmptyString)) (list_ascii_of_string s))
  | _ => None
  end.

(** What Python raises: an instance of [BaseError], or any other
    exception, kept by the name of its class. *)
Inductive Exc :=
| ExcError (e : Error)
| ExcOther (name : string).

Inductive Outcome (A : Type) :=
| Returns (a : A)
| Raises (e : Exc).
Arguments Returns {A} a.
Arguments Raises {A} e.

(** [InternalError(ex)] *)
Definition InternalError_of (name : string) : Error :=
  MkError InternalError name.

(** The classes that derive from [BaseException] without deriving from
    [Exception]: an [except Exception] clause does not catch them.  A
    task that is cancelled ([kill]) raises [asyncio.CancelledError] at
    its next [await]. *)
Definition base_only (name : string) : bool :=
  existsb (String.eqb name)
    ["CancelledError"; "KeyboardInterrupt"; "SystemExit"; "GeneratorExit"].

(** ** Induction on values, through the lists they nest *)

Section Value_nested_induction.
Variable P : Value -> Prop.
Hypothesis HNone : P VNone.
Hypothesis HBool : forall b, P (VBool b).
Hypothesis HInt : forall n, P (VInt n).
Hypothesis HStr : forall s, P (VStr s).
Hypothesis HList : forall l, Forall P l -> P (VList l).
Hypothesis HResult : forall d l, Forall P d -> P (VResult d l).
Hypothesis HErr : forall e, P (VErr e).

Fixpoint Value_nested_ind (v : Value) : P v :=
  let all := fix all (l : list Value) : Forall P l :=
    match l with
    | [] => @List.Forall_nil Value P
    | x :: xs => @List.Forall_cons Value P x xs (Value_nested_ind x) (all xs)
    end in
  match v with
  | VNone => HNone
  | VBool b => HBool b
  | VInt n => HInt n
  | VStr s => HStr s
  | VList l => HList l (all l)
  | VResult d l => HResult d l (all d)
  | VErr e => HErr e
  end.
End Value_nested_induction.

(* ===================================================================== *)
(** * parser/wrapper.py: class Result *)
(* ===================================================================== *)

Module wrapper.

Record Result := mkResult { data : list Value; last : Value }.

(** [Result()] *)
Definition Result_new : Result := {| data := []; last := VNone |}.

Definition Result_value (r : Result) : Value := VResult (data r) (last r).

(** [Result.append(self, object, inside=False)].  The loop over a list or
    a [Result] calls [append(element, True)] on each element in turn; only
    the outermost call sets [last]. *)
Fixpoint append (self : Result) (object : Value) (inside : bool) : Result :=
  let self' :=
    match object with
    | VList l | VResult l _ =>
        fold_left (fun s element => append s element true) l self
    | VNone => self
    | _ => {| data := data self ++ [object]; last := last self |}
    end in
  if inside then self' else {| data := data self'; last := object |}.

(** [Result.insert(self, object, inside=False)].  The source walks
    [object[::-1]] from its first element, that is [object] from its last
    one: a right fold ([insert_reversed] below states it on the reversed
    list). *)
Fixpoint insert (self : Result) (object : Value) (inside : bool) : Result :=
  let self' :=
    match object with
    | VList l | VResult l _ =>
        fold_right (fun element s => insert s element true) self l
    | VNone => self
    | _ => {| data := object :: data self; last := last self |}
    end in
  if inside then self' else {| data := data self'; last := object |}.

(** [self << other] and [self >> other] both append. *)
Definition lshift (self : Result) (other : Value) : Result :=
  append self other false.

(** [Result(data=d)]: [__init__] appends [d] when it is truthy and then
    resets [last] to [None]. *)
Definition Result_init (d : list Value) : Result :=
  let r := match d with
           | [] => Result_new
           | _ => append Result_new (VList d) false
           end in
  {| data := data r; last := VNone |}.

(** [Result.pop]: the returned copy, and [self] with its data cleared
    ([last] is left as it was). *)
Definition pop (self : Result) : Result * Result :=
  (Result_init (data self), {| data := []; last := last self |}).

(** [Result.errors] *)
Definition errors (self : Result) : list Value :=
  List.filter is_BaseError (data self).

(** [Result.keyword_error]: the error it raises, if any. *)
Definition keyword_error (last_value : Value) : option Error :=
  match last_value with
  | VErr e => if Error_is_KeywordError e then Some e else None
  | _ => None
  end.

(** [Result.last_keyword_error]: [if type(self.last) is Result:
    self.last.keyword_error()]. *)
Definition last_keyword_error (self : Result) : option Error :=
  match last self with
  | VResult _ l => keyword_error l
  | _ => None
  end.

(** The spec's reading of insertion, "flattens exactly one level": the
    elements of a list or [Result] are spliced as they are. *)
Definition splice_one_level (v : Value) : list Value :=
  match v with
  | VList l | VResult l _ => l
  | _ => [v]
  end.

(** What the code splices: every nesting level is opened, [None] is
    dropped. *)
Fixpoint flatten (v : Value) : list Value :=
  match v with
  | VList l | VResult l _ => flat_map flatten l
  | VNone => []
  | _ => [v]
  end.

(** What [append] and [insert] do with one value, as the proofs by
    induction on the value carry it. *)
Definition append_spec (v : Value) : Prop :=
  forall self inside,
    data (append self v inside) = data self ++ flatten v /\
    last (append self v inside) = if inside then last self else v.

Definition insert_spec (v : Value) : Prop :=
  forall self inside,
    data (insert self v inside) = flatten v ++ data self /\
    last (insert self v inside) = if inside then last self else v.

End wrapper.
Export wrapper.


(* ===================================================================== *)
(** * models/event.py, models/state.py: what the evaluators use of an event *)
(* ===================================================================== *)

(** Owner, group and principal identities: [int | str]. *)
Inductive Ident :=
| IdInt (n : Z)
| IdStr (s : string).

Definition Ident_eqb (a b : Ident) : bool :=
  match a, b with
  | IdInt n, IdInt m => Z.eqb n m
  | IdStr s, IdStr t => String.eqb s t
  | _, _ => false
  end.

(** [x in xs] for identities. *)
Definition Ident_in (x : Ident) (xs : list Ident) : bool :=
  existsb (Ident_eqb x) xs.

(** The interface of [Event] (and of the [State] behind it) that the
    modelled code calls.  [set_variable] may raise
    ([ReservedVariableError]); the others do not. *)
Class EventOps (Event : Type) := {
  groups : Event -> list Ident;
  object_id : Event -> Ident;
  return_on_error : Event -> bool;
  set_variable : Value -> Value -> Event -> Outcome unit * Event;
  pop_variable : string -> Event -> Event;
  command_args : Event -> list Value;
  set_command_arguments : list Value -> Event -> Event;
  skip_top_priority : Event -> bool
}.

(* ===================================================================== *)
(** * models/packages.py: class Command *)
(* ===================================================================== *)

Module packages.

(** What [unsafe_execute] hands to the body: the raw argument list when
    the command has no argument parser, else the parsed namespace. *)
Inductive Parsed :=
| RawArgs (args : list Value)
| Namespace (help : bool) (fields : list (string * Value)).

Section Command.
Context {Event : Type} `{EventOps Event}.

(** A command class: [name], [group], [argparser] ([None] or a parser,
    whose [parse_args] may raise; [argparse.ArgumentError] is
    [ExcOther "ArgumentError"]), [help_message] and the body
    [function(event, parsed, stdin)]. *)
Record Command := {
  name : string;
  group : Ident;
  aliases : list string;
  argparser : option (list Value -> Event -> Outcome Parsed * Event);
  help_message : string;
  function : Event -> Parsed -> Value -> Outcome Value * Event
}.

(** [cls.group not in event.groups() and "root" not in event.groups()] *)
Definition group_denied (cls : Command) (event : Event) : bool :=
  negb (Ident_in (group cls) (groups event))
  && negb (Ident_in (IdStr "root") (groups event)).

Definition CommandPermissionError_of (cls : Command) : Error :=
  MkError CommandPermissionError (name cls).

Definition ArgparseError_of (cls : Command) : Error :=
  MkError ArgparseError (name cls).

(** [Command.unsafe_execute(cls, event, parsed, stdin)] *)
Definition unsafe_execute (cls : Command) (event : Event)
    (parsed : list Value) (stdin : Value) : Outcome Value * Event :=
  if group_denied cls event then
    (Raises (ExcError (CommandPermissionError_of cls)), event)
  else
    match argparser cls with
    | Some parse_args =>
        match parse_args parsed event with
        | (Returns ns, event1) =>
            let help_requested :=
              match ns with
              | Namespace h _ => h
              | RawArgs _ => false
              end in
            if help_requested then (Returns (VStr (help_message cls)), event1)
            else function cls event1 ns stdin
        | (Raises (ExcOther "ArgumentError"), event1) =>
            (Raises (ExcError (ArgparseError_of cls)), event1)
        | (Raises e, event1) => (Raises e, event1)
        end
    | None => function cls event (RawArgs parsed) stdin
    end.

(** [Command.execute]: keyword errors pass; with [return_on_error] any
    other exception that [except Exception] catches becomes a
    [ReturnError] that carries it. *)
Definition execute (cls : Command) (event : Event)
    (parsed : list Value) (stdin : Value) : Outcome Value * Event :=
  match unsafe_execute cls event parsed stdin with
  | (Returns v, event1) => (Returns v, event1)
  | (Raises (ExcError e), event1) =>
      if Error_is_KeywordError e then (Raises (ExcError e), event1)
      else if return_on_error event1
           then (Raises (ExcError (ReturnError (VErr e))), event1)
           else (Raises (ExcError e), event1)
  | (Raises (ExcOther ex), event1) =>
      if base_only ex then (Raises (ExcOther ex), event1)
      else if return_on_error event1
      then (Raises (ExcError (ReturnError (VErr (InternalError_of ex)))), event1)
      else (Raises (ExcOther ex), event1)
  end.

(** [command == name] of [CommandMeta.__eq__]. *)
Definition Command_matches (cls : Command) (other : string) : bool :=
  String.eqb (name cls) other || existsb (String.eqb other) (aliases cls).

(** The last branch of [get_command]: the first registered command that
    matches the name. *)
Definition get_command (commands : list Command) (name : string)
    : option Command :=
  List.find (fun c => Command_matches c name) commands.

End Command.
Arguments Command : clear implicits.

End packages.
Export packages.

(* ===================================================================== *)
(** * parser/wrapper.py: the evaluators *)
(* ===================================================================== *)

Module evaluators.

Section Engine.
Context {Event : Type} `{EventOps Event}.

(** [finalize(event, stdin=...)] of a node that evaluates: the input
    stream ([None] when there is none), the event, and what comes back. *)
Definition finalizer := Value -> Event -> Outcome Value * Event.

(** The children a node holds in [self.data].  [Operator], [Pipe] and
    [Reservedword] are told apart by [type(object) is ...]; every other
    node is known by its [finalize]. *)
Inductive Wrapper :=
| Operator (type : string)
| Pipe
| Reservedword (word : string)
| Node (finalize : finalizer).

(** [object.finalize(event)] ([stdin = None]) and
    [object.finalize(event, stdin=s)] ([stdin = Some s]).
    [Operator.finalize] needs [previous], [Pipe] has no [finalize], and
    [Reservedword.finalize] takes no [stdin]. *)
Definition call_finalize (object : Wrapper) (stdin : option Value)
    (event : Event) : Outcome Value * Event :=
  match object with
  | Operator _ => (Raises (ExcOther "TypeError"), event)
  | Pipe => (Raises (ExcOther "AttributeError"), event)
  | Reservedword word =>
      match stdin with
      | None => (Returns (VStr word), event)
      | Some _ => (Raises (ExcOther "TypeError"), event)
      end
  | Node finalize =>
      finalize (match stdin with Some s => s | None => VNone end) event
  end.

(** ** class Operator *)

(** [isinstance(previous, BaseError) or
    bool(getattr(previous, "errors", False))]: only a [Result] has
    [errors]. *)
Definition was_exception (previous : Value) : bool :=
  is_BaseError previous ||
  match previous with
  | VResult d l => match errors {| data := d; last := l |} with
                   | [] => false
                   | _ => true
                   end
  | _ => false
  end.

(** [Operator.finalize(event, previous=...)]: [False] makes the list
    skip its next element. *)
Definition Operator_finalize (type : string) (previous : Value) : bool :=
  let was_exception := was_exception previous in
  if String.eqb type "&&" && was_exception then false
  else if String.eqb type "||" && negb was_exception then false
  else if negb (String.eqb type "||") && is_ReturnError previous then false
  else true.

(** ** class List *)

(** The loop of [List.finalize], from a given [skip] and [result].
    [ExcOther] stands here for an exception that [except Exception]
    catches; one that it does not catch (see [base_only]) would leave
    the loop, which this model of the list does not follow. *)
Fixpoint List_loop (data : list Wrapper) (skip : bool) (result : Result)
    (event : Event) : Result * Event :=
  match data with
  | [] => (result, event)
  | object :: rest =>
      if skip then List_loop rest false result event
      else
        match object with
        | Operator type =>
            let op := Operator_finalize type (last result) in
            List_loop rest (negb op) result event
        | _ =>
            match call_finalize object None event with
            | (Returns v, event1) =>
                List_loop rest false (lshift result v) event1
            | (Raises (ExcError ex), event1) =>
                if Error_is_KeywordError ex
                then (lshift result (VErr ex), event1)
                else List_loop rest false (lshift result (VErr ex)) event1
            | (Raises (ExcOther ex), event1) =>
                List_loop rest false
                  (lshift result (VErr (InternalError_of ex))) event1
            end
        end
  end.

Definition List_finalize (data : list Wrapper) (event : Event) : Result * Event :=
  List_loop data false Result_new event.

(** ** class Pipeline *)

Fixpoint Pipeline_loop (data : list Wrapper) (pipe : bool) (result : Result)
    (event : Event) : Outcome Result * Event :=
  match data with
  | [] => (Returns result, event)
  | Pipe :: rest => Pipeline_loop rest true result event
  | object :: rest =>
      let '(stdin, result0) :=
        if pipe then (Result_value (fst (pop result)), snd (pop result))
        else (VNone, result) in
      match call_finalize object (Some stdin) event with
      | (Returns v, event1) =>
          let result1 := lshift result0 v in
          match last_keyword_error result1 with
          | Some ex => (Raises (ExcError ex), event1)
          | None => Pipeline_loop rest false result1 event1
          end
      | (Raises ex, event1) => (Raises ex, event1)
      end
  end.

Definition Pipeline_finalize (data : list Wrapper) (event : Event)
    : Outcome Result * Event :=
  Pipeline_loop data false Result_new event.

(** ** class Compound *)

Fixpoint Compound_loop (data : list Wrapper) (result : Result) (event : Event)
    : Outcome Result * Event :=
  match data with
  | [] => (Returns result, event)
  | Reservedword _ :: rest => Compound_loop rest result event
  | object :: rest =>
      match call_finalize object None event with
      | (Returns v, event1) => Compound_loop rest (lshift result v) event1
      | (Raises ex, event1) => (Raises ex, event1)
      end
  end.

Definition Compound_finalize (data : list Wrapper) (event : Event)
    : Outcome Result * Event :=
  Compound_loop data Result_new event.

(** A node that returns a [Result], as a child of another node. *)
Definition as_node (f : Event -> Outcome Result * Event) : Wrapper :=
  Node (fun _ event =>
          match f event with
          | (Returns r, event1) => (Returns (Result_value r), event1)
          | (Raises ex, event1) => (Raises ex, event1)
          end).

Definition List_node (data : list Wrapper) : Wrapper :=
  as_node (fun event => let '(r, event1) := List_finalize data event in
                        (Returns r, event1)).

(** ** The state machines of If, For and Loop *)

(** [action == word] for an [action] that may be [None]. *)
Definition action_is (action : option string) (word : string) : bool :=
  match action with
  | Some a => String.eqb a word
  | None => false
  end.

(** A dictionary [actions]: [None] is the [KeyError] of a missing key,
    [Some None] the value [None]. *)
Definition lookup_action (actions : list (string * option string))
    (word : string) : option (option string) :=
  match List.find (fun kv => String.eqb (fst kv) word) actions with
  | Some kv => Some (snd kv)
  | None => None
  end.

(** [any(isinstance(x, BaseError) for x in v)]; [None] when [v] is not
    iterable. *)
Definition any_BaseError (v : Value) : option bool :=
  match iter_value v with
  | Some xs => Some (existsb is_BaseError xs)
  | None => None
  end.

(** How the [except] clauses of the body of a loop ([For], [Loop])
    answer an exception: [break], go on with the next iteration
    ([continue], and [except Exception: pass]), raise
    [ReturnError(result << ex.value)], or catch nothing: an exception
    that is no [Exception] leaves the loop as it is. *)
Inductive LoopSignal :=
| Stop
| Next
| Reraise (ex : Error)
| Escape (name : string).

Definition loop_except (ex : Exc) (result : Result) : LoopSignal :=
  match ex with
  | ExcError (MkError BreakError _) => Stop
  | ExcError (MkError ContinueError _) => Next
  | ExcError (ReturnError value) =>
      Reraise (ReturnError (Result_value (lshift result value)))
  | ExcError (MkError _ _) => Next
  | ExcOther name => if base_only name then Escape name else Next
  end.

(** The [try] block of a loop body and of an [If] branch:
    [result << await object.finalize(event)] followed by
    [result.last_keyword_error()].  Returns the result as it stands
    when the exception, if any, is raised. *)
Definition try_body (object : Wrapper) (result : Result) (event : Event)
    : Result * option Exc * Event :=
  match call_finalize object None event with
  | (Returns v, event1) =>
      let result1 := lshift result v in
      match last_keyword_error result1 with
      | Some ex => (result1, Some (ExcError ex), event1)
      | None => (result1, None, event1)
      end
  | (Raises ex, event1) => (result, Some ex, event1)
  end.

(** ** class If *)

Definition If_actions : list (string * option string) :=
  [("if", Some "condition"); ("elif", Some "condition"); (";", None);
   ("then", Some "action"); ("else", Some "else_action"); ("fi", Some "end")].

(** The test of the branch: [None] is the [TypeError] of a condition
    result that is not iterable. *)
Definition If_branch_taken (action : option string) (condition_result : Value)
    : option bool :=
  if action_is action "action" then
    match condition_result with
    | VNone => Some (action_is action "else_action")
    | _ =>
        match any_BaseError condition_result with
        | Some false => Some true
        | Some true => Some (action_is action "else_action")
        | None => None
        end
    end
  else Some (action_is action "else_action").

Fixpoint If_loop (data : list Wrapper) (action : option string)
    (condition_result : Value) (result : Result) (event : Event)
    : Outcome Result * Event :=
  match data with
  | [] => (Returns result, event)
  | Reservedword word :: rest =>
      match lookup_action If_actions word with
      | Some a => If_loop rest a condition_result result event
      | None => (Raises (ExcOther "KeyError"), event)
      end
  | object :: rest =>
      if action_is action "condition" then
        match call_finalize object None event with
        | (Returns v, event1) => If_loop rest action v result event1
        | (Raises ex, event1) => (Raises ex, event1)
        end
      else
        match If_branch_taken action condition_result with
        | None => (Raises (ExcOther "TypeError"), event)
        | Some false => If_loop rest action condition_result result event
        | Some true =>
            match try_body object result event with
            | (result1, None, event1) => (Returns result1, event1)
            | (result1, Some (ExcError (ReturnError value)), event1) =>
                (Raises (ExcError
                   (ReturnError (Result_value (lshift result1 value)))), event1)
            | (_, Some ex, event1) => (Raises ex, event1)
            end
        end
  end.

Definition If_finalize (data : list Wrapper) (event : Event)
    : Outcome Result * Event :=
  If_loop data None VNone Result_new event.

(** ** class For *)

Definition For_actions : list (string * option string) :=
  [("for", Some "variable"); ("in", Some "list"); (";", None);
   ("do", Some "action"); ("done", Some "end")].

(** [for variable in iterable: ...] *)
Fixpoint For_iterate (iterable : list Value) (name : Value) (object : Wrapper)
    (result : Result) (event : Event) : Outcome Result * Event :=
  match iterable with
  | [] => (Returns result, event)
  | variable :: rest =>
      match set_variable name variable event with
      | (Raises ex, event0) => (Raises ex, event0)
      | (Returns _, event0) =>
          match try_body object result event0 with
          | (result1, None, event1) =>
              For_iterate rest name object result1 event1
          | (result1, Some ex, event1) =>
              match loop_except ex result1 with
              | Stop => (Returns result1, event1)
              | Next => For_iterate rest name object result1 event1
              | Reraise ex' => (Raises (ExcError ex'), event1)
              | Escape name => (Raises (ExcOther name), event1)
              end
          end
      end
  end.

(** The loop of [For.finalize] over [self.data].  The [typed=True] that
    the source passes to the words of the list is a matter of those
    words, which the model knows by their [finalize] only. *)
Fixpoint For_loop (data : list Wrapper) (action : option string)
    (name : Value) (iterable : list Value) (result : Result) (event : Event)
    : Outcome Result * Event :=
  match data with
  | [] => (Returns result, event)
  | Reservedword word :: rest =>
      match lookup_action For_actions word with
      | Some a => For_loop rest a name iterable result event
      | None => (Raises (ExcOther "KeyError"), event)
      end
  | object :: rest =>
      if action_is action "variable" then
        match call_finalize object None event with
        | (Returns v, event1) => For_loop rest action v iterable result event1
        | (Raises ex, event1) => (Raises ex, event1)
        end
      else if action_is action "list" then
        match call_finalize object None event with
        | (Returns output, event1) =>
            let iterable1 :=
              match output with
              | VList l | VResult l _ => iterable ++ l
              | _ => iterable ++ [output]
              end in
            For_loop rest action name iterable1 result event1
        | (Raises ex, event1) => (Raises ex, event1)
        end
      else if action_is action "action" then
        For_iterate iterable name object result event
      else For_loop rest action name iterable result event
  end.

Definition For_finalize (data : list Wrapper) (event : Event)
    : Outcome Result * Event :=
  For_loop data None VNone [] Result_new event.

(** ** class Loop *)

Definition Loop_actions : list (string * option string) :=
  [("while", Some "condition"); ("until", Some "false_condition");
   ("do", Some "action"); ("done", Some "end")].

Definition LimitExceededError_of (limit : Z) (description : string) : Error :=
  MkError LimitExceededError description.

(** [while True: ...] of [Loop.finalize], entered with the counter
    [total].  The source's loop has no bound of its own: [fuel] is the
    number of passes the model may take, [None] the answer when they
    are used up. *)
Fixpoint Loop_while (fuel : nat) (condition : option Wrapper) (is_true : bool)
    (object : Wrapper) (total : Z) (result : Result) (event : Event)
    : option (Outcome Result * Event) :=
  match fuel with
  | O => None
  | S fuel' =>
      let total := total + 1 in
      if (1000 <? total)%Z then
        Some (Raises (ExcError
                (LimitExceededError_of 1000 "maximum repeatings")), event)
      else
        match condition with
        | None => Some (Raises (ExcOther "TypeError"), event)
        | Some cond =>
            match call_finalize cond None event with
            | (Raises ex, event1) => Some (Raises ex, event1)
            | (Returns c, event1) =>
                match any_BaseError c with
                | None => Some (Raises (ExcOther "TypeError"), event1)
                | Some any_error =>
                    let condition_result := negb any_error in
                    if (negb condition_result && is_true)
                       || (condition_result && negb is_true)
                    then Some (Returns result, event1)
                    else
                      match try_body object result event1 with
                      | (result1, None, event2) =>
                          Loop_while fuel' condition is_true object total
                            result1 event2
                      | (result1, Some ex, event2) =>
                          match loop_except ex result1 with
                          | Stop => Some (Returns result1, event2)
                          | Next =>
                              Loop_while fuel' condition is_true object total
                                result1 event2
                          | Reraise ex' => Some (Raises (ExcError ex'), event2)
                          | Escape name => Some (Raises (ExcOther name), event2)
                          end
                      end
                end
            end
        end
  end.

Fixpoint Loop_loop (fuel : nat) (data : list Wrapper) (action : option string)
    (condition : option Wrapper) (is_true : bool) (result : Result)
    (event : Event) : option (Outcome Result * Event) :=
  match data with
  | [] => Some (Returns result, event)
  | Reservedword word :: rest =>
      match lookup_action Loop_actions word with
      | Some a => Loop_loop fuel rest a condition is_true result event
      | None => Some (Raises (ExcOther "KeyError"), event)
      end
  | object :: rest =>
      if action_is action "condition" then
        Loop_loop fuel rest action (Some object) is_true result event
      else if action_is action "false_condition" then
        Loop_loop fuel rest action (Some object) false result event
      else if action_is action "action" then
        Loop_while fuel condition is_true object 0 result event
      else Loop_loop fuel rest action condition is_true result event
  end.

Definition Loop_finalize (fuel : nat) (data : list Wrapper) (event : Event)
    : option (Outcome Result * Event) :=
  Loop_loop fuel data None None true Result_new event.

(** ** class Function *)

(** [Function.execute(self, event, args, stdin)]; [function] is
    [self.function], the [finalize] of the body, [None] before a body
    was found.  An exception of the body that [except Exception] does
    not catch leaves the call before [_stdin] is unbound and the
    arguments are put back. *)
Definition Function_execute (name : Value) (function : option finalizer)
    (args : list Value) (stdin : Value) (event : Event)
    : Outcome Value * Event :=
  let old_args := command_args event in
  let event1 := set_command_arguments (name :: args) event in
  match set_variable (VStr "_stdin") stdin event1 with
  | (Raises ex, event2) => (Raises ex, event2)
  | (Returns _, event2) =>
      let finish (result : Value) (event3 : Event) :=
        let event4 := pop_variable "_stdin" event3 in
        (Returns result, set_command_arguments old_args event4) in
      match function with
      | None => finish VNone event2
      | Some body =>
          match body VNone event2 with
          | (Returns (VResult d l), event') =>
              match last_keyword_error {| data := d; last := l |} with
              | Some (ReturnError value) => finish value event'
              | _ => finish (VResult d l) event'
              end
          | (Returns v, event') => finish v event'
          | (Raises (ExcError (ReturnError value)), event') => finish value event'
          | (Raises (ExcError _), event') => finish VNone event'
          | (Raises (ExcOther name), event') =>
              if base_only name then (Raises (ExcOther name), event')
              else finish VNone event'
          end
      end
  end.

(** ** class Command *)

(** The children of a [Command] by what [finalize] does with them: a
    plain string, a node whose value joins the arguments, an
    [Assignment] (evaluated, then skipped) and an input [Redirect]
    (["<" in object.type]: its value becomes [stdin]).  Output redirects
    are left out of the model, so [stdout] is always [None] here. *)
Inductive CommandPart :=
| PartStr (s : string)
| PartWord (finalize : finalizer)
| PartAssignment (finalize : finalizer)
| PartRedirectIn (finalize : finalizer).

(** The first loop of [Command.finalize]: the arguments and the input. *)
Fixpoint Command_arguments (data : list CommandPart) (args : list Value)
    (stdin : Value) (event : Event) : Outcome (list Value * Value) * Event :=
  match data with
  | [] => (Returns (args, stdin), event)
  | PartStr s :: rest => Command_arguments rest (args ++ [VStr s]) stdin event
  | PartWord finalize :: rest =>
      match finalize VNone event with
      | (Returns (VList l), event1) => Command_arguments rest (args ++ l) stdin event1
      | (Returns v, event1) => Command_arguments rest (args ++ [v]) stdin event1
      | (Raises ex, event1) => (Raises ex, event1)
      end
  | PartAssignment finalize :: rest =>
      match finalize VNone event with
      | (Returns _, event1) => Command_arguments rest args stdin event1
      | (Raises ex, event1) => (Raises ex, event1)
      end
  | PartRedirectIn finalize :: rest =>
      match finalize VNone event with
      | (Returns v, event1) => Command_arguments rest args v event1
      | (Raises ex, event1) => (Raises ex, event1)
      end
  end.

(** [get_command(name, event)], as far as it finds a registered
    command or nothing; script paths, session functions and aliases
    are left to the parameter. *)
Variable get_command_of :
  Value -> Event -> Outcome (option (Command Event)) * Event.

Definition UnknownCommandError_of (name : Value) : Error :=
  MkError UnknownCommandError
    (match name with VStr s => s | _ => "" end).

(** [Command.finalize(self, event, stdin=...)] for a command at nesting
    depth [level]. *)
Definition Command_finalize (level : Z) (data : list CommandPart)
    (stdin : Value) (event : Event) : Outcome Value * Event :=
  match Command_arguments data [] stdin event with
  | (Raises ex, event1) => (Raises ex, event1)
  | (Returns ([], stdin1), event1) => (Returns stdin1, event1)
  | (Returns (name :: args, stdin1), event1) =>
      let top_priority := (level =? 0)%Z && negb (skip_top_priority event1) in
      let old_args := if top_priority then command_args event1 else [] in
      let event2 :=
        if top_priority then set_command_arguments (name :: args) event1
        else event1 in
      let restore (ev : Event) :=
        match old_args with
        | [] => ev
        | _ => set_command_arguments old_args ev
        end in
      let finish (result : Value) (ev : Event) :=
        (Returns (Result_value (lshift Result_new result)), restore ev) in
      match get_command_of name event2 with
      | (Returns None, event3) =>
          (Returns (VErr (UnknownCommandError_of name)), event3)
      | (Returns (Some command), event3) =>
          match execute command event3 args stdin1 with
          | (Returns result, event4) => finish result event4
          | (Raises (ExcError ex), event4) =>
              if Error_is_KeywordError ex then (Raises (ExcError ex), event4)
              else finish (VErr ex) event4
          | (Raises ex, event4) => (Raises ex, event4)
          end
      | (Raises (ExcError ex), event3) =>
          if Error_is_KeywordError ex then (Raises (ExcError ex), event3)
          else finish (VErr ex) event3
      | (Raises ex, event3) => (Raises ex, event3)
      end
  end.

End Engine.

(** A node that also notes, in a list carried along with the event, that
    it was evaluated: the theorems on loops read the order of the
    evaluations off that list. *)
Definition traced {Event : Type} (tag : bool) (f : @finalizer Event)
    : @finalizer (Event * list bool) :=
  fun stdin '(event, trace) =>
    let '(outcome, event1) := f stdin event in
    (outcome, (event1, trace ++ [tag])).

(** [passes k]: [k] times a condition ([true]) followed by a body
    ([false]). *)
Definition passes (k : nat) : list bool :=
  List.concat (repeat [true; false] k).

(** What the list of evaluations looks like when a loop that had made
    [k] passes is left. *)
Definition Loop_trace_ok {Event : Type} (k : nat)
    (exit : option (Outcome Result * (Event * list bool))) : Prop :=
  match exit with
  | Some (_, (_, trace)) =>
      exists k', (k <= k' <= 1000)%nat
                 /\ (trace = passes k' \/ ((k' < 1000)%nat /\ trace = passes k' ++ [true]))
  | None => True
  end.

End evaluators.
Export evaluators.

(* ===================================================================== *)
(** * structure/permissions.py: class Mode *)
(* ===================================================================== *)

Module permissions.

Record Mode := mkMode { value : Z; owner : Ident; group : Ident }.

(** The digits of [format(value, "o")], most significant first. *)
Fixpoint oct_digits_from (fuel : nat) (n : Z) (acc : list Z) : list Z :=
  match fuel with
  | O => n :: acc
  | S fuel' =>
      if (n <? 8)%Z then n :: acc
      else oct_digits_from fuel' (n / 8) (n mod 8 :: acc)
  end.

Definition oct_digits (n : Z) : list Z :=
  oct_digits_from (Z.to_nat (Z.log2 n)) n [].

(** [s.rjust(3, "0")] on the digits. *)
Definition rjust3 (digits : list Z) : list Z :=
  repeat 0%Z (3 - List.length digits)%nat ++ digits.

(** The three characters [Mode.__iter__] yields for one digit. *)
Definition digit_chars (num : Z) : list string :=
  let r := (0 <=? num - 4)%Z in
  let num1 := if r then (num - 4)%Z else num in
  let w := (0 <=? num1 - 2)%Z in
  let num2 := if w then (num1 - 2)%Z else num1 in
  [ (if r then "r" else "-");
    (if w then "w" else "-");
    (if (num2 =? 1)%Z then "x" else "-") ].

(** [list(self)]: [None] is the [ValueError] of [int("-")] on a negative
    value. *)
Definition Mode_iter (self : Mode) : option (list string) :=
  if (value self <? 0)%Z then None
  else Some (flat_map digit_chars (rjust3 (oct_digits (value self)))).

(** [[total[i : i + 3] for i in range(0, len(total), 3)]] *)
Fixpoint chunks3 {A : Type} (total : list A) : list (list A) :=
  match total with
  | a :: b :: c :: rest => [a; b; c] :: chunks3 rest
  | [] => []
  | short => [short]
  end.

(** [Mode.bit_grouped] *)
Definition bit_grouped (self : Mode) : option (list (list bool)) :=
  match Mode_iter self with
  | Some total => Some (chunks3 (map (fun x => negb (String.eqb x "-")) total))
  | None => None
  end.

(** The nine permission bits of a mode value, owner triple first: what
    the rwx reading of a three-digit octal value means. *)
Definition rwx_triples (v : Z) : list (list bool) :=
  [[Z.testbit v 8; Z.testbit v 7; Z.testbit v 6];
   [Z.testbit v 5; Z.testbit v 4; Z.testbit v 3];
   [Z.testbit v 2; Z.testbit v 1; Z.testbit v 0]].

(** Whether [bit_grouped] reads a value as its nine bits. *)
Definition bit_grouped_agrees (v : Z) : bool :=
  bool_decide (bit_grouped {| value := v; owner := IdInt 0; group := IdInt 0 |}
               = Some (rwx_triples v)).

(** [Mode.indexes] *)
Definition indexes (action : string) : option nat :=
  if String.eqb action "read" then Some 0%nat
  else if String.eqb action "write" then Some 1%nat
  else if String.eqb action "execute" then Some 2%nat
  else None.

(** The [event] argument of a check: [True] (no check), [None], or an
    event (a truthy one: an acting principal). *)
Inductive EventArg (Event : Type) :=
| EventTrue
| EventNone
| EventOf (event : Event).
Arguments EventTrue {Event}.
Arguments EventNone {Event}.
Arguments EventOf {Event} event.

Section Check.
Context {Event : Type} `{EventOps Event}.

(** Which of [bit_grouped[0]], [[1]], [[2]] the check reads for this
    principal. *)
Definition selected_triple (self : Mode) (event : Event) : nat :=
  if Ident_eqb (object_id event) (owner self) then 0%nat
  else if Ident_in (group self) (groups event) then 1%nat
  else 2%nat.

Definition PermissionDeniedError_of (file action : string) : Error :=
  MkError PermissionDeniedError (action +:+ " " +:+ file).

(** [Mode.check(self, file, action, event=..., exception=...)]; [file]
    is the name the error reports. *)
Definition Mode_check (self : Mode) (file : string) (action : string)
    (event : EventArg Event) (exception : bool) : Outcome bool :=
  if negb (existsb (String.eqb action)
             ["read"; "write"; "execute"; "owner"; "group"])
  then Raises (ExcOther "ValueError")
  else
    match event with
    | EventTrue => Returns true
    | EventNone =>
        match bit_grouped self with
        | None => Raises (ExcOther "ValueError")
        | Some _ => Raises (ExcOther "AttributeError")
        end
    | EventOf event =>
        if String.eqb action "owner"
           && Ident_eqb (object_id event) (owner self) then Returns true
        else if String.eqb action "group"
                && Ident_in (group self) (groups event) then Returns true
        else
          match bit_grouped self with
          | None => Raises (ExcOther "ValueError")
          | Some grouped =>
              match grouped !! selected_triple self event with
              | None => Raises (ExcOther "IndexError")
              | Some triple =>
                  match indexes action with
                  | None => Raises (ExcOther "KeyError")
                  | Some index =>
                      match triple !! index with
                      | None => Raises (ExcOther "IndexError")
                      | Some true => Returns true
                      | Some false =>
                          if exception
                          then Raises (ExcError
                                         (PermissionDeniedError_of file action))
                          else Returns false
                      end
                  end
              end
          end
    end.
End Check.

End permissions.
Export permissions.

(* ===================================================================== *)
(** * structure/filesystem.py, structure/data.py, models/database.py *)
(* ===================================================================== *)

Module filesystem.

(** The keys of [kinds]. *)
Inductive Kind :=
| file | directory | link | generator | generated_directory | generated_file
| home_pointer | home | network_directory | network_file | rootfs | filter.

(** [kind in dir_kinds] *)
Definition in_dir_kinds (k : Kind) : bool :=
  match k with
  | directory | link | generator | generated_directory | home_pointer | home
  | network_directory | rootfs | filter => true
  | file | generated_file | network_file => false
  end.

(** ["generat" in kind] *)
Definition is_generated (k : Kind) : bool :=
  match k with
  | generator | generated_directory | generated_file => true
  | _ => false
  end.

(** ["file" in kind] *)
Definition is_file_like (k : Kind) : bool :=
  match k with
  | file | generated_file | network_file => true
  | _ => false
  end.

(** [class Path]: the names and the references (inodes) from the root. *)
Record Path := mkPath { names : list string; references : list Z }.

(** [Path(names, references)]: empty arguments fall back to the root. *)
Definition Path_new (ns : list string) (rs : list Z) : Path :=
  {| names := match ns with [] => [""] | _ => ns end;
     references := match rs with [] => [1%Z] | _ => rs end |}.

(** [str(path)] *)
Definition Path_str (p : Path) : string :=
  match String.concat "/" (names p) with
  | "" => "/"
  | s => s
  end.

(** [path / [name, inode]] *)
Definition Path_div (p : Path) (name : string) (inode : Z) : Path :=
  Path_new (names p ++ [name]) (references p ++ [inode]).

(** [path[:-1]] *)
Definition Path_init (p : Path) : Path :=
  Path_new (removelast (names p)) (removelast (references p)).

(** The attribute [files] of a node: the dictionary of a directory (in
    insertion order, name to inode), the bound method of a [Generator],
    or no such attribute ([Link], [HomePointer], the file classes). *)
Inductive FilesAttr :=
| FilesDict (entries : list (string * Z))
| FilesMethod
| NoFilesAttr.

(** A node: the fields of [ConstructorFile] and the payload of its
    class. *)
Record File := mkFile {
  kind : Kind;
  name : string;
  mode : Mode;
  inode : Z;
  path : Path;
  refs : list Z;
  content : Value;
  files : FilesAttr
}.

Definition with_files (f : File) (fa : FilesAttr) : File :=
  {| kind := kind f; name := name f; mode := mode f; inode := inode f;
     path := path f; refs := refs f; content := content f; files := fa |}.

Definition with_refs (f : File) (rs : list Z) : File :=
  {| kind := kind f; name := name f; mode := mode f; inode := inode f;
     path := path f; refs := rs; content := content f; files := files f |}.

Definition with_name_path (f : File) (n : string) (p : Path) : File :=
  {| kind := kind f; name := n; mode := mode f; inode := inode f;
     path := p; refs := refs f; content := content f; files := files f |}.

(** [str(file)]: [self.name or "/"] *)
Definition File_str (f : File) : string :=
  match name f with
  | "" => "/"
  | n => n
  end.

(** [add_reference] and [remove_reference] *)
Definition add_reference (f : File) (i : Z) : File :=
  if existsb (Z.eqb i) (refs f) then f else with_refs f (refs f ++ [i]).

(** [list.remove(x)]: the first occurrence. *)
Fixpoint list_remove_first (x : Z) (l : list Z) : list Z :=
  match l with
  | [] => []
  | y :: ys => if Z.eqb x y then ys else y :: list_remove_first x ys
  end.

Definition remove_reference (f : File) (i : Z) : File :=
  with_refs f (list_remove_first i (refs f)).

(** Dictionary operations on [files], in insertion order. *)
Definition dict_get (d : list (string * Z)) (key : string) : option Z :=
  match List.find (fun kv => String.eqb (fst kv) key) d with
  | Some kv => Some (snd kv)
  | None => None
  end.

Fixpoint dict_set (d : list (string * Z)) (key : string) (v : Z)
    : list (string * Z) :=
  match d with
  | [] => [(key, v)]
  | (k, w) :: rest =>
      if String.eqb k key then (k, v) :: rest else (k, w) :: dict_set rest key v
  end.

Definition dict_pop (d : list (string * Z)) (key : string)
    : list (string * Z) :=
  List.filter (fun kv => negb (String.eqb (fst kv) key)) d.

(** The state of the filesystem: the list [defaults] of in-memory nodes
    (inodes below 10000), the records of [db._filesystem] by inode, and
    the allocator fields of the root directory. *)
Record FS := mkFS {
  defaults : list File;
  db : gmap Z File;
  free_inodes_list : list Z;
  next_public_inode : Z;
  next_private_inode : Z
}.

Definition with_defaults (fs : FS) (ds : list File) : FS :=
  {| defaults := ds; db := db fs; free_inodes_list := free_inodes_list fs;
     next_public_inode := next_public_inode fs;
     next_private_inode := next_private_inode fs |}.

Definition with_db (fs : FS) (d : gmap Z File) : FS :=
  {| defaults := defaults fs; db := d; free_inodes_list := free_inodes_list fs;
     next_public_inode := next_public_inode fs;
     next_private_inode := next_private_inode fs |}.

Definition with_free (fs : FS) (fr : list Z) : FS :=
  {| defaults := defaults fs; db := db fs; free_inodes_list := fr;
     next_public_inode := next_public_inode fs;
     next_private_inode := next_private_inode fs |}.

(** ** class RootDirectory: the inode allocator *)

Definition free_public_inodes (fs : FS) : list Z :=
  List.filter (fun i => (10000 <=? i)%Z) (free_inodes_list fs).

Definition free_private_inodes (fs : FS) : list Z :=
  List.filter (fun i => (i <? 10000)%Z) (free_inodes_list fs).

(** [RootDirectory.create_inode(self, public)] *)
Definition create_inode (public : bool) (fs : FS) : Z * FS :=
  if public then
    match free_public_inodes fs with
    | inode :: _ =>
        (inode, with_free fs (list_remove_first inode (free_inodes_list fs)))
    | [] =>
        (next_public_inode fs,
         {| defaults := defaults fs; db := db fs;
            free_inodes_list := free_inodes_list fs;
            next_public_inode := next_public_inode fs + 1;
            next_private_inode := next_private_inode fs |})
    end
  else
    match free_private_inodes fs with
    | inode :: _ =>
        (inode, with_free fs (list_remove_first inode (free_inodes_list fs)))
    | [] =>
        (next_private_inode fs,
         {| defaults := defaults fs; db := db fs;
            free_inodes_list := free_inodes_list fs;
            next_public_inode := next_public_inode fs;
            next_private_inode := next_private_inode fs + 1 |})
    end.

(** A sequence of allocations, none freed in between: the inodes
    returned, in order. *)
Fixpoint create_inodes (requests : list bool) (fs : FS) : list Z * FS :=
  match requests with
  | [] => ([], fs)
  | public :: rest =>
      let '(inode, fs1) := create_inode public fs in
      let '(inodes, fs2) := create_inodes rest fs1 in
      (inode :: inodes, fs2)
  end.

(** The invariant of the allocator in its weaker wording: the free list
    only. *)
Definition allocator_invariant_stated (fs : FS) : Prop :=
  List.NoDup (free_inodes_list fs)
  /\ forall x, List.In x (free_inodes_list fs) ->
               ((10000 <= x)%Z -> (x < next_public_inode fs)%Z)
               /\ ((x < 10000)%Z -> (x < next_private_inode fs)%Z).

(** The invariant that the allocator keeps: the two counters stay on
    their side of 10000 as well. *)
Definition allocator_invariant (fs : FS) : Prop :=
  allocator_invariant_stated fs
  /\ (10000 <= next_public_inode fs)%Z
  /\ (next_private_inode fs <= 10000)%Z.

(** A private inode can still be had: one is free, or the private
    counter has not reached 10000. *)
Definition private_room (public : bool) (fs : FS) : Prop :=
  public = true \/ free_private_inodes fs <> [] \/ (next_private_inode fs < 10000)%Z.

(** The inodes a state can still hand out. *)
Definition available (fs : FS) (x : Z) : Prop :=
  List.In x (free_inodes_list fs)
  \/ ((10000 <= x)%Z /\ (next_public_inode fs <= x)%Z)
  \/ ((x < 10000)%Z /\ (next_private_inode fs <= x)%Z).

(** The root as [RootDirectory.__init__] builds it on an empty store. *)
Definition initial_allocator : FS :=
  {| defaults := []; db := ∅; free_inodes_list := [];
     next_public_inode := 10000; next_private_inode := 2 |}.

(** ** structure/data.py *)

(** [discord.utils.get(defaults, inode=inode)] *)
Definition get_default (fs : FS) (i : Z) : option File :=
  List.find (fun f => Z.eqb (inode f) i) (defaults fs).

(** [get_by_inode(inode, name, path)]: the in-memory node if there is
    one, else the stored record decoded under [name], with the path
    extended by [name, inode]. *)
Definition get_by_inode (fs : FS) (i : Z) (n : string) (p : Path) : option File :=
  match get_default fs i with
  | Some f => Some f
  | None =>
      match db fs !! i with
      | Some f => Some (with_name_path f n (Path_div p n i))
      | None => None
      end
  end.

(** A node of [defaults] is shared: what the code changes on it is seen
    by every later lookup.  A node decoded from the store is a copy. *)
Definition update_shared (fs : FS) (f : File) : FS :=
  with_defaults fs
    (map (fun g => if Z.eqb (inode g) (inode f) then f else g) (defaults fs)).

(** [BaseFile.save]: generated nodes are not saved, nodes from inode
    10000 on are written to the store, the others kept in [defaults]. *)
Definition save (f : File) (fs : FS) : FS :=
  if is_generated (kind f) then fs
  else if (10000 <=? inode f)%Z then with_db fs (<[inode f := f]> (db fs))
  else
    match get_default fs (inode f) with
    | Some _ => update_shared fs f
    | None => with_defaults fs (defaults fs ++ [f])
    end.

(** [db.remove_file] *)
Definition remove_file (f : File) (fs : FS) : FS :=
  with_db fs (base.delete (inode f) (db fs)).

Section Nodes.
Context {Event : Type} `{EventOps Event}.

(** [BaseFile.check] *)
Definition check (self : File) (action : string) (event : EventArg Event)
    : Outcome bool :=
  Mode_check (mode self) (File_str self) action event true.

Definition starts_with (prefix s : string) : bool :=
  String.prefix prefix s.

(** [Path.get_parent] *)
Definition get_parent (fs : FS) (p : Path) : option File :=
  let rs := rev (references p) in
  let ns := rev (names p) in
  match rs, ns with
  | _ :: r :: _, _ :: n :: _ => get_by_inode fs r n (Path_init p)
  | _, _ =>
      match references p, names p with
      | r :: _, n :: _ => get_by_inode fs r n (Path_init p)
      | _, _ => None
      end
  end.

(** [Directory.select(name, event=...)] with [BaseFile.select] before
    it.  Home segments (["~"...]), filter segments (["%"...]) and the
    [select] of the classes that keep no dictionary ([Generator],
    [HomePointer]) lead outside this model and are reported as
    [ExcOther "unmodelled"]. *)
Definition select (self : File) (n : string) (event : EventArg Event)
    (fs : FS) : Outcome (option File) :=
  match check self "read" event with
  | Raises ex => Raises ex
  | Returns _ =>
      if is_file_like (kind self) then Raises (ExcOther "NotImplementedError")
      else if String.eqb n "" || String.eqb n "." then Returns (Some self)
      else if starts_with "~" n || starts_with "%" n
      then Raises (ExcOther "unmodelled")
      else
        let universal :=
          if String.eqb n ".." then get_parent fs (path self)
          else if String.eqb n "/" then get_default fs 1
          else None in
        match universal with
        | Some selected => Returns (Some selected)
        | None =>
            match files self with
            | FilesDict entries =>
                match dict_get entries n with
                | None => Raises (ExcError (MkError NoFileFoundError n))
                | Some i =>
                    if Z.eqb i 0
                    then Raises (ExcError (MkError NoFileFoundError n))
                    else Returns (get_by_inode fs i n (path self))
                end
            | _ => Raises (ExcOther "unmodelled")
            end
        end
  end.

(** [BaseFile.__delete(self, recursive=...)]: the nodes it yields, in
    order, and the filesystem after it.  The walk follows inodes through
    the store, so the model bounds its depth by [fuel]; [None] when the
    bound is hit. *)
Fixpoint delete (fuel : nat) (self : File) (recursive : bool) (fs : FS)
    : option (Outcome (list File) * FS) :=
  match fuel with
  | O => None
  | S fuel' =>
      match refs self with
      | _ :: _ => Some (Returns [], fs)
      | [] =>
          let finish (removed : list File) (fs' : FS) :=
            let fs1 := with_free fs' (free_inodes_list fs' ++ [inode self]) in
            Some (Returns (removed ++ [self]), remove_file self fs1) in
          if in_dir_kinds (kind self) && recursive then
            match files self with
            | FilesDict entries =>
                (fix children (entries : list (string * Z))
                     (removed : list File) (fs' : FS) :=
                   match entries with
                   | [] => finish removed fs'
                   | (n, i) :: rest =>
                       match get_by_inode fs' i n (path self) with
                       | None => Some (Raises (ExcOther "AttributeError"), fs')
                       | Some child =>
                           match delete fuel' child recursive fs' with
                           | None => None
                           | Some (Raises ex, fs'') => Some (Raises ex, fs'')
                           | Some (Returns more, fs'') =>
                               children rest (removed ++ more) fs''
                           end
                       end
                   end) entries [] fs
            | _ => Some (Raises (ExcOther "AttributeError"), fs)
            end
          else finish [] fs
      end
  end.

(** [selected.files] as a truth value; [None] is the [AttributeError]
    of a class without that attribute. *)
Definition files_truthy (f : File) : option bool :=
  match files f with
  | FilesDict [] => Some false
  | FilesDict _ => Some true
  | FilesMethod => Some true
  | NoFilesAttr => None
  end.

(** [BaseFile.remove(self, name, event=..., recursive=..., file=...)].
    Returns the outcome (the paths of the removed nodes), [self] as the
    call leaves it, and the filesystem. *)
Definition remove (fuel : nat) (self : File) (n : option string)
    (event : EventArg Event) (recursive : bool) (f : option File) (fs : FS)
    : option (Outcome (list string) * File * FS) :=
  if match kind self with file => true | _ => false end
  then Some (Raises (ExcOther "NotImplementedError"), self, fs)
  else
    match check self "write" event with
    | Raises ex => Some (Raises ex, self, fs)
    | Returns _ =>
        let selection : Outcome (option File * string) :=
          match f, n with
          | Some file_, _ => Returns (Some file_, name file_)
          | None, Some n' =>
              if String.eqb n' "" then Raises (ExcOther "TypeError")
              else
                match select self n' event fs with
                | Returns sel => Returns (sel, n')
                | Raises ex => Raises ex
                end
          | None, None => Raises (ExcOther "TypeError")
          end in
        match selection with
        | Raises ex => Some (Raises ex, self, fs)
        | Returns (None, _) => Some (Raises (ExcOther "AttributeError"), self, fs)
        | Returns (Some selected, n') =>
            let guard : Outcome bool :=
              if in_dir_kinds (kind selected) then
                match files_truthy selected with
                | None => Raises (ExcOther "AttributeError")
                | Some t => Returns (t && negb recursive)
                end
              else Returns false in
            match guard with
            | Raises ex => Some (Raises ex, self, fs)
            | Returns true =>
                Some (Raises (ExcError (MkError NonEmptyDirectoryError
                                          (File_str selected))), self, fs)
            | Returns false =>
                match files self with
                | FilesDict entries =>
                    match dict_get entries (name selected) with
                    | None =>
                        Some (Raises (ExcError (MkError NoFileFoundError n')),
                              self, fs)
                    | Some _ =>
                        let self1 :=
                          with_files self
                            (FilesDict (dict_pop entries (name selected))) in
                        let fs1 := update_shared fs self1 in
                        let selected1 := remove_reference selected (inode self) in
                        let fs2 := update_shared fs1 selected1 in
                        match delete fuel selected1 recursive fs2 with
                        | None => None
                        | Some (Raises ex, fs3) => Some (Raises ex, self1, fs3)
                        | Some (Returns removed, fs3) =>
                            Some (Returns (map (fun r => Path_str (path r)) removed),
                                  self1, save self1 fs3)
                        end
                    end
                | _ => Some (Raises (ExcOther "AttributeError"), self, fs)
                end
            end
        end
    end.

(** [Directory.create(self, kind, name, mode, event=...)] for the two
    durable kinds built without further arguments: a [RegularFile] with
    no content and a [Directory] with no entries.  Other kinds, and a
    [self] without a dictionary, are reported as [ExcOther "unmodelled"].
    [root.save()], which records the counters in the store, is not part
    of the model: the counters live in [FS]. *)
Definition create (self : File) (k : Kind) (n : string) (m : option Mode)
    (event : EventArg Event) (fs : FS)
    : Outcome File * File * FS :=
  match check self "write" event with
  | Raises ex => (Raises ex, self, fs)
  | Returns _ =>
      match files self, k with
      | FilesDict entries, (file | directory) =>
          match dict_get entries n with
          | Some _ => (Raises (ExcError (MkError FileExistsError n)), self, fs)
          | None =>
              let '(i, fs1) := create_inode (10000 <=? inode self)%Z fs in
              let new_file :=
                {| kind := k; name := n;
                   mode := match m with Some m' => m' | None => mode self end;
                   inode := i; path := Path_div (path self) n i;
                   refs := [inode self]; content := VNone;
                   files := match k with
                            | directory => FilesDict []
                            | _ => NoFilesAttr
                            end |} in
              let self1 := with_files self (FilesDict (dict_set entries n i)) in
              let fs2 := save new_file (save self1 (update_shared fs1 self1)) in
              (Returns new_file, self1, fs2)
          end
      | _, _ => (Raises (ExcOther "unmodelled"), self, fs)
      end
  end.

End Nodes.

End filesystem.
Export filesystem.

(* ===================================================================== *)
(** * parser/__init__.py: the retry loop of parse *)
(* ===================================================================== *)

Module parser.

(** [sub in s] *)
Definition str_contains (sub s : string) : bool :=
  match String.index 0 sub s with
  | Some _ => true
  | None => false
  end.

(** [s[:i]] and [s[i:]] with Python's reading of a negative or too large
    index. *)
Definition slice_bound (s : string) (i : Z) : nat :=
  let len := Z.of_nat (String.length s) in
  let j := if (i <? 0)%Z then Z.max 0 (len + i) else Z.min i len in
  Z.to_nat j.

Definition slice_to (s : string) (i : Z) : string :=
  String.substring 0 (slice_bound s i) s.

Definition slice_from (s : string) (i : Z) : string :=
  let k := slice_bound s i in
  String.substring k (String.length s - k) s.

(** [s.replace(old, new, 1)] *)
Definition replace_first (old new s : string) : string :=
  match String.index 0 old s with
  | Some k =>
      String.substring 0 k s +:+ new
      +:+ String.substring (k + String.length old)
           (String.length s - (k + String.length old)) s
  | None => s
  end.

(** What [bashlex.parse] answers: a tree, a [bashlex.errors.ParsingError]
    (its [str(ex)], [ex.message], [ex.s] and [ex.position]), a
    [NotImplementedError] with its text, or another [Exception]. *)
Inductive Reply (Ast : Type) :=
| ParsedTree (ast : Ast)
| ParsingFailure (msg message source : string) (position : Z)
| NotImplementedFailure (text : string)
| OtherFailure.
Arguments ParsedTree {Ast} ast.
Arguments ParsingFailure {Ast} msg message source position.
Arguments NotImplementedFailure {Ast} text.
Arguments OtherFailure {Ast}.

Section Parse.
Context {Ast : Type}.
(** The external grammar parser. *)
Variable bashlex_parse : string -> Reply Ast.

Definition ParsingError_of (message : string) : Error :=
  MkError ParsingError message.

(** The content the loop retries with after an "unexpected token"
    failure; [None] when no branch applies (the source leaves the loop
    by [break]). *)
Definition escape_retry (final_content message source : string) (position : Z)
    : option string :=
  if str_contains "'('" message then
    let replaced := slice_to source position +:+ "\(" +:+ slice_from source (position + 1) in
    Some (replace_first source replaced final_content)
  else if str_contains "')'" message then
    let replaced := slice_to source position +:+ "\)" +:+ slice_from source (position + 1) in
    Some (replace_first source replaced final_content)
  else if str_contains "(" final_content then
    Some (slice_to final_content (position - 2)
          +:+ replace_first "(" "\(" (slice_from final_content (position - 2)))
  else None.

(** [while True: ...] of [parse], entered with the messages seen so far
    in [prev].  [fuel] bounds the passes of the model, [None] is the
    answer when they are used up; [Returns None] is the [None] the
    function returns when the loop is left by [break]. *)
Fixpoint parse_loop (fuel : nat) (prev : list string) (final_content : string)
    : option (Outcome (option (Ast * string))) :=
  match fuel with
  | O => None
  | S fuel' =>
      match bashlex_parse final_content with
      | ParsedTree ast => Some (Returns (Some (ast, final_content)))
      | ParsingFailure msg message source position =>
          if existsb (String.eqb msg) prev
          then Some (Raises (ExcError (ParsingError_of msg)))
          else
            let prev := prev ++ [msg] in
            if str_contains "unexpected token" message then
              match escape_retry final_content message source position with
              | Some content1 => parse_loop fuel' prev content1
              | None => Some (Returns None)
              end
            else Some (Raises (ExcError (ParsingError_of msg)))
      | NotImplementedFailure text =>
          Some (Raises (ExcError
                  (ParsingError_of ("Unimplemented feature: " +:+ text))))
      | OtherFailure =>
          Some (Raises (ExcError (ParsingError_of "Unknown error happened")))
      end
  end.

(** The list [prev] of the loop when it stops, or after [fuel] passes:
    the messages recorded so far. *)
Fixpoint parse_seen (fuel : nat) (prev : list string) (final_content : string)
    : list string :=
  match fuel with
  | O => prev
  | S fuel' =>
      match bashlex_parse final_content with
      | ParsingFailure msg message source position =>
          if existsb (String.eqb msg) prev then prev
          else
            let prev := prev ++ [msg] in
            if str_contains "unexpected token" message then
              match escape_retry final_content message source position with
              | Some content1 => parse_seen fuel' prev content1
              | None => prev
              end
            else prev
      | _ => prev
      end
  end.

End Parse.

End parser.
Export parser.

(* ===================================================================== *)
(** * A small event and a few registered commands, to run examples *)
(* ===================================================================== *)

Module scenario.

(** An event reduced to what [EventOps] asks for, and a log of the calls
    of command bodies (the name and the input each body was given), by
    which the examples observe what ran. *)
Record SimpleEvent := mkEvent {
  ev_groups : list Ident;
  ev_object_id : Ident;
  ev_return_on_error : bool;
  ev_reserved : list string;
  ev_variables : list (string * Value);
  ev_command_args : list Value;
  ev_skip_top_priority : bool;
  ev_log : list (string * Value)
}.

Definition with_log (ev : SimpleEvent) (l : list (string * Value)) : SimpleEvent :=
  {| ev_groups := ev_groups ev; ev_object_id := ev_object_id ev;
     ev_return_on_error := ev_return_on_error ev; ev_reserved := ev_reserved ev;
     ev_variables := ev_variables ev; ev_command_args := ev_command_args ev;
     ev_skip_top_priority := ev_skip_top_priority ev; ev_log := l |}.

Definition with_variables (ev : SimpleEvent) (vs : list (string * Value))
    : SimpleEvent :=
  {| ev_groups := ev_groups ev; ev_object_id := ev_object_id ev;
     ev_return_on_error := ev_return_on_error ev; ev_reserved := ev_reserved ev;
     ev_variables := vs; ev_command_args := ev_command_args ev;
     ev_skip_top_priority := ev_skip_top_priority ev; ev_log := ev_log ev |}.

Definition with_command_args (ev : SimpleEvent) (args : list Value) : SimpleEvent :=
  {| ev_groups := ev_groups ev; ev_object_id := ev_object_id ev;
     ev_return_on_error := ev_return_on_error ev; ev_reserved := ev_reserved ev;
     ev_variables := ev_variables ev; ev_command_args := args;
     ev_skip_top_priority := ev_skip_top_priority ev; ev_log := ev_log ev |}.

(** [State.set_variable] without [export] and [edit]: reserved names are
    refused, the temporary variable is bound.  Names are strings here. *)
Definition simple_set_variable (name value : Value) (ev : SimpleEvent)
    : Outcome unit * SimpleEvent :=
  match name with
  | VStr n =>
      if existsb (String.eqb n) (ev_reserved ev)
      then (Raises (ExcError (MkError ReservedVariableError n)), ev)
      else (Returns tt,
            with_variables ev
              ((n, value)
               :: List.filter (fun kv => negb (String.eqb (fst kv) n))
                    (ev_variables ev)))
  | _ => (Raises (ExcOther "TypeError"), ev)
  end.

Definition simple_pop_variable (n : string) (ev : SimpleEvent) : SimpleEvent :=
  with_variables ev
    (List.filter (fun kv => negb (String.eqb (fst kv) n)) (ev_variables ev)).

#[global] Instance SimpleEvent_ops : EventOps SimpleEvent := {
  groups := ev_groups;
  object_id := ev_object_id;
  return_on_error := ev_return_on_error;
  set_variable := simple_set_variable;
  pop_variable := simple_pop_variable;
  command_args := ev_command_args;
  set_command_arguments := fun args ev => with_command_args ev args;
  skip_top_priority := ev_skip_top_priority
}.

(** A member of a guild, not a root user. *)
Definition member_event : SimpleEvent :=
  {| ev_groups := [IdStr "any"; IdStr "user"; IdStr "member"];
     ev_object_id := IdInt 42; ev_return_on_error := false;
     ev_reserved := ["_user"; "_guild"]; ev_variables := [];
     ev_command_args := []; ev_skip_top_priority := false; ev_log := [] |}.

Definition log_call (name : string) (stdin : Value) (ev : SimpleEvent)
    : SimpleEvent :=
  with_log ev (ev_log ev ++ [(name, stdin)]).

(** [" ".join(args)] *)
Definition join_words (args : list Value) : string :=
  String.concat " "
    (map (fun v => match v with VStr w => w | _ => "" end) args).

(** An argument parser with one list of positionals and [-h/--help]. *)
Definition positional_parser (field : string) (args : list Value)
    (ev : SimpleEvent) : Outcome Parsed * SimpleEvent :=
  let is_help v := match v with
                   | VStr w => String.eqb w "-h" || String.eqb w "--help"
                   | _ => false
                   end in
  (Returns (Namespace (existsb is_help args)
              [(field, VList (List.filter (fun v => negb (is_help v)) args))]), ev).

Definition positionals (parsed : Parsed) : list Value :=
  match parsed with
  | RawArgs args => args
  | Namespace _ ((_, VList args) :: _) => args
  | Namespace _ _ => []
  end.

Definition simple_command (name : string) (group : Ident)
    (body : SimpleEvent -> Parsed -> Value -> Outcome Value * SimpleEvent)
    : Command SimpleEvent :=
  {| packages.name := name; packages.group := group; aliases := [];
     argparser := Some (positional_parser "args");
     help_message := "usage: " +:+ name;
     function := fun ev parsed stdin => body (log_call name stdin ev) parsed stdin |}.

(** packages/base/booleans.py *)
Definition true_ : Command SimpleEvent :=
  simple_command "true" (IdStr "any") (fun ev _ _ => (Returns VNone, ev)).

Definition false_ : Command SimpleEvent :=
  simple_command "false" (IdStr "any")
    (fun ev _ _ => (Raises (ExcError (MkError FalseError "False")), ev)).

(** packages/base/simple.py: [echo] without [-e]. *)
Definition echo : Command SimpleEvent :=
  simple_command "echo" (IdStr "any")
    (fun ev parsed _ => (Returns (VStr (join_words (positionals parsed))), ev)).

(** packages/base/keywords.py *)
Definition continue_ : Command SimpleEvent :=
  simple_command "continue" (IdStr "any")
    (fun ev _ _ => (Raises (ExcError (MkError ContinueError "continue")), ev)).

Definition break_ : Command SimpleEvent :=
  simple_command "break" (IdStr "any")
    (fun ev _ _ => (Raises (ExcError (MkError BreakError "break")), ev)).

(** [raise ReturnError(" ".join(args.value) or stdin or None)] *)
Definition return_ : Command SimpleEvent :=
  simple_command "return" (IdStr "any")
    (fun ev parsed stdin =>
       let value :=
         match join_words (positionals parsed) with
         | "" => match stdin with
                 | VResult (_ :: _) _ => stdin
                 | _ => VNone
                 end
         | joined => VStr joined
         end in
       (Raises (ExcError (ReturnError value)), ev)).

(** A command that only looks at its input (the log keeps it). *)
Definition consumer : Command SimpleEvent :=
  simple_command "consumer" (IdStr "any") (fun ev _ _ => (Returns VNone, ev)).

(** A command of the group ["admin"]. *)
Definition shutdown : Command SimpleEvent :=
  simple_command "shutdown" (IdStr "admin") (fun ev _ _ => (Returns VNone, ev)).

Definition registry : list (Command SimpleEvent) :=
  [true_; false_; echo; continue_; break_; return_; consumer; shutdown].

Definition simple_get_command (name : Value) (ev : SimpleEvent)
    : Outcome (option (Command SimpleEvent)) * SimpleEvent :=
  match name with
  | VStr n => (Returns (get_command registry n), ev)
  | _ => (Raises (ExcOther "TypeError"), ev)
  end.

(** [Word.finalize] of a word without expansions: [self.word]. *)
Definition Word_literal (word : string) : finalizer (Event := SimpleEvent) :=
  fun _ ev => (Returns (VStr word), ev).

(** A command of literal words, one level below the top. *)
Definition command (words : list string) : Wrapper (Event := SimpleEvent) :=
  Node (Command_finalize simple_get_command 1
          (map (fun w => PartWord (Word_literal w)) words)).

(** [c.isspace()] for the characters of a byte string. *)
Definition is_space (c : ascii) : bool :=
  let n := nat_of_ascii c in
  ((9 <=? n) && (n <=? 13) || (28 <=? n) && (n <=? 32))%nat.

(** [s.split()]: the runs of characters between the white space. *)
Fixpoint str_split_from (s : string) (piece : string) : list string :=
  match s with
  | EmptyString => match piece with EmptyString => [] | _ => [piece] end
  | String c rest =>
      if is_space c
      then match piece with
           | EmptyString => str_split_from rest EmptyString
           | _ => piece :: str_split_from rest EmptyString
           end
      else str_split_from rest (piece +:+ String c EmptyString)
  end.

Definition str_split (s : string) : list string :=
  str_split_from s EmptyString.

(** A word that expands a variable, ["$name"]: [Parameter.finalize]
    reads [event.get_variable] ([""] when unbound), and [Word.finalize]
    puts its string in the place of the parameter and splits the word at
    white space, which gives the list of arguments.  Variables hold
    strings here. *)
Definition variable_word (n : string) : finalizer (Event := SimpleEvent) :=
  fun _ ev =>
    match List.find (fun kv => String.eqb (fst kv) n) (ev_variables ev) with
    | Some (_, VStr value) => (Returns (VList (map VStr (str_split value))), ev)
    | Some _ => (Raises (ExcOther "unmodelled"), ev)
    | None => (Returns (VList []), ev)
    end.

Definition command_with (parts : list (CommandPart (Event := SimpleEvent)))
    : Wrapper (Event := SimpleEvent) :=
  Node (Command_finalize simple_get_command 1 parts).

Definition literal (w : string) : Wrapper (Event := SimpleEvent) :=
  Node (Word_literal w).

Definition lift_result (f : SimpleEvent -> Outcome Result * SimpleEvent)
    : Wrapper (Event := SimpleEvent) := as_node f.

(** The body [echo a; break; echo b] of a loop. *)
Definition break_body : finalizer (Event := SimpleEvent) :=
  fun _ ev =>
    let '(r, ev1) :=
      List_finalize [command ["echo"; "a"]; Operator ";"; command ["break"];
                     Operator ";"; command ["echo"; "b"]] ev in
    (Returns (Result_value r), ev1).

(** [echo $x] *)
Definition echo_x : Wrapper (Event := SimpleEvent) :=
  command_with [PartWord (Word_literal "echo"); PartWord (variable_word "x")].

(** The body of
    [f() { for x in 1 2 3; do echo $x; if true; then return done; fi;
           echo unreached; done; echo after; }]:
    the grammar wraps [if] and [for] in a compound each. *)
Definition returning_function : finalizer (Event := SimpleEvent) :=
  fun _ ev =>
    match
      Compound_finalize
        [Reservedword "{";
         List_node
           [as_node (Compound_finalize
              [as_node (For_finalize
                 [Reservedword "for"; literal "x"; Reservedword "in";
                  literal "1"; literal "2"; literal "3"; Reservedword "do";
                  List_node
                    [echo_x; Operator ";";
                     as_node (Compound_finalize
                       [as_node (If_finalize
                          [Reservedword "if"; List_node [command ["true"]];
                           Reservedword "then";
                           List_node [command ["return"; "done"]];
                           Reservedword "fi"])]);
                     Operator ";"; command ["echo"; "unreached"]];
                  Reservedword "done"])]);
            Operator ";"; command ["echo"; "after"]];
         Reservedword "}"] ev
    with
    | (Returns r, ev1) => (Returns (Result_value r), ev1)
    | (Raises ex, ev1) => (Raises ex, ev1)
    end.

(** The event inside a loop over [1 2] that has just bound [x] to [1]. *)
Definition bound_event : SimpleEvent :=
  with_variables member_event [("x", VStr "1")].

(** A stand-in for the grammar parser: it refuses the first ["("] that
    no backslash precedes, always with the same message, and accepts
    everything else. *)
Fixpoint unescaped_paren (s : string) (escaped : bool) (position : Z) : option Z :=
  match s with
  | EmptyString => None
  | String c rest =>
      if Ascii.eqb c "(" && negb escaped then Some position
      else unescaped_paren rest (Ascii.eqb c "\") (position + 1)
  end.

Definition toy_parse (content : string) : Reply string :=
  match unescaped_paren content false 0 with
  | Some position =>
      ParsingFailure "unexpected token '('" "unexpected token '('" content position
  | None => ParsedTree content
  end.

(** A public directory [/top] on an otherwise empty store. *)
Definition top : File :=
  {| kind := directory; filesystem.name := "top";
     mode := {| value := 509; owner := IdInt 42; permissions.group := IdInt 42 |};
     inode := 10000; path := Path_new [""; "top"] [1; 10000]%Z; refs := [1%Z];
     content := VNone; files := FilesDict [] |}.

Definition top_only : FS :=
  {| defaults := []; db := {[ 10000%Z := top ]}; free_inodes_list := [];
     next_public_inode := 10001; next_private_inode := 2 |}.

(** [/top/sub] and then [/top/sub/a], made by [Directory.create]. *)
Definition with_sub : Outcome File * File * FS :=
  create top directory "sub" None (EventTrue (Event := SimpleEvent)) top_only.

Definition sub : File :=
  match with_sub with
  | (Returns f, _, _) => f
  | _ => top
  end.

Definition with_a : Outcome File * File * FS :=
  create sub file "a" None (EventTrue (Event := SimpleEvent)) (snd with_sub).

(** [/top] and the filesystem once both nodes exist. *)
Definition top_with_sub : File := snd (fst with_sub).
Definition sub_with_a : File := snd (fst with_a).
Definition populated : FS := snd with_a.

End scenario.

(* ===================================================================== *)
(** * parser/processing.py: Processor.finalize *)
(* ===================================================================== *)

Module processing.

Section Processor.
Context {Event : Type}.



End Processor.

End processing.
Export processing.

(* ===================================================================== *)
(** * models/event.py: Event.groups *)
(* ===================================================================== *)

Module event_groups.

(** What [groups] reads of a [discord.Member]: the ids of its roles,
    [guild_permissions.administrator], and whether [guild.owner == user]. *)
Record Member := mkMember {
  member_roles : list Z;
  member_administrator : bool;
  member_owner : bool
}.

(** What [groups] reads of the user of an event: its id, whether it is a
    bot, and the member when [type(user) is discord.Member]. *)
Record User := mkUser {
  user_id : Z;
  user_bot : bool;
  user_member : option Member
}.

(** A guild of [client.guilds]: its id and, for the ids [get_member]
    finds, [guild_permissions.administrator] of the member. *)
Record Guild := mkGuild {
  guild_id : Z;
  guild_members : list (Z * bool)
}.

(** [g.get_member(id)], as the administrator flag of the member. *)
Definition get_member (g : Guild) (id : Z) : option bool :=
  match List.find (fun m => Z.eqb (fst m) id) (guild_members g) with
  | Some m => Some (snd m)
  | None => None
  end.

(** What [groups] reads of an event: the guild (its id), the user, the
    ids listed in [client.config.root], the [moderators] entry of the
    guild state's config, and [client.guilds]. *)
Record EventContext := mkContext {
  ctx_guild : option Z;
  ctx_user : option User;
  ctx_root : list Z;
  ctx_moderators : option (list Z);
  ctx_guilds : list Guild
}.

(** [moderators and any(role.id in moderators for role in user_roles)
    or user.guild_permissions.administrator] *)
Definition is_moderator (e : EventContext) (u : User) (m : Member) : bool :=
  match ctx_moderators e with
  | Some (moderator :: moderators) =>
      existsb (fun role => existsb (Z.eqb role) (moderator :: moderators))
        (user_id u :: member_roles m)
  | _ => false
  end
  || member_administrator m.

(** The ids the last loop yields: the other guilds of the client where
    the user is an administrator. *)
Definition administrated_elsewhere (e : EventContext) (g : Z) (u : User)
    : list Ident :=
  flat_map
    (fun other =>
       if Z.eqb (guild_id other) g then []
       else match get_member other (user_id u) with
            | Some true => [IdInt (guild_id other)]
            | _ => []
            end)
    (ctx_guilds e).

(** [list(event.groups())] *)
Definition Event_groups (e : EventContext) : list Ident :=
  [IdStr "any"]
  ++ match ctx_guild e, ctx_user e with
     | Some g, None => [IdInt g; IdStr "guild"; IdStr "moderator"; IdStr "admin"]
     | _, _ => []
     end
  ++ match ctx_user e with
     | None => []
     | Some u =>
         (if existsb (Z.eqb (user_id u)) (ctx_root e) then [IdStr "root"] else [])
         ++ (if user_bot u then [IdStr "bot"] else [])
         ++ [IdStr "user"]
         ++ match ctx_guild e, user_member u with
            | Some g, Some m =>
                [IdStr "member"]
                ++ map IdInt (user_id u :: member_roles m)
                ++ (if member_administrator m
                    then [IdInt g; IdStr "admin"] else [])
                ++ (if member_owner m then [IdStr "owner"] else [])
                ++ (if is_moderator e u m then [IdStr "moderator"] else [])
                ++ administrated_elsewhere e g u
            | _, _ => [IdInt (user_id u)]
            end
     end.

End event_groups.
Export event_groups.

(* ===================================================================== *)
(** * models/state.py: variables of a state *)
(* ===================================================================== *)

Module state.

Section Dict.
Context {A : Type}.

(** A dictionary with string keys, in insertion order. *)
Definition lookup (d : list (string * A)) (key : string) : option A :=
  match List.find (fun kv => String.eqb (fst kv) key) d with
  | Some kv => Some (snd kv)
  | None => None
  end.

(** [d[key] = v] *)
Fixpoint store (d : list (string * A)) (key : string) (v : A)
    : list (string * A) :=
  match d with
  | [] => [(key, v)]
  | (k, w) :: rest =>
      if String.eqb k key then (k, v) :: rest else (k, w) :: store rest key v
  end.

(** [d.pop(key)], the dictionary it leaves. *)
Definition discard (d : list (string * A)) (key : string) : list (string * A) :=
  List.filter (fun kv => negb (String.eqb (fst kv) key)) d.

End Dict.

(** The values of [special_variables]: the lambdas that read the
    arguments ([_args], [@]), a lambda on the event (here with the value
    it has on the current event), or a plain value ([_user], [_guild]). *)
Inductive Special :=
| SpecialArgs
| SpecialAt
| SpecialLambda (value : Value)
| SpecialValue (value : Value).

(** What [set_variable], [get_variable] and [pop_variable] read and
    write: [event.objects_cli], the state's [special_variables],
    [exported_variables] and [command_args], and the event's
    [temporary_variables]. *)
Record State := mkState {
  objects_cli : list (string * Value);
  special_variables : list (string * Special);
  exported_variables : list (string * Value);
  temporary_variables : list (string * Value);
  command_args : list Value
}.

(** What a key of [State.variables(event)] is bound to:
    [objects_cli | special_variables | exported_variables |
    temporary_variables], the later dictionaries winning. *)
Inductive Binding :=
| BoundValue (v : Value)
| BoundSpecial (s : Special).

Definition variables (st : State) (name : string) : option Binding :=
  match lookup (temporary_variables st) name with
  | Some v => Some (BoundValue v)
  | None =>
      match lookup (exported_variables st) name with
      | Some v => Some (BoundValue v)
      | None =>
          match lookup (special_variables st) name with
          | Some s => Some (BoundSpecial s)
          | None =>
              match lookup (objects_cli st) name with
              | Some v => Some (BoundValue v)
              | None => None
              end
          end
      end
  end.

(** [name in event.objects_cli | self.special_variables] *)
Definition is_reserved (st : State) (name : string) : bool :=
  match lookup (objects_cli st) name, lookup (special_variables st) name with
  | None, None => false
  | _, _ => true
  end.

(** [args[i]] on a tuple, with Python's reading of a negative index;
    [None] is the [IndexError]. *)
Definition tuple_index (args : list Value) (i : Z) : option Value :=
  let len := Z.of_nat (List.length args) in
  if (0 <=? i)%Z then nth_error args (Z.to_nat i)
  else if (0 <=? len + i)%Z then nth_error args (Z.to_nat (len + i))
  else None.

(** [variable_dict[name] = v], where [variable_dict] is
    [exported_variables] with [export] and [temporary_variables]
    without. *)
Definition assign (st : State) (export : bool) (name : string) (v : Value)
    : State :=
  if export
  then {| objects_cli := objects_cli st;
          special_variables := special_variables st;
          exported_variables := store (exported_variables st) name v;
          temporary_variables := temporary_variables st;
          command_args := command_args st |}
  else {| objects_cli := objects_cli st;
          special_variables := special_variables st;
          exported_variables := exported_variables st;
          temporary_variables := store (temporary_variables st) name v;
          command_args := command_args st |}.

(** [variable_dict.pop(name)], the state it leaves. *)
Definition unassign (st : State) (export : bool) (name : string) : State :=
  if export
  then {| objects_cli := objects_cli st;
          special_variables := special_variables st;
          exported_variables := discard (exported_variables st) name;
          temporary_variables := temporary_variables st;
          command_args := command_args st |}
  else {| objects_cli := objects_cli st;
          special_variables := special_variables st;
          exported_variables := exported_variables st;
          temporary_variables := discard (temporary_variables st) name;
          command_args := command_args st |}.

(** What [set_variable] raises: [ReservedVariableError(name)] or
    [UndefinedVariableError(name)]. *)
Inductive VariableError :=
| ReservedVariable (name : string)
| UndefinedVariable (name : string).

Section Variables.
(** Python's [int(name)] on a string: [None] is the [ValueError]. *)
Variable int_of_string : string -> option Z.

(** [State.set_variable(event, name, value, export, edit)]; [edit] is
    the function of [+=] when there is one. *)
Definition set_variable (st : State) (name : string) (value : Value)
    (export : bool) (edit : option (Value -> Value -> Value))
    : (VariableError + Value) * State :=
  if is_reserved st name
  then (inl (ReservedVariable name), st)
  else
    let edited : option Value :=
      match edit with
      | None => Some value
      | Some f =>
          match variables st name with
          | Some (BoundValue VNone) | None => None
          | Some (BoundValue previous) => Some (f previous value)
          | Some (BoundSpecial _) => None (* a reserved name: not reached *)
          end
      end in
    match edited with
    | None => (inl (UndefinedVariable name), st)
    | Some v => (inr v, assign st export name v)
    end.

(** [" ".join(self.command_args[1:])] *)
Definition join_arguments (args : list Value) : string :=
  String.concat " "
    (map (fun v => match v with VStr w => w | _ => "" end) (tl args)).

(** [State.get_variable(event, name)] *)
Definition get_variable (st : State) (name : string) : Value :=
  let positional : Value :=
    match int_of_string name with
    | Some i => match tuple_index (command_args st) i with
                | Some v => v
                | None => VNone
                end
    | None => VNone
    end in
  let variable : Value :=
    match variables st name with
    | Some (BoundSpecial SpecialArgs) => VList (command_args st)
    | Some (BoundSpecial SpecialAt) => VStr (join_arguments (command_args st))
    | Some (BoundSpecial (SpecialLambda v)) => v
    | Some (BoundSpecial (SpecialValue VNone)) | Some (BoundValue VNone) | None =>
        positional
    | Some (BoundSpecial (SpecialValue v)) | Some (BoundValue v) => v
    end in
  match variable with
  | VNone => VStr ""
  | v => v
  end.

(** [not v]: [None], [False], [0], empty strings and sequences, and
    every [BaseError] (its [__bool__] returns [False]). *)
Definition is_falsy (v : Value) : bool :=
  match v with
  | VNone | VBool false | VInt 0 | VStr "" | VList [] | VResult [] _ | VErr _ => true
  | _ => false
  end.

(** [State.pop_variable(event, name, export)]: what it returns
    ([variable_dict.pop(name) or ""]) and the state it leaves. *)
Definition pop_variable (st : State) (name : string) (export : bool)
    : Value * State :=
  let d := if export then exported_variables st else temporary_variables st in
  let returned : Value :=
    match lookup d name with
    | Some v => if is_falsy v then VStr "" else v
    | None => VStr ""
    end in
  (returned, unassign st export name).

End Variables.

(** Neither dictionary of variables holds a reserved name. *)
Definition no_reserved_bound (st : State) : Prop :=
  forall name, is_reserved st name = true ->
    lookup (exported_variables st) name = None
    /\ lookup (temporary_variables st) name = None.

End state.

(* ===================================================================== *)
(** * structure/data.py: get_path *)
(* ===================================================================== *)

Module paths.

(** [split_path]: the pieces between the slashes that no backslash
    precedes ([regex.compile(r"(?<!\\)/").split]). *)
Fixpoint split_path_from (s : string) (escaped : bool) (piece : string)
    : list string :=
  match s with
  | "" => [piece]
  | String c rest =>
      if Ascii.eqb c "/" && negb escaped
      then piece :: split_path_from rest false ""
      else split_path_from rest (Ascii.eqb c "\") (piece +:+ String c "")
  end.

Definition split_path (path : string) : list string :=
  split_path_from path false "".

(** A name that [select] looks up among the files of a directory: not
    one of the names with a meaning of their own. *)
Definition plain_name (n : string) : bool :=
  negb (String.eqb n "" || String.eqb n "." || String.eqb n ".."
        || String.eqb n "/" || String.prefix "~" n || String.prefix "%" n).

(** The variables of the loop of [get_path]: [first], [current] and
    [new].  [first] and [current] may be one object: [current_is_first]
    says so, and what [create] changes on [current] is then changed on
    [first]. *)
Record Walk := mkWalk {
  first : File;
  current : File;
  new : File;
  current_is_first : bool
}.

Section GetPath.
Context {Event : Type} `{EventOps Event}.

(** The end of one pass: the [execute] check on a directory, and the
    choice of the next [current]. *)
Definition enter (w : Walk) (selected : File) (event : EventArg Event)
    (fs : FS) : Outcome Walk * FS :=
  let next :=
    if negb (Z.eqb (inode selected) 0)
       && Z.eqb (inode (first w)) (inode selected)
    then {| first := first w; current := first w; new := selected;
            current_is_first := true |}
    else {| first := first w; current := selected; new := selected;
            current_is_first := false |} in
  if in_dir_kinds (kind selected) then
    match check selected "execute" event with
    | Raises ex => (Raises ex, fs)
    | Returns _ => (Returns next, fs)
    end
  else (Returns next, fs).

(** The handler of [NoFileFoundError]: with [create] the missing part is
    created, a file when it is the last part and no directory is asked
    for, else a directory; without, the error is raised again. *)
Definition missing (w : Walk) (part : string) (is_last : bool) (ex : Error)
    (event : EventArg Event) (directory : option bool) (create_ : bool)
    (fs : FS) : Outcome Walk * FS :=
  if create_ then
    let k :=
      if is_last && negb (match directory with Some true => true | _ => false end)
      then file else filesystem.directory in
    match create (current w) k part None event fs with
    | (Returns created, self1, fs1) =>
        enter {| first := if current_is_first w then self1 else first w;
                 current := self1; new := new w;
                 current_is_first := current_is_first w |}
          created event fs1
    | (Raises ex1, _, fs1) => (Raises ex1, fs1)
    end
  else (Raises (ExcError ex), fs).

(** The loop of [get_path] over the parts. *)
Fixpoint get_path_loop (parts : list string) (w : Walk)
    (event : EventArg Event) (directory : option bool)
    (create_ last_name : bool) (fs : FS) : Outcome Walk * FS :=
  match parts with
  | [] => (Returns w, fs)
  | part :: rest =>
      let is_last := match rest with [] => true | _ => false end in
      if is_last && last_name
      then get_path_loop rest w event directory create_ last_name fs
      else if String.eqb part "" || String.eqb part "."
      then get_path_loop rest w event directory create_ last_name fs
      else
        let entered :=
          match select (current w) part event fs with
          | Returns (Some selected) => enter w selected event fs
          | Returns None =>
              missing w part is_last (MkError NoFileFoundError part)
                event directory create_ fs
          | Raises (ExcOther "NotImplementedError") =>
              (Raises (ExcError (MkError NotADirectoryError
                                   (File_str (current w)))), fs)
          | Raises (ExcError (MkError NoFileFoundError text)) =>
              missing w part is_last (MkError NoFileFoundError text)
                event directory create_ fs
          | Raises ex => (Raises ex, fs)
          end in
        match entered with
        | (Returns w1, fs1) =>
            get_path_loop rest w1 event directory create_ last_name fs1
        | (Raises ex, fs1) => (Raises ex, fs1)
        end
  end.

(** [get_path(path, current=..., event=..., directory=..., create=...,
    last_name=...)]: the node, with the last part when [last_name] is
    set, and the filesystem it leaves. *)
Definition get_path (path : string) (current_ : File)
    (event : EventArg Event) (directory : option bool)
    (create_ last_name : bool) (fs : FS)
    : Outcome (File * option string) * FS :=
  let parts :=
    match split_path path with
    | "" :: rest => "/" :: rest
    | parts => parts
    end in
  match get_path_loop parts
          {| first := current_; current := current_; new := current_;
             current_is_first := true |}
          event directory create_ last_name fs with
  | (Raises ex, fs1) => (Raises ex, fs1)
  | (Returns w, fs1) =>
      let refused : option ErrorClass :=
        if in_dir_kinds (kind (current w))
        then match directory with
             | Some false => Some NotAFileError
             | _ => None
             end
        else match directory with
             | Some true => Some NotADirectoryError
             | _ => None
             end in
      match refused with
      | Some cls => (Raises (ExcError (MkError cls (File_str (new w)))), fs1)
      | None =>
          (Returns (current w,
                    if last_name then Some (List.last parts "") else None),
           fs1)
      end
  end.

End GetPath.
End paths.

(* ===================================================================== *)
(** * structure/filesystem.py: RegularFile.write *)
(* ===================================================================== *)

Module regular_file.


(** [len(v)]; [None] is the [TypeError] of a value without a length. *)
Definition len (v : Value) : option Z :=
  match v with
  | VStr s => Some (Z.of_nat (String.length s))
  | VList l | VResult l _ => Some (Z.of_nat (List.length l))
  | _ => None
  end.






Section Write.
Context {Event : Type} `{EventOps Event}.


End Write.
End regular_file.

(* ===================================================================== *)
(** * A state with a few variables, and events of a guild, for examples *)
(* ===================================================================== *)

Module examples.

(** A state after [set_command_arguments("cli", "a", "b")], with the
    special variables of a user's state, one exported variable and a
    temporary one of the same name. *)
Definition shell_state : state.State :=
  {| state.objects_cli := [("_message", VInt 900)];
     state.special_variables :=
       [("_args", state.SpecialArgs); ("@", state.SpecialAt);
        ("_user", state.SpecialValue (VInt 7))];
     state.exported_variables := [("greeting", VStr "hello")];
     state.temporary_variables := [("greeting", VStr "hi")];
     state.command_args := [VStr "cli"; VStr "a"; VStr "b"] |}.

(** Python's [int] on the names the examples read. *)
Definition int_of_small (name : string) : option Z :=
  if String.eqb name "0" then Some 0%Z
  else if String.eqb name "1" then Some 1%Z
  else if String.eqb name "2" then Some 2%Z
  else if String.eqb name "-1" then Some (-1)%Z
  else if String.eqb name "-2" then Some (-2)%Z
  else None.

(** An administrator of guild 500, met in that guild. *)
Definition administrator_context : EventContext :=
  {| ctx_guild := Some 500%Z;
     ctx_user := Some {| user_id := 7; user_bot := false;
                         user_member := Some {| member_roles := [500%Z; 61%Z];
                                                member_administrator := true;
                                                member_owner := false |} |};
     ctx_root := [1%Z];
     ctx_moderators := None;
     ctx_guilds := [ {| guild_id := 500; guild_members := [(7%Z, true)] |};
                     {| guild_id := 501; guild_members := [(7%Z, true)] |} ] |}.

(** The event of that administrator. *)
Definition administrator_event : scenario.SimpleEvent :=
  {| scenario.ev_groups := Event_groups administrator_context;
     scenario.ev_object_id := IdInt 7;
     scenario.ev_return_on_error := false;
     scenario.ev_reserved := ["_user"; "_guild"];
     scenario.ev_variables := [];
     scenario.ev_command_args := [];
     scenario.ev_skip_top_priority := false;
     scenario.ev_log := [] |}.

(** [for x in 1 2; do { echo a; break; }; echo b; done]: the [break] sits
    in a brace group of the body. *)
Definition brace_break_loop : list (Wrapper (Event := scenario.SimpleEvent)) :=
  [Reservedword "for"; scenario.literal "x"; Reservedword "in";
   scenario.literal "1"; scenario.literal "2"; Reservedword ";";
   Reservedword "do";
   List_node
     [as_node (Compound_finalize
        [Reservedword "{";
         List_node [scenario.command ["echo"; "a"]; Operator ";";
                    scenario.command ["break"]; Operator ";"];
         Reservedword "}"]);
      Operator ";"; scenario.command ["echo"; "b"]; Operator ";"];
   Reservedword "done"].

(** [for x in 1 2; do echo a; break; echo b; done]: the same body
    without the braces. *)
Definition plain_break_loop : list (Wrapper (Event := scenario.SimpleEvent)) :=
  [Reservedword "for"; scenario.literal "x"; Reservedword "in";
   scenario.literal "1"; scenario.literal "2"; Reservedword ";";
   Reservedword "do";
   List_node
     [scenario.command ["echo"; "a"]; Operator ";";
      scenario.command ["break"]; Operator ";";
      scenario.command ["echo"; "b"]; Operator ";"];
   Reservedword "done"].

(** [while true; do { echo a; break; }; echo b; done] *)
Definition brace_break_while : list (Wrapper (Event := scenario.SimpleEvent)) :=
  [Reservedword "while"; List_node [scenario.command ["true"]; Operator ";"];
   Reservedword "do";
   List_node
     [as_node (Compound_finalize
        [Reservedword "{";
         List_node [scenario.command ["echo"; "a"]; Operator ";";
                    scenario.command ["break"]; Operator ";"];
         Reservedword "}"]);
      Operator ";"; scenario.command ["echo"; "b"]; Operator ";"];
   Reservedword "done"].

(** The body of [f() { { echo a; return x; }; echo after; }]. *)
Definition brace_return_function : finalizer (Event := scenario.SimpleEvent) :=
  fun _ ev =>
    match
      Compound_finalize
        [Reservedword "{";
         List_node
           [as_node (Compound_finalize
              [Reservedword "{";
               List_node [scenario.command ["echo"; "a"]; Operator ";";
                          scenario.command ["return"; "x"]; Operator ";"];
               Reservedword "}"]);
            Operator ";"; scenario.command ["echo"; "after"]; Operator ";"];
         Reservedword "}"] ev
    with
    | (Returns r, ev1) => (Returns (Result_value r), ev1)
    | (Raises ex, ev1) => (Raises ex, ev1)
    end.

(** A stand-in for a grammar parser that knows no parentheses: it
    refuses the first ["("] of the content, escaped or not, and its
    message names the position, as [str(ex)] of the grammar parser
    does. *)
Fixpoint first_paren (s : string) (position : Z) : option Z :=
  match s with
  | EmptyString => None
  | String c rest =>
      if Ascii.eqb c "(" then Some position
      else first_paren rest (position + 1)
  end.

Definition refusal (position : Z) : string :=
  "unexpected token '(' (position " +:+ pretty position +:+ ")".

Definition refusing_parse (content : string) : Reply string :=
  match first_paren content 0 with
  | Some position =>
      ParsingFailure (refusal position) "unexpected token '('" content position
  | None => ParsedTree content
  end.

(** The root directory, kept in memory, over the stored [/top]. *)
Definition root : File :=
  {| kind := rootfs; filesystem.name := "";
     mode := {| value := 509; owner := IdStr "root";
                permissions.group := IdStr "root" |};
     inode := 1; path := Path_new [] []; refs := [];
     content := VNone; files := FilesDict [("top", 10000%Z)] |}.

Definition rooted : FS :=
  {| defaults := [root]; db := db scenario.populated;
     free_inodes_list := free_inodes_list scenario.populated;
     next_public_inode := next_public_inode scenario.populated;
     next_private_inode := next_private_inode scenario.populated |}.



End examples.

(* ===================================================================== *)
(** * Theorems *)
(* ===================================================================== *)


(** ** Result.append and Result.insert *)

Section Result_facts.

Lemma append_elements (l : list Value) :
  Forall append_spec l ->
  forall self,
    data (fold_left (fun s element => append s element true) l self)
    = data self ++ flat_map flatten l /\
    last (fold_left (fun s element => append s element true) l self)
    = last self.
Proof.
  induction 1 as [|x xs Hx _ IH]; intros self; simpl.
  - by rewrite app_nil_r.
  - destruct (Hx self true) as [Hd Hl].
    destruct (IH (append self x true)) as [Hd' Hl'].
    rewrite Hd', Hl', Hd, Hl, <- app_assoc. done.
Qed.

Lemma append_flatten (v : Value) : append_spec v.
Proof.
  induction v as [| | | |l IH|d lst IH|] using Value_nested_ind;
    intros self inside; simpl;
    try (destruct inside; simpl; rewrite ?app_nil_r; done).
  - destruct (append_elements l IH self) as [Hd Hl].
    destruct inside; simpl; rewrite ?Hd, ?Hl; done.
  - destruct (append_elements d IH self) as [Hd Hl].
    destruct inside; simpl; rewrite ?Hd, ?Hl; done.
Qed.

Lemma insert_elements (l : list Value) :
  Forall insert_spec l ->
  forall self,
    data (fold_right (fun element s => insert s element true) self l)
    = flat_map flatten l ++ data self /\
    last (fold_right (fun element s => insert s element true) self l)
    = last self.
Proof.
  induction 1 as [|x xs Hx _ IH]; intros self; simpl; [done|].
  destruct (IH self) as [Hd Hl].
  destruct (Hx (fold_right (fun element s => insert s element true) self xs) true)
    as [Hd' Hl'].
  rewrite Hd', Hl', Hd, Hl, <- app_assoc. done.
Qed.

Lemma insert_flatten (v : Value) : insert_spec v.
Proof.
  induction v as [| | | |l IH|d lst IH|] using Value_nested_ind;
    intros self inside; simpl;
    try (destruct inside; simpl; done).
  - destruct (insert_elements l IH self) as [Hd Hl].
    destruct inside; simpl; rewrite ?Hd, ?Hl; done.
  - destruct (insert_elements d IH self) as [Hd Hl].
    destruct inside; simpl; rewrite ?Hd, ?Hl; done.
Qed.

(** The loop of [insert] as the source writes it: over [object[::-1]],
    first element first. *)
Lemma insert_reversed (self : Result) (l : list Value) (inside : bool) :
  insert self (VList l) inside =
  let self' := fold_left (fun s element => insert s element true) (rev l) self in
  if inside then self' else {| data := data self'; last := VList l |}.
Proof.
  cbn [insert]. cbv zeta.
  rewrite <- (fold_left_rev_right (fun element s => insert s element true)).
  by rewrite rev_involutive.
Qed.

Lemma flatten_atoms (v : Value) : forallb is_atom (flatten v) = true.
Proof.
  induction v as [| | | |l IH|d lst IH|] using Value_nested_ind; simpl; try done.
  - induction IH as [|x xs Hx _ IHxs]; simpl; [done|].
    rewrite forallb_app, Hx, IHxs. done.
  - induction IH as [|x xs Hx _ IHxs]; simpl; [done|].
    rewrite forallb_app, Hx, IHxs. done.
Qed.

(** Data made of atoms is appended as it is. *)
Lemma flat_map_flatten_atoms (l : list Value) :
  forallb is_atom l = true -> flat_map flatten l = l.
Proof.
  induction l as [|x xs IH]; simpl; [done|].
  intros [Hx Hxs]%andb_prop. rewrite (IH Hxs).
  destruct x; simpl in *; done.
Qed.

End Result_facts.

(** C1, as stated, fails: appending the list [[["a"], "b"]] to an empty
    Result leaves ["a"; "b"] in it, not the one-level splice
    [["a"]; "b"]; and appending [None] appends nothing. *)
Lemma Result_one_level_counterexample :
  data (append Result_new (VList [VList [VStr "a"]; VStr "b"]) false)
  = [VStr "a"; VStr "b"]
  /\ data (append Result_new (VList [VList [VStr "a"]; VStr "b"]) false)
     <> data Result_new ++ splice_one_level (VList [VList [VStr "a"]; VStr "b"])
  /\ data (insert Result_new (VList [VList [VStr "a"]; VStr "b"]) false)
     <> splice_one_level (VList [VList [VStr "a"]; VStr "b"]) ++ data Result_new
  /\ data (append Result_new VNone false) <> data Result_new ++ [VNone].
Proof. repeat split; vm_compute; congruence. Qed.

(** C1, amended: appending (prepending) a value [v] to a Result splices
    after (before) its data the elements of [v] with every level of
    lists and Results opened and [None] dropped, so that nothing nested
    is left; and [last] is [v] itself. *)
Theorem Result_append_insert_flatten (r : Result) (v : Value) :
  data (append r v false) = data r ++ flatten v
  /\ last (append r v false) = v
  /\ data (insert r v false) = flatten v ++ data r
  /\ last (insert r v false) = v
  /\ forallb is_atom (flatten v) = true
  /\ flatten v = (if is_sequence v
                  then flat_map flatten (splice_one_level v)
                  else if is_atom v then [v] else []).
Proof.
  destruct (append_flatten v r false) as [Ha Hla].
  destruct (insert_flatten v r false) as [Hi Hli].
  repeat split; try done.
  - apply flatten_atoms.
  - destruct v; done.
Qed.

(** ** List and Operator *)

Section List_facts.
Context {Event : Type} `{EventOps Event}.




End List_facts.



(** ** Pipeline *)

Section Pipeline_facts.
Context {Event : Type}.

(** A Result whose data holds atoms only is popped as it is. *)
Lemma pop_atoms (result : Result) :
  forallb is_atom (data result) = true ->
  pop result = ({| data := data result; last := VNone |},
                {| data := []; last := last result |}).
Proof.
  intros Hatoms. unfold pop, Result_init.
  destruct (data result) as [|x xs] eqn:Hd; [done|].
  destruct (append_flatten (VList (x :: xs)) Result_new false) as [Ha _].
  rewrite Ha. cbn [flatten data Result_new app].
  by rewrite (flat_map_flatten_atoms _ Hatoms).
Qed.

(** The accumulator of a pipeline never holds anything but atoms. *)
Lemma lshift_atoms (result : Result) (v : Value) :
  forallb is_atom (data result) = true ->
  forallb is_atom (data (lshift result v)) = true.
Proof.
  intros Hatoms. unfold lshift.
  destruct (append_flatten v result false) as [Ha _].
  rewrite Ha, forallb_app, Hatoms, flatten_atoms. done.
Qed.

End Pipeline_facts.

(** C6: in a pipeline, the stage after a pipe marker is given as input
    exactly the Result drained from the accumulator (its data, which the
    accumulator no longer holds afterwards), a stage with no pipe before
    it is given [None]; the accumulator holds atoms only at every stage;
    and the consumer of [echo a | consumer] sees the input ["a"]. *)
Theorem Pipeline_stage_input {Event : Type} (stage : finalizer)
    (rest : list Wrapper) (pipe : bool) (result : Result) (event : Event)
    (Hatoms : forallb is_atom (data result) = true) :
  Pipeline_loop (Pipe :: Node stage :: rest) pipe result event =
    match stage (VResult (data result) VNone) event with
    | (Returns v, event1) =>
        let result1 := lshift {| data := []; last := last result |} v in
        match last_keyword_error result1 with
        | Some ex => (Raises (ExcError ex), event1)
        | None => Pipeline_loop rest false result1 event1
        end
    | (Raises ex, event1) => (Raises ex, event1)
    end
  /\ Pipeline_loop (Node stage :: rest) false result event =
    match stage VNone event with
    | (Returns v, event1) =>
        let result1 := lshift result v in
        match last_keyword_error result1 with
        | Some ex => (Raises (ExcError ex), event1)
        | None => Pipeline_loop rest false result1 event1
        end
    | (Raises ex, event1) => (Raises ex, event1)
    end
  /\ (forall v, forallb is_atom (data (lshift result v)) = true
                /\ forallb is_atom
                     (data (lshift {| data := []; last := last result |} v)) = true)
  /\ (let '(outcome, event1) :=
        Pipeline_finalize
          [scenario.command ["echo"; "a"]; Pipe; scenario.command ["consumer"]]
          scenario.member_event in
      scenario.ev_log event1
      = [("echo", VNone); ("consumer", VResult [VStr "a"] VNone)]).
Proof.
  split.
  { cbn [Pipeline_loop call_finalize]. rewrite (pop_atoms _ Hatoms). simpl.
    destruct (stage _ event) as [[v|ex] event1]; done. }
  split.
  { cbn [Pipeline_loop call_finalize].
    destruct (stage _ event) as [[v|ex] event1]; done. }
  split.
  { intros v. split; [by apply lshift_atoms|]. by apply lshift_atoms. }
  vm_compute. done.
Qed.

(** The stage after the pipe, on an accumulator that holds ["a"]. *)
Lemma Pipeline_stage_input_witness :
  forallb is_atom (data {| data := [VStr "a"]; last := VNone |}) = true
  /\ Pipeline_loop
       [Pipe; scenario.command ["consumer"]] false
       {| data := [VStr "a"]; last := VNone |} scenario.member_event
     = (Returns {| data := []; last := VResult [] VNone |},
        scenario.log_call "consumer" (VResult [VStr "a"] VNone)
          scenario.member_event).
Proof.
  split; [reflexivity|].
  unfold scenario.command.
  rewrite (proj1 (Pipeline_stage_input _ [] false
                    {| data := [VStr "a"]; last := VNone |}
                    scenario.member_event eq_refl)).
  reflexivity.
Defined.

(** ** Command dispatch *)

(** C8: [unsafe_execute] tests the caller's groups first: when they hold
    neither the command's group nor ["root"], it raises the permission
    error and leaves the event as it was, whatever the argument parser
    and the body of the command are; otherwise it goes on with the
    parser and the body. *)
Theorem unsafe_execute_group_check_first {Event : Type} `{EventOps Event}
    (cls : Command Event) (event : Event) (parsed : list Value) (stdin : Value) :
  group_denied cls event
  = negb (Ident_in (packages.group cls) (groups event)
          || Ident_in (IdStr "root") (groups event))
  /\ (group_denied cls event = true ->
      unsafe_execute cls event parsed stdin
      = (Raises (ExcError (MkError CommandPermissionError (packages.name cls))),
         event)
      /\ forall parse_args body,
          unsafe_execute
            {| packages.name := packages.name cls;
               packages.group := packages.group cls;
               aliases := aliases cls; argparser := parse_args;
               help_message := help_message cls; function := body |}
            event parsed stdin
          = unsafe_execute cls event parsed stdin)
  /\ (group_denied cls event = false ->
      unsafe_execute cls event parsed stdin =
      match argparser cls with
      | Some parse_args =>
          match parse_args parsed event with
          | (Returns (Namespace true fields), event1) =>
              (Returns (VStr (help_message cls)), event1)
          | (Returns ns, event1) => function cls event1 ns stdin
          | (Raises (ExcOther "ArgumentError"), event1) =>
              (Raises (ExcError (MkError ArgparseError (packages.name cls))), event1)
          | (Raises ex, event1) => (Raises ex, event1)
          end
      | None => function cls event (RawArgs parsed) stdin
      end).
Proof.
  split.
  { unfold group_denied. by rewrite negb_orb. }
  split.
  - intros Hdenied. unfold unsafe_execute. rewrite Hdenied. split; [done|].
    intros parse_args body. unfold group_denied in *. simpl. by rewrite Hdenied.
  - intros Hallowed. unfold unsafe_execute. rewrite Hallowed.
    destruct (argparser cls) as [parse_args|]; [|done].
    destruct (parse_args parsed event) as [[[args|[] fields]|ex] event1]; done.
Qed.

(** A member without the group ["admin"] calls [shutdown], then [echo]. *)
Lemma unsafe_execute_group_check_first_witness :
  group_denied scenario.shutdown scenario.member_event = true
  /\ unsafe_execute scenario.shutdown scenario.member_event [VStr "now"] VNone
     = (Raises (ExcError (MkError CommandPermissionError "shutdown")),
        scenario.member_event)
  /\ group_denied scenario.echo scenario.member_event = false
  /\ unsafe_execute scenario.echo scenario.member_event [VStr "a"] VNone
     = (Returns (VStr "a"),
        scenario.log_call "echo" VNone scenario.member_event).
Proof.
  split; [reflexivity|]. split.
  - exact (proj1 (proj1 (proj2 (unsafe_execute_group_check_first
             scenario.shutdown scenario.member_event [VStr "now"] VNone))
             eq_refl)).
  - assert (Hallowed : group_denied scenario.echo scenario.member_event = false)
      by reflexivity.
    split; [exact Hallowed|].
    rewrite (proj2 (proj2 (unsafe_execute_group_check_first
               scenario.echo scenario.member_event [VStr "a"] VNone)) Hallowed).
    reflexivity.
Defined.


(** ** Loop *)

Section Loop_facts.
Context {Event : Type}.

Lemma Loop_while_enough (condition : option Wrapper) (is_true : bool)
    (object : Wrapper) (n : nat) :
  forall (total : Z) (result : Result) (event : Event) (fuel : nat),
    Z.of_nat n = (1000 - total)%Z -> (n < fuel)%nat ->
    Loop_while fuel condition is_true object total result event
    = Loop_while (S n) condition is_true object total result event
    /\ Loop_while (S n) condition is_true object total result event <> None.
Proof.
  induction n as [|n IH]; intros total result event fuel Htotal Hfuel;
    (destruct fuel as [|fuel]; [lia|]); cbn [Loop_while].
  - replace (1000 <? total + 1)%Z with true by (symmetry; apply Z.ltb_lt; lia).
    done.
  - destruct (1000 <? total + 1)%Z; [done|].
    destruct condition as [cond|]; [|done].
    destruct (call_finalize cond None event) as [[c|ex] event1]; [|done].
    destruct (any_BaseError c) as [any_error|]; [|done].
    destruct (_ || _); [done|].
    destruct (try_body object result event1) as [[result1 [ex|]] event2].
    + destruct (loop_except ex result1); try done.
      apply IH; lia.
    + apply IH; lia.
Qed.

Lemma Loop_loop_enough (fuel : nat) (data : list Wrapper) :
  (1001 <= fuel)%nat ->
  forall (action : option string) (condition : option Wrapper) (is_true : bool)
         (result : Result) (event : Event),
    Loop_loop fuel data action condition is_true result event
    = Loop_loop 1001 data action condition is_true result event
    /\ Loop_loop 1001 data action condition is_true result event <> None.
Proof.
  intros Hfuel.
  induction data as [|object rest IH]; intros action condition is_true result event;
    cbn [Loop_loop]; [done|].
  assert (Hwhile : forall obj,
    Loop_while fuel condition is_true obj 0 result event
    = Loop_while 1001 condition is_true obj 0 result event
    /\ Loop_while 1001 condition is_true obj 0 result event <> None).
  { intros obj. apply (Loop_while_enough condition is_true obj 1000); lia. }
  destruct object as [type| |word|finalize];
    try (destruct (action_is action "condition"); [apply IH|];
         destruct (action_is action "false_condition"); [apply IH|];
         destruct (action_is action "action"); [apply Hwhile|apply IH]).
  destruct (lookup_action Loop_actions word); [apply IH|done].
Qed.

Lemma passes_S (k : nat) : passes (S k) = passes k ++ [true; false].
Proof.
  unfold passes. cbn [repeat].
  rewrite repeat_cons, concat_app. simpl. done.
Qed.

Lemma Loop_while_trace (cond body : finalizer) (is_true : bool) (fuel : nat) :
  forall (k : nat) (result : Result) (event : Event),
    (k <= 1000)%nat ->
    Loop_trace_ok k
      (Loop_while fuel (Some (Node (traced true cond))) is_true
         (Node (traced false body)) (Z.of_nat k) result (event, passes k)).
Proof.
  induction fuel as [|fuel IH]; intros k result event Hk; [done|].
  cbn [Loop_while].
  destruct (1000 <? Z.of_nat k + 1)%Z eqn:Hlimit.
  { exists k. split; [lia|]. by left. }
  apply Z.ltb_ge in Hlimit.
  cbn [call_finalize traced].
  destruct (cond VNone event) as [[c|ex] event1].
  2:{ exists k. split; [lia|]. right. split; [lia|done]. }
  destruct (any_BaseError c) as [any_error|].
  2:{ exists k. split; [lia|]. right. split; [lia|done]. }
  destruct (_ || _).
  { exists k. split; [lia|]. right. split; [lia|done]. }
  unfold try_body. cbn [call_finalize traced].
  replace (Z.of_nat k + 1)%Z with (Z.of_nat (S k)) by lia.
  assert (Hexit : forall o (e : Event),
             Loop_trace_ok k (Some (o, (e, (passes k ++ [true]) ++ [false])))).
  { intros o e. exists (S k). split; [lia|]. left.
    by rewrite passes_S, <- app_assoc. }
  assert (Hnext : forall r (e : Event),
             Loop_trace_ok k
               (Loop_while fuel (Some (Node (traced true cond))) is_true
                  (Node (traced false body)) (Z.of_nat (S k)) r
                  (e, (passes k ++ [true]) ++ [false]))).
  { intros r e. rewrite <- app_assoc. change ([true] ++ [false]) with [true; false].
    rewrite <- passes_S.
    specialize (IH (S k) r e ltac:(lia)).
    destruct (Loop_while _ _ _ _ _ _ _) as [[o [e' t]]|]; [|done].
    destruct IH as (k' & Hk' & Ht). exists k'. split; [lia|done]. }
  destruct (body VNone event1) as [[v|ex] event2].
  - destruct (last_keyword_error (lshift result v)) as [ex|].
    + destruct (loop_except (ExcError ex) (lshift result v)); auto.
    + apply Hnext.
  - destruct (loop_except ex result); auto.
Qed.

End Loop_facts.

(** C5: the loop of [Loop.finalize] ends, whatever its children do:
    1001 passes of the model are always enough and more change nothing.
    The condition is evaluated before every evaluation of the body and
    at most 1000 times: the evaluations form [k] passes
    (condition, body) with [k <= 1000], possibly followed by one last
    condition when [k < 1000].  A loop whose condition never fails is
    stopped by the limit error after exactly 1000 passes: the pass
    after the thousandth raises it and evaluates nothing. *)
Theorem Loop_bounded {Event : Type} (data : list Wrapper) (event : Event)
    (fuel : nat) (Hfuel : (1001 <= fuel)%nat) :
  Loop_finalize fuel data event = Loop_finalize 1001 data event
  /\ Loop_finalize 1001 data event <> None
  /\ (forall (cond body : finalizer) (is_true : bool),
         match Loop_while fuel (Some (Node (traced true cond))) is_true
                 (Node (traced false body)) 0 Result_new (event, []) with
         | Some (_, (_, trace)) =>
             exists k, (k <= 1000)%nat
                       /\ (trace = passes k
                           \/ ((k < 1000)%nat /\ trace = passes k ++ [true]))
         | None => False
         end)
  /\ (forall (n : nat) (condition : option Wrapper) (is_true : bool)
             (object : Wrapper) (result : Result),
         Loop_while (S n) condition is_true object 1000 result event
         = Some (Raises (ExcError (LimitExceededError_of 1000 "maximum repeatings")),
                 event))
  /\ (match Loop_finalize 1001
              [Reservedword "while"; List_node [scenario.command ["true"]];
               Reservedword "do"; List_node [scenario.command ["echo"; "x"]];
               Reservedword "done"] scenario.member_event with
      | Some (Raises (ExcError (MkError LimitExceededError _)), event1) =>
          List.length (scenario.ev_log event1) = 2000%nat
      | _ => False
      end).
Proof.
  split; [apply Loop_loop_enough; done|].
  split; [apply (Loop_loop_enough 1001); done|].
  split.
  - intros cond body is_true.
    pose proof (Loop_while_trace cond body is_true fuel 0 Result_new event
                  ltac:(lia)) as Htrace.
    destruct (Loop_while_enough (Some (Node (traced true cond))) is_true
                (Node (traced false body)) 1000 0 Result_new
                (event, @nil bool) fuel ltac:(lia) ltac:(lia)) as [Heq Hsome].
    change (Z.of_nat 0) with 0%Z in Htrace. change (passes 0) with (@nil bool) in Htrace.
    rewrite Heq in *.
    destruct (Loop_while 1001 _ _ _ _ _ _) as [[o [e t]]|]; [|done].
    destruct Htrace as (k & Hk & Ht). exists k. split; [lia|done].
  - split; [done|]. vm_compute. done.
Qed.

(** [until true; do echo x; done] with more passes than needed. *)
Lemma Loop_bounded_witness :
  (1001 <= 2000)%nat
  /\ Loop_finalize 2000
       [Reservedword "until"; List_node [scenario.command ["true"]];
        Reservedword "do"; List_node [scenario.command ["echo"; "x"]];
        Reservedword "done"] scenario.member_event
     = Loop_finalize 1001
         [Reservedword "until"; List_node [scenario.command ["true"]];
          Reservedword "do"; List_node [scenario.command ["echo"; "x"]];
          Reservedword "done"] scenario.member_event.
Proof.
  assert (Hfuel : (1001 <= 2000)%nat) by lia.
  split; [exact Hfuel|].
  exact (proj1 (Loop_bounded _ scenario.member_event 2000 Hfuel)).
Defined.


(** ** Break, Continue and Return *)

Section Signal_facts.
Context {Event : Type} `{EventOps Event}.

(** The two ways a keyword error reaches the construct around a child:
    the child raises it, or the child (a List, which catches it) returns
    a Result whose [last] is that error. *)
Lemma try_body_signal (body : finalizer) (result result1 : Result)
    (event0 event1 : Event) (ex : Exc) :
  try_body (Node body) result event0 = (result1, Some ex, event1) ->
  (body VNone event0 = (Raises ex, event1) /\ result1 = result)
  \/ (exists v e, body VNone event0 = (Returns v, event1)
                  /\ result1 = lshift result v
                  /\ ex = ExcError e
                  /\ last_keyword_error result1 = Some e
                  /\ Error_is_KeywordError e = true).
Proof.
  unfold try_body. cbn [call_finalize].
  destruct (body VNone event0) as [[v|ex'] event'].
  - destruct (last_keyword_error (lshift result v)) as [e|] eqn:Hlast; [|done].
    intros [= <- <- <-]. right. exists v, e. repeat split; try done.
    unfold last_keyword_error, keyword_error in Hlast.
    destruct (last (lshift result v)) as [| | | | |d l|e']; try done.
    destruct l as [| | | | | |e0]; try done.
    destruct (Error_is_KeywordError e0) eqn:He; [|done].
    by injection Hlast as ->.
  - intros [= <- <- <-]. by left.
Qed.

(** No [BreakError] or [ContinueError] leaves [For_iterate], as long as
    binding the variable does not raise one. *)
Lemma For_iterate_keeps_loop_errors (name : Value) (object : Wrapper)
    (iterable : list Value) :
  (forall n v ev c text ev',
      set_variable n v ev = (Raises (ExcError (MkError c text)), ev') ->
      is_LoopError_class c = false) ->
  forall (result : Result) (event : Event) c text event',
    For_iterate iterable name object result event
    = (Raises (ExcError (MkError c text)), event') ->
    is_LoopError_class c = false.
Proof.
  intros Hset.
  induction iterable as [|variable rest IH]; intros result event c text event';
    cbn [For_iterate]; [done|].
  destruct (set_variable name variable event) as [[[]|ex] event0] eqn:Hs.
  2:{ intros [= -> ->]. by eapply Hset. }
  destruct (try_body object result event0) as [[result1 [ex|]] event1].
  - destruct ex as [[c' text'|value]|other]; cbn [loop_except].
    + destruct c'; try (apply IH); done.
    + done.
    + destruct (base_only other); [done|apply IH].
  - apply IH.
Qed.

End Signal_facts.

(** A signal that reaches the boundary.  When the body of a loop signals
    a keyword error [ex] (raises it, or hands it over as the [last] of
    the Result it returns), [For] and [Loop] answer at once: [BreakError] ends the loop, which returns its
    Result; [ContinueError] goes on with the next iteration; a
    [ReturnError] is raised again, carrying the loop's Result with the
    returned value appended.  [If] passes a loop signal on as it is and
    re-raises a [ReturnError] the same way.  No loop signal leaves [For].
    [Function.execute] turns the [ReturnError] of its body into the value
    it returns.  In the function
    [f() { for x in 1 2 3; do echo $x; if true; then return done; fi;
    echo unreached; done; echo after; }] the return leaves the [if] and
    the [for] after the first iteration, and the call returns the Result
    gathered on the way. *)
Theorem keyword_signals_at_boundaries {Event : Type} `{EventOps Event}
    (body : finalizer) (result result1 : Result) (event0 event1 : Event)
    (ex : Error)
    (Hsignal : try_body (Node body) result event0
               = (result1, Some (ExcError ex), event1))
    (Hkeyword : Error_is_KeywordError ex = true) :
  (forall variable rest name event,
      set_variable name variable event = (Returns tt, event0) ->
      For_iterate (variable :: rest) name (Node body) result event =
      match ex with
      | ReturnError value =>
          (Raises (ExcError (ReturnError (Result_value (lshift result1 value)))),
           event1)
      | MkError BreakError _ => (Returns result1, event1)
      | MkError _ _ => For_iterate rest name (Node body) result1 event1
      end)
  /\ (forall fuel cond is_true total c event,
         (total < 1000)%Z ->
         call_finalize cond None event = (Returns c, event0) ->
         any_BaseError c = Some (negb is_true) ->
         Loop_while (S fuel) (Some cond) is_true (Node body) total result event =
         match ex with
         | ReturnError value =>
             Some (Raises (ExcError
                     (ReturnError (Result_value (lshift result1 value)))), event1)
         | MkError BreakError _ => Some (Returns result1, event1)
         | MkError _ _ =>
             Loop_while fuel (Some cond) is_true (Node body) (total + 1)
               result1 event1
         end)
  /\ (forall rest action condition_result,
         action_is action "condition" = false ->
         If_branch_taken action condition_result = Some true ->
         If_loop (Node body :: rest) action condition_result result event0 =
         match ex with
         | ReturnError value =>
             (Raises (ExcError (ReturnError (Result_value (lshift result1 value)))),
              event1)
         | MkError _ _ => (Raises (ExcError ex), event1)
         end)
  /\ (forall name (function : finalizer) args stdin event event2 event3 value,
         set_variable (VStr "_stdin") stdin
           (set_command_arguments (name :: args) event) = (Returns tt, event2) ->
         (function VNone event2 = (Raises (ExcError (ReturnError value)), event3)
          \/ exists d l,
               function VNone event2 = (Returns (VResult d l), event3)
               /\ last_keyword_error {| data := d; last := l |}
                  = Some (ReturnError value)) ->
         Function_execute name (Some function) args stdin event
         = (Returns value,
            set_command_arguments (command_args event)
              (pop_variable "_stdin" event3)))
  /\ (forall (set_ok : forall n v ev c text ev',
                 set_variable n v ev = (Raises (ExcError (MkError c text)), ev') ->
                 is_LoopError_class c = false)
             iterable name object r ev c text ev',
         For_iterate iterable name object r ev
         = (Raises (ExcError (MkError c text)), ev') ->
         is_LoopError_class c = false)
  /\ (let '(outcome, ev) :=
        Function_execute (VStr "f") (Some scenario.returning_function) []
          VNone scenario.member_event in
      map fst (scenario.ev_log ev) = ["echo"; "true"; "return"]
      /\ scenario.ev_command_args ev = []
      /\ outcome
         = Returns
             (VResult
                [VStr "1";
                 VErr (ReturnError
                         (VResult [VErr (ReturnError (VStr "done")); VStr "done"]
                            (VStr "done")));
                 VErr (ReturnError (VStr "done")); VStr "done"]
                (VResult [VErr (ReturnError (VStr "done")); VStr "done"]
                   (VStr "done")))).
Proof.
  split.
  { intros variable rest name event Hset. cbn [For_iterate].
    rewrite Hset, Hsignal. destruct ex as [[] text|value]; done. }
  split.
  { intros fuel cond is_true total c event Htotal Hcond Hany. cbn [Loop_while].
    replace (1000 <? total + 1)%Z with false by (symmetry; apply Z.ltb_ge; lia).
    rewrite Hcond, Hany, Hsignal.
    destruct is_true; destruct ex as [[] text|value]; done. }
  split.
  { intros rest action condition_result Hcondition Htaken. cbn [If_loop].
    rewrite Hcondition, Htaken, Hsignal.
    destruct ex as [c text|value]; done. }
  split.
  { intros name function args stdin event event2 event3 value Hset Hbody.
    unfold Function_execute. rewrite Hset.
    destruct Hbody as [->|(d & l & -> & ->)]; done. }
  split.
  { intros set_ok iterable name object r ev c text ev'.
    by apply For_iterate_keeps_loop_errors. }
  vm_compute. done.
Qed.

(** [for x in 1 2; do echo a; break; echo b; done]: the first iteration
    ends the loop. *)
Lemma keyword_signals_at_boundaries_witness :
  try_body (Node scenario.break_body) Result_new scenario.bound_event
  = ({| data := [VStr "a"; VErr (MkError BreakError "break")];
        last := VResult [VStr "a"; VErr (MkError BreakError "break")]
                  (VErr (MkError BreakError "break")) |},
     Some (ExcError (MkError BreakError "break")),
     scenario.with_log scenario.bound_event [("echo", VNone); ("break", VNone)])
  /\ Error_is_KeywordError (MkError BreakError "break") = true
  /\ For_iterate [VStr "1"; VStr "2"] (VStr "x") (Node scenario.break_body)
       Result_new scenario.member_event
     = (Returns {| data := [VStr "a"; VErr (MkError BreakError "break")];
                   last := VResult [VStr "a"; VErr (MkError BreakError "break")]
                             (VErr (MkError BreakError "break")) |},
        scenario.with_log scenario.bound_event [("echo", VNone); ("break", VNone)]).
Proof.
  assert (Hsignal :
    try_body (Node scenario.break_body) Result_new scenario.bound_event
    = ({| data := [VStr "a"; VErr (MkError BreakError "break")];
          last := VResult [VStr "a"; VErr (MkError BreakError "break")]
                    (VErr (MkError BreakError "break")) |},
       Some (ExcError (MkError BreakError "break")),
       scenario.with_log scenario.bound_event [("echo", VNone); ("break", VNone)]))
    by reflexivity.
  assert (Hkeyword : Error_is_KeywordError (MkError BreakError "break") = true)
    by reflexivity.
  split; [exact Hsignal|]. split; [exact Hkeyword|].
  assert (Hset : set_variable (VStr "x") (VStr "1") scenario.member_event
                 = (Returns tt, scenario.bound_event)) by reflexivity.
  exact (proj1 (keyword_signals_at_boundaries _ _ _ _ _ _ Hsignal Hkeyword)
           (VStr "1") [VStr "2"] (VStr "x") scenario.member_event Hset).
Defined.

(** C7: a [break] or [return] inside a brace group does not reach the
    loop or the function around the group.  [List] catches the keyword
    error and hands it over as the [last] of its Result; [Pipeline],
    [If], [For] and [Loop] raise it again from there with
    [last_keyword_error], [Compound.finalize] does not, so behind a
    brace group the signal stays a value in the Result.
    [for x in 1 2; do { echo a; break; }; echo b; done] runs both
    iterations and [echo b] in each, where the same loop without the
    braces stops at the first [break];
    [while true; do { echo a; break; }; echo b; done] is only ended by
    the limit of 1000 passes; and
    [f() { { echo a; return x; }; echo after; }] runs [echo after] and
    returns the whole Result instead of [x]. *)
Theorem brace_group_swallows_signals :
  (let '(outcome, ev) :=
     For_finalize examples.brace_break_loop scenario.member_event in
   map fst (scenario.ev_log ev)
   = ["echo"; "break"; "echo"; "echo"; "break"; "echo"]
   /\ outcome
      = Returns
          {| data := [VStr "a"; VErr (MkError BreakError "break"); VStr "b";
                      VStr "a"; VErr (MkError BreakError "break"); VStr "b"];
             last := VResult
                       [VStr "a"; VErr (MkError BreakError "break"); VStr "b"]
                       (VResult [VStr "b"] (VStr "b")) |})
  /\ (let '(outcome, ev) :=
        For_finalize examples.plain_break_loop scenario.member_event in
      map fst (scenario.ev_log ev) = ["echo"; "break"]
      /\ outcome
         = Returns
             {| data := [VStr "a"; VErr (MkError BreakError "break")];
                last := VResult [VStr "a"; VErr (MkError BreakError "break")]
                          (VErr (MkError BreakError "break")) |})
  /\ match Loop_finalize 1001 examples.brace_break_while
             scenario.member_event with
     | Some (outcome, ev) =>
         outcome
         = Raises (ExcError (LimitExceededError_of 1000 "maximum repeatings"))
         /\ map fst (scenario.ev_log ev)
            = List.concat (repeat ["true"; "echo"; "break"; "echo"] 1000)
     | None => False
     end
  /\ (let '(outcome, ev) :=
        Function_execute (VStr "f") (Some examples.brace_return_function) []
          VNone scenario.member_event in
      map fst (scenario.ev_log ev) = ["echo"; "return"; "echo"]
      /\ outcome
         = Returns
             (VResult [VStr "a"; VErr (ReturnError (VStr "x")); VStr "after"]
                (VResult
                   [VStr "a"; VErr (ReturnError (VStr "x")); VStr "after"]
                   (VResult [VStr "after"] (VStr "after"))))).
Proof. vm_compute. done. Qed.


(** ** Mode.check *)

Section Mode_facts.

Lemma bit_grouped_agrees_all :
  forallb bit_grouped_agrees (map Z.of_nat (seq 0 512)) = true.
Proof. vm_compute. reflexivity. Qed.

(** For a nine-bit mode, [bit_grouped] is the three rwx triples. *)
Lemma bit_grouped_rwx (self : Mode) :
  (0 <= value self < 512)%Z -> bit_grouped self = Some (rwx_triples (value self)).
Proof.
  intros Hrange.
  assert (Hin : In (value self) (map Z.of_nat (seq 0 512))).
  { apply in_map_iff. exists (Z.to_nat (value self)). split; [lia|].
    apply in_seq. lia. }
  pose proof (proj1 (forallb_forall _ _) bit_grouped_agrees_all _ Hin) as Hok.
  unfold bit_grouped_agrees in Hok. apply bool_decide_eq_true in Hok.
  exact Hok.
Qed.

End Mode_facts.

(** C4: a check of read, write or execute for a principal reads one bit
    of the mode: the bit of that action in the owner triple when the
    principal's identity is the owner, else in the group triple when the
    group of the node is among the principal's groups, else in the other
    triple.  With mode 0o640, a principal that is neither the owner nor
    in the group is refused write and read; a member of the group that is
    not the owner may read and may not write. *)
Theorem Mode_check_one_triple {Event : Type} `{EventOps Event}
    (self : Mode) (file action : string) (event : Event) (exception : bool)
    (index : nat)
    (Hmode : (0 <= value self < 512)%Z)
    (Haction : indexes action = Some index) :
  Mode_check self file action (EventOf event) exception
  = (if Z.testbit (value self)
          (8 - 3 * Z.of_nat (selected_triple self event) - Z.of_nat index)
     then Returns true
     else if exception
          then Raises (ExcError (PermissionDeniedError_of file action))
          else Returns false)
  /\ selected_triple self event
     = (if Ident_eqb (object_id event) (owner self) then 0
        else if Ident_in (permissions.group self) (groups event) then 1
        else 2)%nat
  /\ (value self = 416%Z ->
      Ident_eqb (object_id event) (owner self) = false ->
      (Ident_in (permissions.group self) (groups event) = false ->
       Mode_check self file "write" (EventOf event) false = Returns false
       /\ Mode_check self file "read" (EventOf event) false = Returns false)
      /\ (Ident_in (permissions.group self) (groups event) = true ->
          Mode_check self file "read" (EventOf event) false = Returns true
          /\ Mode_check self file "write" (EventOf event) false = Returns false)).
Proof.
  split; [|split; [done|]].
  - assert (Hcases : (action = "read" /\ index = 0%nat)
                     \/ (action = "write" /\ index = 1%nat)
                     \/ (action = "execute" /\ index = 2%nat)).
    { unfold indexes in Haction.
      destruct (String.eqb_spec action "read");
        [left; split; congruence|].
      destruct (String.eqb_spec action "write");
        [right; left; split; congruence|].
      destruct (String.eqb_spec action "execute");
        [right; right; split; congruence|done]. }
    unfold Mode_check.
    rewrite (bit_grouped_rwx self Hmode). unfold selected_triple, rwx_triples.
    destruct Hcases as [[-> ->]|[[-> ->]|[-> ->]]];
      (destruct (Ident_eqb _ _); [|destruct (Ident_in _ _)]); reflexivity.
  - intros Hvalue Howner.
    unfold Mode_check, selected_triple.
    rewrite (bit_grouped_rwx self Hmode), Hvalue, Howner.
    split; intros ->; split; reflexivity.
Qed.

(** A member of the group reads a node of mode 0o640. *)
Lemma Mode_check_one_triple_witness :
  (0 <= value {| value := 416; owner := IdInt 1; group := IdStr "member" |} < 512)%Z
  /\ indexes "read" = Some 0%nat
  /\ Mode_check {| value := 416; owner := IdInt 1; group := IdStr "member" |}
       "notes" "read" (EventOf scenario.member_event) true
     = Returns true.
Proof.
  assert (Hmode : (0 <= value {| value := 416; owner := IdInt 1;
                                  group := IdStr "member" |} < 512)%Z)
    by (simpl; lia).
  assert (Haction : indexes "read" = Some 0%nat) by reflexivity.
  split; [exact Hmode|]. split; [exact Haction|].
  rewrite (proj1 (Mode_check_one_triple _ "notes" "read" scenario.member_event
                    true 0%nat Hmode Haction)).
  reflexivity.
Defined.


(** ** Inode allocation *)

Section Allocator_facts.

Lemma list_remove_first_In (x y : Z) (l : list Z) :
  List.In x (list_remove_first y l) -> List.In x l.
Proof.
  induction l as [|z zs IH]; simpl; [done|].
  destruct (Z.eqb y z); simpl; tauto.
Qed.

Lemma list_remove_first_NoDup (y : Z) (l : list Z) :
  List.NoDup l -> List.NoDup (list_remove_first y l).
Proof.
  induction 1 as [|z zs Hz Hnd IH]; simpl; [constructor|].
  destruct (Z.eqb y z); [done|].
  constructor; [|done]. intros Hin. by apply Hz, (list_remove_first_In _ y).
Qed.

Lemma list_remove_first_gone (y : Z) (l : list Z) :
  List.NoDup l -> ~ List.In y (list_remove_first y l).
Proof.
  induction 1 as [|z zs Hz Hnd IH]; simpl; [tauto|].
  destruct (Z.eqb_spec y z) as [->|Hne]; [done|].
  simpl. intros [Heq|Hin]; [congruence|done].
Qed.

Lemma filter_head {A : Type} (f : A -> bool) (l : list A) (x : A) (rest : list A) :
  List.filter f l = x :: rest -> List.In x l /\ f x = true.
Proof.
  intros Hf. apply filter_In. rewrite Hf. by left.
Qed.

Lemma existsb_Zeqb_true (x : Z) (l : list Z) :
  List.In x l -> existsb (Z.eqb x) l = true.
Proof.
  intros Hin. apply existsb_exists. exists x. split; [done|]. apply Z.eqb_refl.
Qed.

Lemma existsb_Zeqb_false (x : Z) (l : list Z) :
  ~ List.In x l -> existsb (Z.eqb x) l = false.
Proof.
  intros Hnotin. destruct (existsb (Z.eqb x) l) eqn:He; [|done].
  apply existsb_exists in He as (y & Hy & ->%Z.eqb_eq). done.
Qed.

Lemma create_inode_step (public : bool) (fs : FS) :
  allocator_invariant fs -> private_room public fs ->
  allocator_invariant (snd (create_inode public fs))
  /\ (if public then (10000 <= fst (create_inode public fs))%Z
      else (fst (create_inode public fs) < 10000)%Z)
  /\ available fs (fst (create_inode public fs))
  /\ ~ available (snd (create_inode public fs)) (fst (create_inode public fs))
  /\ (forall x, available (snd (create_inode public fs)) x -> available fs x)
  /\ free_inodes_list (snd (create_inode public fs))
     = (if existsb (Z.eqb (fst (create_inode public fs))) (free_inodes_list fs)
        then list_remove_first (fst (create_inode public fs)) (free_inodes_list fs)
        else free_inodes_list fs)
  /\ (next_private_inode (snd (create_inode public fs)) <= next_private_inode fs + 1)%Z
  /\ (public = true ->
      next_private_inode (snd (create_inode public fs)) = next_private_inode fs).
Proof.
  intros [[Hnd Hfree] [Hpub Hpriv]] Hroom.
  unfold create_inode, available, allocator_invariant, allocator_invariant_stated.
  destruct public.
  - destruct (free_public_inodes fs) as [|i rest] eqn:Hf; cbn.
    + assert (Hnotin : ~ List.In (next_public_inode fs) (free_inodes_list fs)).
      { intros Hin. destruct (Hfree _ Hin) as [Hlt _]. lia. }
      rewrite (existsb_Zeqb_false _ _ Hnotin).
      split; [split; [split; [done|]|lia]|].
      { intros x Hx. destruct (Hfree x Hx). split; lia. }
      split; [lia|]. split; [right; left; lia|].
      split; [intros [Hin|[?|?]]; [done|lia|lia]|].
      split; [|split; [done|split; [lia|done]]].
      intros x [?|[?|?]]; [by left|right; left; lia|right; right; lia].
    + destruct (filter_head _ _ _ _ Hf) as [Hin Hge]. apply Z.leb_le in Hge.
      rewrite (existsb_Zeqb_true _ _ Hin).
      split; [split; [split; [by apply list_remove_first_NoDup|]|lia]|].
      { intros x Hx%list_remove_first_In. destruct (Hfree x Hx). split; lia. }
      split; [lia|]. split; [by left|].
      split.
      { destruct (Hfree i Hin) as [Hlt _].
        intros [Hgone|[?|?]]; [|lia|lia].
        by apply (list_remove_first_gone i (free_inodes_list fs)). }
      split; [|split; [done|split; [lia|done]]].
      intros x [Hx%list_remove_first_In|[?|?]];
        [by left|right; left; lia|right; right; lia].
  - destruct (free_private_inodes fs) as [|i rest] eqn:Hf; cbn.
    + assert (Hlt : (next_private_inode fs < 10000)%Z).
      { destruct Hroom as [?|[?|?]]; done. }
      assert (Hnotin : ~ List.In (next_private_inode fs) (free_inodes_list fs)).
      { intros Hin. destruct (Hfree _ Hin) as [_ Hlt']. lia. }
      rewrite (existsb_Zeqb_false _ _ Hnotin).
      split; [split; [split; [done|]|lia]|].
      { intros x Hx. destruct (Hfree x Hx). split; lia. }
      split; [lia|]. split; [right; right; lia|].
      split; [intros [Hin|[?|?]]; [done|lia|lia]|].
      split; [|split; [done|split; [lia|done]]].
      intros x [?|[?|?]]; [by left|right; left; lia|right; right; lia].
    + destruct (filter_head _ _ _ _ Hf) as [Hin Hlt]. apply Z.ltb_lt in Hlt.
      rewrite (existsb_Zeqb_true _ _ Hin).
      split; [split; [split; [by apply list_remove_first_NoDup|]|lia]|].
      { intros x Hx%list_remove_first_In. destruct (Hfree x Hx). split; lia. }
      split; [lia|]. split; [by left|].
      split.
      { destruct (Hfree i Hin) as [_ Hlt'].
        intros [Hgone|[?|?]]; [|lia|lia].
        by apply (list_remove_first_gone i (free_inodes_list fs)). }
      split; [|split; [done|split; [lia|done]]].
      intros x [Hx%list_remove_first_In|[?|?]];
        [by left|right; left; lia|right; right; lia].
Qed.

Lemma create_inodes_distinct (requests : list bool) :
  forall fs,
    allocator_invariant fs ->
    (next_private_inode fs + Z.of_nat (List.length (List.filter negb requests))
     <= 10000)%Z ->
    List.NoDup (fst (create_inodes requests fs))
    /\ (forall x, List.In x (fst (create_inodes requests fs)) -> available fs x)
    /\ allocator_invariant (snd (create_inodes requests fs)).
Proof.
  induction requests as [|public rest IH]; intros fs Hinv Hroom; cbn [create_inodes].
  { simpl. split; [constructor|split; [intros x []|done]]. }
  assert (Hroom1 : private_room public fs).
  { destruct public; [by left|]. right; right. simpl in Hroom. lia. }
  destruct (create_inode_step public fs Hinv Hroom1)
    as (Hinv1 & _ & Hav & Hgone & Hmono & _ & Hnext & Hsame).
  destruct (create_inode public fs) as [i fs1]; cbn [fst snd] in *.
  assert (Hroom' : (next_private_inode fs1
                    + Z.of_nat (List.length (List.filter negb rest)) <= 10000)%Z).
  { destruct public; simpl in Hroom; [rewrite Hsame by done; lia|lia]. }
  destruct (IH fs1 Hinv1 Hroom') as (Hnd & Hin & Hinv2).
  destruct (create_inodes rest fs1) as [inodes fs2]; cbn [fst snd] in *.
  split; [|split; [intros x [<-|Hx]; auto|done]].
  constructor; [|done]. intros Hi. apply Hgone. by apply Hin.
Qed.

End Allocator_facts.

(** C10, as stated, fails: the state reached from a fresh root by 9998
    private allocations satisfies the stated invariant, yet the next
    private allocation returns 10000, which is not below 10000, and a
    public allocation followed by a private one returns 10000 twice. *)
Lemma create_inode_stated_counterexample :
  snd (create_inodes (repeat false (Z.to_nat 9998)) initial_allocator)
  = {| defaults := []; db := ∅; free_inodes_list := [];
       next_public_inode := 10000; next_private_inode := 10000 |}
  /\ allocator_invariant_stated
       {| defaults := []; db := ∅; free_inodes_list := [];
          next_public_inode := 10000; next_private_inode := 10000 |}
  /\ fst (create_inode false
            {| defaults := []; db := ∅; free_inodes_list := [];
               next_public_inode := 10000; next_private_inode := 10000 |})
     = 10000%Z
  /\ fst (create_inodes [true; false]
            {| defaults := []; db := ∅; free_inodes_list := [];
               next_public_inode := 10000; next_private_inode := 10000 |})
     = [10000%Z; 10000%Z].
Proof.
  split; [vm_compute; reflexivity|].
  split; [split; [constructor|intros x []]|].
  split; reflexivity.
Qed.

(** C10, amended: with the stated invariant and the two counters on
    their side of 10000 (next_public_inode >= 10000, next_private_inode
    <= 10000), a call to [create_inode] that still has a private inode
    to give (it is public, or a private inode is free, or
    next_private_inode < 10000) keeps the invariant, returns an inode
    >= 10000 when public and < 10000 otherwise, removes the returned
    inode from the free list when it was taken from there and leaves the
    list alone otherwise; and a sequence of calls that does not use up
    the private range returns pairwise distinct inodes. *)
Theorem create_inode_invariant (fs : FS) (public : bool)
    (Hinv : allocator_invariant fs) (Hroom : private_room public fs) :
  allocator_invariant (snd (create_inode public fs))
  /\ (if public then (10000 <= fst (create_inode public fs))%Z
      else (fst (create_inode public fs) < 10000)%Z)
  /\ free_inodes_list (snd (create_inode public fs))
     = (if existsb (Z.eqb (fst (create_inode public fs))) (free_inodes_list fs)
        then list_remove_first (fst (create_inode public fs)) (free_inodes_list fs)
        else free_inodes_list fs)
  /\ ~ List.In (fst (create_inode public fs))
         (free_inodes_list (snd (create_inode public fs)))
  /\ (forall requests,
         (next_private_inode fs
          + Z.of_nat (List.length (List.filter negb requests)) <= 10000)%Z ->
         List.NoDup (fst (create_inodes requests fs))).
Proof.
  destruct (create_inode_step public fs Hinv Hroom)
    as (Hinv1 & Hrange & _ & Hgone & _ & Hfree & _).
  split; [done|]. split; [done|]. split; [done|]. split.
  - intros Hin. apply Hgone. by left.
  - intros requests Hrequests.
    by destruct (create_inodes_distinct requests fs Hinv Hrequests).
Qed.

(** Four allocations from a root with one public and one private inode
    free. *)
Lemma create_inode_invariant_witness :
  allocator_invariant
    {| defaults := []; db := ∅; free_inodes_list := [10003; 7]%Z;
       next_public_inode := 10005; next_private_inode := 9 |}
  /\ private_room false
       {| defaults := []; db := ∅; free_inodes_list := [10003; 7]%Z;
          next_public_inode := 10005; next_private_inode := 9 |}
  /\ List.NoDup
       (fst (create_inodes [true; false; true; false]
               {| defaults := []; db := ∅; free_inodes_list := [10003; 7]%Z;
                  next_public_inode := 10005; next_private_inode := 9 |})).
Proof.
  assert (Hinv : allocator_invariant
    {| defaults := []; db := ∅; free_inodes_list := [10003; 7]%Z;
       next_public_inode := 10005; next_private_inode := 9 |}).
  { split; [split|simpl; lia].
    - repeat constructor; simpl; intuition lia.
    - simpl. intros x [<-|[<-|[]]]; split; lia. }
  assert (Hroom : private_room false
    {| defaults := []; db := ∅; free_inodes_list := [10003; 7]%Z;
       next_public_inode := 10005; next_private_inode := 9 |}).
  { right; right. simpl. lia. }
  split; [exact Hinv|]. split; [exact Hroom|].
  apply (proj2 (proj2 (proj2 (proj2 (create_inode_invariant _ false Hinv Hroom))))).
  simpl. lia.
Defined.


(** ** The retry loop of parse *)

Section Parse_facts.
Context {Ast : Type}.
Variable bashlex_parse : string -> Reply Ast.

Lemma existsb_String_eqb (x : string) (l : list string) :
  existsb (String.eqb x) l = true <-> List.In x l.
Proof.
  rewrite existsb_exists. split.
  - intros (y & Hy & ->%String.eqb_eq). done.
  - intros Hin. exists x. split; [done|]. apply String.eqb_refl.
Qed.

(** The messages the loop records are new and pairwise distinct, and
    as long as the loop has not ended every pass recorded one. *)
Lemma parse_seen_grows (fuel : nat) :
  forall (prev : list string) (content : string),
    exists seen,
      parse_seen bashlex_parse fuel prev content = (prev ++ seen)%list
      /\ List.NoDup seen
      /\ (forall m, List.In m seen -> ~ List.In m prev)
      /\ (parse_loop bashlex_parse fuel prev content = None ->
          List.length seen = fuel).
Proof.
  induction fuel as [|fuel IH]; intros prev content.
  { exists []. rewrite app_nil_r.
    repeat split; [constructor|by intros m []]. }
  assert (Hstop : forall answer,
    exists seen : list string, prev = (prev ++ seen)%list /\ List.NoDup seen
      /\ (forall m, List.In m seen -> ~ List.In m prev)
      /\ (Some answer = (None : option (Outcome (option (Ast * string)))) ->
          List.length seen = S fuel)).
  { intros answer. exists []. rewrite app_nil_r.
    repeat split; [constructor|by intros m []|done]. }
  cbn [parse_seen parse_loop].
  destruct (bashlex_parse content) as [ast|msg message source position| |];
    [apply Hstop| |apply Hstop|apply Hstop].
  destruct (existsb (String.eqb msg) prev) eqn:Hseen; [apply Hstop|].
  assert (Hnew : ~ List.In msg prev)
    by (intros Hin%existsb_String_eqb; congruence).
  assert (Hone : forall answer,
    exists seen : list string,
      (prev ++ [msg])%list = (prev ++ seen)%list /\ List.NoDup seen
      /\ (forall m, List.In m seen -> ~ List.In m prev)
      /\ (Some answer = (None : option (Outcome (option (Ast * string)))) ->
          List.length seen = S fuel)).
  { intros answer. exists [msg].
    repeat split; [|by intros m [<-|[]]|done].
    constructor; [by intros []|constructor]. }
  destruct (str_contains "unexpected token" message); [|apply Hone].
  destruct (escape_retry content message source position) as [content1|];
    [|apply Hone].
  destruct (IH (prev ++ [msg])%list content1)
    as (seen & Hseen' & Hnd & Hfresh & Hlen).
  exists (msg :: seen). rewrite Hseen', <- app_assoc.
  repeat split.
  - constructor; [|done]. intros Hin. apply (Hfresh msg Hin).
    apply in_or_app. right. by left.
  - intros m [<-|Hin]; [done|]. intros Hprev. apply (Hfresh m Hin).
    apply in_or_app. by left.
  - intros Hnone. simpl. by rewrite Hlen.
Qed.



End Parse_facts.














(** ** Removal of nodes *)

Section Remove_facts.
Context {Event : Type} `{EventOps Event}.

(** A node that something still refers to is not deleted. *)
Lemma delete_referenced (fuel : nat) (self : File) (recursive : bool) (fs : FS) :
  refs self <> [] -> delete (S fuel) self recursive fs = Some (Returns [], fs).
Proof. intros Hrefs. cbn [delete]. by destruct (refs self). Qed.

(** The recursive walk deletes no child that still lists its parent
    among its references: only the directory itself goes. *)
Lemma delete_recursive_keeps_referenced_children (fuel : nat) (self : File)
    (entries : list (string * Z)) (fs : FS) :
  refs self = [] -> in_dir_kinds (kind self) = true ->
  files self = FilesDict entries ->
  (forall n i, List.In (n, i) entries ->
     exists child, get_by_inode fs i n (path self) = Some child
                   /\ refs child <> []) ->
  delete (S (S fuel)) self true fs
  = Some (Returns [self],
          remove_file self
            (with_free fs (free_inodes_list fs ++ [inode self]))).
Proof.
  intros Hrefs Hkind Hfiles Hchildren.
  cbn [delete]. rewrite Hrefs, Hkind, Hfiles. cbn [andb].
  clear Hfiles.
  induction entries as [|[n i] rest IH]; [done|].
  destruct (Hchildren n i ltac:(by left)) as (child & Hget & Hchild).
  rewrite Hget.
  destruct (refs child) as [|r rs] eqn:Hr; [done|].
  cbn [app]. apply IH.
  intros n' i' Hin. apply Hchildren. by right.
Qed.

(** First part of C3: a directory with entries is not removed without
    [recursive]; the call raises and changes nothing. *)
Lemma remove_refuses_nonempty_directory (fuel : nat) (self selected : File)
    (n : string) (event : EventArg Event) (fs : FS) (allowed : bool) :
  kind self <> file ->
  check self "write" event = Returns allowed ->
  n <> "" ->
  select self n event fs = Returns (Some selected) ->
  in_dir_kinds (kind selected) = true ->
  files_truthy selected = Some true ->
  remove fuel self (Some n) event false None fs
  = Some (Raises (ExcError (MkError NonEmptyDirectoryError (File_str selected))),
          self, fs).
Proof.
  intros Hkind Hcheck Hn Hselect Hdir Hfiles. unfold remove.
  destruct (kind self); try done;
    rewrite Hcheck; (destruct (String.eqb_spec n ""); [done|]);
    rewrite Hselect, Hdir, Hfiles; done.
Qed.

(** Second part of C3: removing the only reference to a node that is not
    a directory deletes it; its inode joins the free list and its record
    leaves the store. *)
Lemma remove_last_reference_deletes (fuel : nat) (self selected : File)
    (n : string) (event : EventArg Event) (recursive : bool) (fs : FS)
    (allowed : bool) (entries : list (string * Z)) (i : Z) :
  kind self <> file ->
  check self "write" event = Returns allowed ->
  n <> "" ->
  select self n event fs = Returns (Some selected) ->
  in_dir_kinds (kind selected) = false ->
  files self = FilesDict entries ->
  dict_get entries (filesystem.name selected) = Some i ->
  refs selected = [inode self] ->
  inode self <> inode selected ->
  exists self' fs',
    remove (S fuel) self (Some n) event recursive None fs
    = Some (Returns [Path_str (path selected)], self', fs')
    /\ List.In (inode selected) (free_inodes_list fs')
    /\ db fs' !! inode selected = None
    /\ files self' = FilesDict (dict_pop entries (filesystem.name selected)).
Proof.
  intros Hkind Hcheck Hn Hselect Hdir Hfiles Hget Hrefs Hne. unfold remove.
  assert (Hdelete : forall fs0,
    delete (S fuel) (remove_reference selected (inode self)) recursive fs0
    = Some (Returns [remove_reference selected (inode self)],
            remove_file (remove_reference selected (inode self))
              (with_free fs0 (free_inodes_list fs0 ++ [inode selected])))).
  { intros fs0. cbn [delete]. unfold remove_reference at 1. rewrite Hrefs.
    cbn [list_remove_first with_refs refs]. rewrite Z.eqb_refl.
    cbn [kind remove_reference with_refs]. rewrite Hdir. done. }
  destruct (kind self); try done;
    rewrite Hcheck; (destruct (String.eqb_spec n ""); [done|]);
    rewrite Hselect, Hdir, Hfiles, Hget, Hdelete;
    eexists _, _; (split; [reflexivity|]);
    (split; [|split; [|reflexivity]]);
    unfold save, remove_file, update_shared, with_db, with_free, with_defaults;
    cbn [inode kind with_files remove_reference with_refs];
    repeat case_match; cbn [free_inodes_list db];
    try (apply in_or_app; right; by left);
    try (rewrite lookup_insert_ne by done);
    try apply lookup_delete_eq.
Qed.

End Remove_facts.

(** C3, third part, fails on the code: [/top/sub] holds the file [a]
    (both made by [Directory.create]); [remove("sub", recursive=True)]
    on [/top] reports and frees [/top/sub] only.  The file [a], inode
    10002, stays in the store and its inode does not reach the free
    list, because it still lists [sub] among its references when
    [__delete] looks at it. *)
Theorem remove_recursive_keeps_children :
  files scenario.sub_with_a = FilesDict [("a", 10002%Z)]
  /\ match remove 10 scenario.top_with_sub (Some "sub")
             (EventTrue (Event := scenario.SimpleEvent)) true None
             scenario.populated with
     | Some (Returns paths, top', fs') =>
         paths = ["/top/sub"]
         /\ files top' = FilesDict []
         /\ free_inodes_list fs' = [10001%Z]
         /\ db fs' !! 10001%Z = None
         /\ match db fs' !! 10002%Z with
            | Some a => kind a = file /\ refs a = [10001%Z]
            | None => False
            end
     | _ => False
     end.
Proof. vm_compute. repeat split; reflexivity. Qed.

(* ===================================================================== *)
(** * Further properties of the code *)
(* ===================================================================== *)

(** ** Result: what it stores *)

Section Result_more.

Lemma insert_atoms (result : Result) (v : Value) (inside : bool) :
  forallb is_atom (data result) = true ->
  forallb is_atom (data (insert result v inside)) = true.
Proof.
  intros Hatoms. destruct (insert_flatten v result inside) as [Hi _].
  rewrite Hi, forallb_app, Hatoms, flatten_atoms. done.
Qed.

Lemma append_atoms (result : Result) (v : Value) (inside : bool) :
  forallb is_atom (data result) = true ->
  forallb is_atom (data (append result v inside)) = true.
Proof.
  intros Hatoms. destruct (append_flatten v result inside) as [Ha _].
  rewrite Ha, forallb_app, Hatoms, flatten_atoms. done.
Qed.

Lemma filter_BaseError_app (l k : list Value) :
  List.filter is_BaseError (l ++ k)
  = List.filter is_BaseError l ++ List.filter is_BaseError k.
Proof.
  induction l as [|x xs IH]; simpl; [done|].
  destruct (is_BaseError x); simpl; by rewrite IH.
Qed.

End Result_more.

(** X1: the data of a Result is flat.  If it holds neither [None], nor a
    list, nor a Result, then the same is true after [append], after
    [insert] and of both Results that [pop] leaves (the copy it returns,
    which holds the same data, and the emptied original). *)
Theorem Result_data_stays_flat (result : Result) (v : Value) (inside : bool)
    (Hatoms : forallb is_atom (data result) = true) :
  forallb is_atom (data (append result v inside)) = true
  /\ forallb is_atom (data (insert result v inside)) = true
  /\ data (fst (pop result)) = data result
  /\ last (fst (pop result)) = VNone
  /\ data (snd (pop result)) = []
  /\ last (snd (pop result)) = last result.
Proof.
  split; [by apply append_atoms|]. split; [by apply insert_atoms|].
  by rewrite (pop_atoms result Hatoms).
Qed.

(** ["a"] holds an atom; appending a nested list keeps the data flat. *)
Lemma Result_data_stays_flat_witness :
  forallb is_atom (data {| data := [VStr "a"]; last := VNone |}) = true
  /\ forallb is_atom
       (data (append {| data := [VStr "a"]; last := VNone |}
                (VList [VNone; VList [VInt 1]]) false)) = true.
Proof.
  assert (Hatoms : forallb is_atom (data {| data := [VStr "a"]; last := VNone |})
                   = true) by reflexivity.
  split; [exact Hatoms|].
  exact (proj1 (Result_data_stays_flat _ (VList [VNone; VList [VInt 1]]) false
                  Hatoms)).
Defined.

(** X2: appending a list is appending its elements one after the other,
    and prepending a list is prepending them from the last to the first:
    [r << (l ++ k)] holds the data of [r << l << k], and [(l ++ k) >> r]
    those of [l >> (k >> r)].  Appending then popping gives back the
    flattened value. *)
Theorem Result_append_composes (result : Result) (l k : list Value) (v : Value) :
  data (lshift result (VList (l ++ k)))
  = data (lshift (lshift result (VList l)) (VList k))
  /\ data (insert result (VList (l ++ k)) false)
     = data (insert (insert result (VList k) false) (VList l) false)
  /\ data (lshift result (VList [v])) = data (lshift result v)
  /\ data (fst (pop (lshift Result_new v))) = flatten v.
Proof.
  unfold lshift.
  destruct (append_flatten (VList (l ++ k)) result false) as [H1 _].
  destruct (append_flatten (VList l) result false) as [H2 _].
  destruct (append_flatten (VList k) (append result (VList l) false) false)
    as [H3 _].
  destruct (insert_flatten (VList (l ++ k)) result false) as [H4 _].
  destruct (insert_flatten (VList k) result false) as [H5 _].
  destruct (insert_flatten (VList l) (insert result (VList k) false) false)
    as [H6 _].
  destruct (append_flatten (VList [v]) result false) as [H7 _].
  destruct (append_flatten v result false) as [H8 _].
  destruct (append_flatten v Result_new false) as [H9 _].
  split; [|split; [|split]].
  - rewrite H1, H3, H2. cbn [flatten]. by rewrite flat_map_app, app_assoc.
  - rewrite H4, H6, H5. cbn [flatten]. by rewrite flat_map_app, app_assoc.
  - rewrite H7, H8. cbn [flatten flat_map]. by rewrite app_nil_r.
  - rewrite pop_atoms.
    + cbn [fst data]. by rewrite H9.
    + rewrite H9. cbn [data Result_new app]. apply flatten_atoms.
Qed.

(** X3: errors are values of the stream.  After [r << v] the errors of
    [r] are those it had followed by the errors found in [v] at any
    depth; and an operator sees a Result as failed exactly when it has
    an error. *)
Theorem Result_errors_accumulate (result : Result) (v : Value) :
  errors (lshift result v)
  = errors result ++ List.filter is_BaseError (flatten v)
  /\ was_exception (Result_value result)
     = negb (Nat.eqb (List.length (errors result)) 0).
Proof.
  split.
  - unfold errors, lshift.
    destruct (append_flatten v result false) as [Ha _].
    by rewrite Ha, filter_BaseError_app.
  - unfold was_exception, Result_value, errors. cbn [is_BaseError orb data].
    by destruct (List.filter is_BaseError (data result)).
Qed.

(** ** Compound, If, Function and command dispatch *)

Section Evaluator_more.
Context {Event : Type} `{EventOps Event}.

Lemma Compound_loop_raises (data : list Wrapper) :
  forall (result : Result) (event event' : Event) (ex : Exc),
    Compound_loop data result event = (Raises ex, event') ->
    exists object event0,
      List.In object data
      /\ call_finalize object None event0 = (Raises ex, event').
Proof.
  induction data as [|object rest IH]; intros result event event' ex;
    cbn [Compound_loop]; [done|].
  assert (Hrest : forall r e,
    Compound_loop rest r e = (Raises ex, event') ->
    exists object0 event0,
      List.In object0 (object :: rest)
      /\ call_finalize object0 None event0 = (Raises ex, event')).
  { intros r e Hr. destruct (IH r e event' ex Hr) as (o & e0 & Hin & Hcall).
    exists o, e0. split; [by right|done]. }
  assert (Hhere : forall obj,
    obj = object ->
    match call_finalize obj None event with
    | (Returns v, event1) => Compound_loop rest (lshift result v) event1
    | (Raises ex0, event1) => (Raises ex0, event1)
    end = (Raises ex, event') ->
    exists object0 event0,
      List.In object0 (object :: rest)
      /\ call_finalize object0 None event0 = (Raises ex, event')).
  { intros obj -> Hcase.
    destruct (call_finalize object None event) as [[v|ex0] event1] eqn:Hcall.
    - by eapply Hrest.
    - injection Hcase as -> ->. exists object, event. split; [by left|done]. }
  destruct object as [type| |word|finalize]; try (by apply Hhere).
  apply Hrest.
Qed.

End Evaluator_more.

(** X4: a Compound raises only what one of its children raised.  What a
    child returns is appended whatever it holds: a keyword error that
    sits in the [last] of a returned Result is not raised by the
    Compound (unlike Pipeline, If, For and Loop, which call
    [last_keyword_error]); reserved words are skipped. *)
Theorem Compound_raises_only_child_exceptions {Event : Type}
    (data : list Wrapper) (result : Result) (event : Event) :
  (forall ex event',
      Compound_loop data result event = (Raises ex, event') ->
      exists object event0,
        List.In object data
        /\ call_finalize object None event0 = (Raises ex, event'))
  /\ (forall word,
         Compound_loop (Reservedword word :: data) result event
         = Compound_loop data result event)
  /\ (forall (child : finalizer) ex v event1,
         child VNone event = (Returns (VResult v (VErr ex)), event1) ->
         Compound_loop [Node child] result event
         = (Returns (lshift result (VResult v (VErr ex))), event1)).
Proof.
  split; [intros ex event'; apply Compound_loop_raises|].
  split; [done|].
  intros child ex v event1 Hchild. cbn [Compound_loop call_finalize].
  by rewrite Hchild.
Qed.

(** X5: [if C; then A; else B; fi] evaluates the condition and then
    exactly one branch: [A] when the result of [C] is iterable and holds
    no error, [B] when it holds one or is [None]; a condition whose
    result cannot be iterated raises a [TypeError] and no branch runs,
    and an exception of the condition leaves the [If].  Without an
    [else], a failed condition gives the empty Result. *)
Theorem If_runs_one_branch {Event : Type}
    (condition then_branch else_branch : finalizer) (event : Event) :
  let branch (body : finalizer) (event1 : Event) : Outcome Result * Event :=
    match try_body (Node body) Result_new event1 with
    | (result1, None, event2) => (Returns result1, event2)
    | (result1, Some (ExcError (ReturnError value)), event2) =>
        (Raises (ExcError (ReturnError (Result_value (lshift result1 value)))),
         event2)
    | (_, Some ex, event2) => (Raises ex, event2)
    end in
  If_finalize
    [Reservedword "if"; Node condition; Reservedword "then"; Node then_branch;
     Reservedword "else"; Node else_branch; Reservedword "fi"] event
  = match condition VNone event with
    | (Raises ex, event1) => (Raises ex, event1)
    | (Returns VNone, event1) => branch else_branch event1
    | (Returns c, event1) =>
        match any_BaseError c with
        | None => (Raises (ExcOther "TypeError"), event1)
        | Some false => branch then_branch event1
        | Some true => branch else_branch event1
        end
    end
  /\ If_finalize
       [Reservedword "if"; Node condition; Reservedword "then"; Node then_branch;
        Reservedword "fi"] event
     = match condition VNone event with
       | (Raises ex, event1) => (Raises ex, event1)
       | (Returns VNone, event1) => (Returns Result_new, event1)
       | (Returns c, event1) =>
           match any_BaseError c with
           | None => (Raises (ExcOther "TypeError"), event1)
           | Some false => branch then_branch event1
           | Some true => (Returns Result_new, event1)
           end
       end.
Proof.
  intros branch. unfold If_finalize, branch.
  cbn [If_loop lookup_action If_actions List.find fst snd String.eqb Ascii.eqb
       Bool.eqb action_is call_finalize].
  split.
  - destruct (condition VNone event) as [[c|ex] event1]; [|done].
    unfold If_branch_taken. cbn [action_is String.eqb Ascii.eqb Bool.eqb].
    destruct c; cbn [any_BaseError iter_value];
      try done;
      try (destruct (existsb is_BaseError _); cbn;
           (destruct (try_body _ _ _) as [[r oex] e];
           destruct oex as [[[c0 t0|value0]|name0]|]; done)).
    all: cbn; (destruct (try_body _ _ _) as [[r oex] e];
           destruct oex as [[[c0 t0|value0]|name0]|]; done).
  - destruct (condition VNone event) as [[c|ex] event1]; [|done].
    unfold If_branch_taken. cbn [action_is String.eqb Ascii.eqb Bool.eqb].
    destruct c; cbn [any_BaseError iter_value];
      try done;
      try (destruct (existsb is_BaseError _); cbn; try done;
           (destruct (try_body _ _ _) as [[r oex] e];
           destruct oex as [[[c0 t0|value0]|name0]|]; done)).
    all: cbn; try done; (destruct (try_body _ _ _) as [[r oex] e];
           destruct oex as [[[c0 t0|value0]|name0]|]; done).
Qed.



(** X7: [Command.execute] lets keyword errors through as they are.  When
    the event asks for [return_on_error], every other exception of
    [unsafe_execute] that [except Exception] catches (the permission
    error included) comes out as a [ReturnError] that carries an error
    value, an [InternalError] for an exception that is not a
    [BaseError]; an exception that is no [Exception] (a cancellation) is
    not caught and is raised unchanged.  Without [return_on_error] every
    exception is raised unchanged.  A returned value is returned. *)
Theorem execute_wraps_errors {Event : Type} `{EventOps Event}
    (cls : Command Event) (event : Event) (parsed : list Value) (stdin : Value) :
  match unsafe_execute cls event parsed stdin with
  | (Returns v, event1) =>
      execute cls event parsed stdin = (Returns v, event1)
  | (Raises ex, event1) =>
      execute cls event parsed stdin =
      match ex with
      | ExcError e =>
          if Error_is_KeywordError e || negb (return_on_error event1)
          then (Raises ex, event1)
          else (Raises (ExcError (ReturnError (VErr e))), event1)
      | ExcOther other =>
          if base_only other || negb (return_on_error event1)
          then (Raises ex, event1)
          else (Raises (ExcError (ReturnError (VErr (InternalError_of other)))),
                event1)
      end
      /\ (return_on_error event1 = true ->
          (exists e, execute cls event parsed stdin = (Raises (ExcError e), event1)
                     /\ Error_is_KeywordError e = true)
          \/ (exists other, ex = ExcOther other /\ base_only other = true
                            /\ execute cls event parsed stdin
                               = (Raises ex, event1)))
  end.
Proof.
  unfold execute.
  destruct (unsafe_execute cls event parsed stdin) as [[v|[e|other]] event1];
    [done| |].
  - split.
    + destruct (Error_is_KeywordError e); [done|].
      by destruct (return_on_error event1).
    + intros Hroe. rewrite Hroe. left.
      destruct (Error_is_KeywordError e) eqn:He; by eexists.
  - split.
    + destruct (base_only other); [done|]. by destruct (return_on_error event1).
    + intros ->. destruct (base_only other) eqn:Hbase.
      * right. by exists other.
      * left. by eexists.
Qed.



(** ** Processor.finalize *)

Section Processor_facts.
Context {Event : Type}.


End Processor_facts.



(** ** Event.groups *)

Section Groups_facts.

Lemma Ident_in_app (x : Ident) (l k : list Ident) :
  Ident_in x (l ++ k)%list = Ident_in x l || Ident_in x k.
Proof. unfold Ident_in. apply existsb_app. Qed.

Lemma Ident_in_cons (x y : Ident) (l : list Ident) :
  Ident_in x (y :: l) = Ident_eqb x y || Ident_in x l.
Proof. done. Qed.

Lemma Ident_in_if (x : Ident) (b : bool) (l : list Ident) :
  Ident_in x (if b then l else []) = b && Ident_in x l.
Proof. by destruct b. Qed.

Lemma Ident_in_map_IdInt (s : string) (l : list Z) :
  Ident_in (IdStr s) (map IdInt l) = false.
Proof. induction l as [|x xs IH]; simpl; [done|]. exact IH. Qed.

Lemma Ident_in_administrated_elsewhere (s : string) (e : EventContext) (g : Z)
    (u : User) :
  Ident_in (IdStr s) (administrated_elsewhere e g u) = false.
Proof.
  unfold administrated_elsewhere.
  induction (ctx_guilds e) as [|other rest IH]; simpl; [done|].
  rewrite Ident_in_app, IH, orb_false_r.
  destruct (Z.eqb _ _); [done|].
  by destruct (get_member other (user_id u)) as [[|]|].
Qed.

Lemma Event_groups_root (e : EventContext) (u : User) :
  ctx_user e = Some u ->
  Ident_in (IdStr "root") (Event_groups e)
  = existsb (Z.eqb (user_id u)) (ctx_root e).
Proof.
  intros Hu. unfold Event_groups. rewrite Hu.
  destruct (ctx_guild e) as [g|] eqn:Hg;
    try destruct (user_member u) as [m|] eqn:Hm;
    rewrite ?Ident_in_app, ?Ident_in_cons, ?Ident_in_if, ?Ident_in_app,
      ?Ident_in_cons, ?Ident_in_if, ?Ident_in_map_IdInt,
      ?Ident_in_administrated_elsewhere; simpl;
    rewrite ?andb_false_r, ?andb_true_r, ?orb_false_r; done.
Qed.

End Groups_facts.

(** X11: on an event whose groups are those [Event.groups] yields, the
    group check of [unsafe_execute] never refuses a command of group
    ["any"], and refuses no command at all to a user listed in
    [client.config.root]. *)
Theorem groups_any_and_root_never_denied {Event : Type} `{EventOps Event}
    (cls : Command Event) (event : Event) (context : EventContext)
    (Hgroups : groups event = Event_groups context) :
  (packages.group cls = IdStr "any" -> group_denied cls event = false)
  /\ (forall u, ctx_user context = Some u ->
                existsb (Z.eqb (user_id u)) (ctx_root context) = true ->
                group_denied cls event = false).
Proof.
  unfold group_denied. rewrite Hgroups. split.
  - intros ->. done.
  - intros u Hu Hroot. rewrite (Event_groups_root context u Hu), Hroot.
    simpl. apply andb_false_r.
Qed.

(** The administrator of the examples runs a command of group ["any"]. *)
Lemma groups_any_and_root_never_denied_witness :
  groups examples.administrator_event
  = Event_groups examples.administrator_context
  /\ group_denied scenario.true_ examples.administrator_event = false.
Proof.
  assert (Hgroups : groups examples.administrator_event
                    = Event_groups examples.administrator_context)
    by reflexivity.
  split; [exact Hgroups|].
  exact (proj1 (groups_any_and_root_never_denied scenario.true_
                  examples.administrator_event
                  examples.administrator_context Hgroups) eq_refl).
Defined.

(** X12: whoever holds the group ["admin"] also holds ["moderator"] and
    the id of the guild of the event: the two places of [Event.groups]
    that yield ["admin"] yield the other two as well. *)
Theorem groups_admin_is_moderator (e : EventContext)
    (Hadmin : Ident_in (IdStr "admin") (Event_groups e) = true) :
  Ident_in (IdStr "moderator") (Event_groups e) = true
  /\ exists g, ctx_guild e = Some g
               /\ Ident_in (IdInt g) (Event_groups e) = true.
Proof.
  revert Hadmin. unfold Event_groups.
  destruct (ctx_guild e) as [g|] eqn:Hg; destruct (ctx_user e) as [u|] eqn:Hu;
    try destruct (user_member u) as [m|] eqn:Hm;
    rewrite ?Ident_in_app, ?Ident_in_cons, ?Ident_in_if, ?Ident_in_app,
      ?Ident_in_cons, ?Ident_in_if, ?Ident_in_map_IdInt,
      ?Ident_in_administrated_elsewhere; simpl;
    rewrite ?andb_false_r, ?orb_false_r; simpl.
  - rewrite andb_true_r. intros Ha. unfold is_moderator at 1.
    rewrite Ha, orb_true_r. split; [done|]. exists g. split; [done|].
    rewrite !Ident_in_app, !Ident_in_cons, ?Ident_in_app.
    simpl. rewrite Z.eqb_refl. simpl. by rewrite !orb_true_r.
  - done.
  - intros _. split; [done|]. exists g. by rewrite Z.eqb_refl.
  - done.
  - done.
  - done.
Qed.

Lemma groups_admin_is_moderator_witness :
  Ident_in (IdStr "admin") (Event_groups examples.administrator_context) = true
  /\ Ident_in (IdStr "moderator") (Event_groups examples.administrator_context)
     = true.
Proof.
  assert (Hadmin : Ident_in (IdStr "admin")
                     (Event_groups examples.administrator_context) = true)
    by reflexivity.
  split; [exact Hadmin|].
  exact (proj1 (groups_admin_is_moderator examples.administrator_context Hadmin)).
Defined.

(** X13: an event with a user always carries the group ["user"] and the
    user's own id, in a guild or not, and never the group ["guild"],
    which is kept for events of a guild without a user. *)
Theorem groups_of_a_user (e : EventContext) (u : User)
    (Huser : ctx_user e = Some u) :
  Ident_in (IdStr "user") (Event_groups e) = true
  /\ Ident_in (IdInt (user_id u)) (Event_groups e) = true
  /\ Ident_in (IdStr "guild") (Event_groups e) = false.
Proof.
  unfold Event_groups. rewrite Huser.
  destruct (ctx_guild e) as [g|] eqn:Hg;
    try destruct (user_member u) as [m|] eqn:Hm;
    rewrite ?Ident_in_app, ?Ident_in_cons, ?Ident_in_if, ?Ident_in_app,
      ?Ident_in_cons, ?Ident_in_if, ?Ident_in_map_IdInt,
      ?Ident_in_administrated_elsewhere; simpl;
    rewrite ?andb_false_r, ?andb_true_r, ?orb_false_r, ?orb_true_r, ?Z.eqb_refl;
    simpl; rewrite ?orb_true_r; done.
Qed.

Lemma groups_of_a_user_witness :
  Ident_in (IdInt 7) (Event_groups examples.administrator_context) = true.
Proof.
  exact (proj1 (proj2 (groups_of_a_user examples.administrator_context
                         {| user_id := 7; user_bot := false;
                            user_member :=
                              Some {| member_roles := [500%Z; 61%Z];
                                      member_administrator := true;
                                      member_owner := false |} |}
                         eq_refl))).
Defined.

(** ** State: variables *)

Section Dict_facts.
Context {A : Type}.
Implicit Types (d : list (string * A)) (k : string) (v : A).

Lemma lookup_store_same d k v : state.lookup (state.store d k v) k = Some v.
Proof.
  unfold state.lookup. induction d as [|[k0 w] rest IH]; simpl.
  - by rewrite String.eqb_refl.
  - destruct (String.eqb k0 k) eqn:E; simpl; rewrite E; [done|exact IH].
Qed.

Lemma lookup_store_other d k k' v :
  k' <> k -> state.lookup (state.store d k v) k' = state.lookup d k'.
Proof.
  intros Hne. unfold state.lookup. induction d as [|[k0 w] rest IH]; simpl.
  - destruct (String.eqb k k') eqn:E; [|done].
    apply String.eqb_eq in E. congruence.
  - destruct (String.eqb k0 k) eqn:E; simpl.
    + apply String.eqb_eq in E. subst k0.
      destruct (String.eqb k k') eqn:E'; [|done].
      apply String.eqb_eq in E'. congruence.
    + destruct (String.eqb k0 k'); [done|exact IH].
Qed.

Lemma lookup_discard_same d k : state.lookup (state.discard d k) k = None.
Proof.
  unfold state.lookup, state.discard.
  induction d as [|[k0 w] rest IH]; simpl; [done|].
  destruct (String.eqb k0 k) eqn:E; simpl; [exact IH|]. by rewrite E.
Qed.

Lemma lookup_discard_other d k k' :
  k' <> k -> state.lookup (state.discard d k) k' = state.lookup d k'.
Proof.
  intros Hne. unfold state.lookup, state.discard.
  induction d as [|[k0 w] rest IH]; simpl; [done|].
  destruct (String.eqb k0 k) eqn:E; simpl.
  - apply String.eqb_eq in E. subst k0.
    destruct (String.eqb k k') eqn:E'; [|exact IH].
    apply String.eqb_eq in E'. congruence.
  - destruct (String.eqb k0 k'); [done|exact IH].
Qed.

End Dict_facts.

Section State_facts.
Variable int_of_string : string -> option Z.

Lemma get_variable_bound (st : state.State) (name : string) (v : Value) :
  state.variables st name = Some (state.BoundValue v) -> v <> VNone ->
  state.get_variable int_of_string st name = v.
Proof.
  intros Hv Hn. unfold state.get_variable. rewrite Hv. by destruct v.
Qed.

Lemma get_variable_variables (st st' : state.State) (name : string) :
  state.variables st' name = state.variables st name ->
  state.command_args st' = state.command_args st ->
  state.get_variable int_of_string st' name
  = state.get_variable int_of_string st name.
Proof.
  intros Hv Ha. unfold state.get_variable. by rewrite Hv, Ha.
Qed.

Lemma variables_assign_other (st : state.State) (export : bool)
    (name other : string) (v : Value) :
  other <> name ->
  state.variables (state.assign st export name v) other
  = state.variables st other.
Proof.
  intros Hne. unfold state.variables, state.assign.
  destruct export; simpl; by rewrite lookup_store_other.
Qed.

Lemma variables_unassign_other (st : state.State) (export : bool)
    (name other : string) :
  other <> name ->
  state.variables (state.unassign st export name) other
  = state.variables st other.
Proof.
  intros Hne. unfold state.variables, state.unassign.
  destruct export; simpl; by rewrite lookup_discard_other.
Qed.

Lemma set_variable_state (st : state.State) (name : string) (value : Value)
    (export : bool) (edit : option (Value -> Value -> Value)) :
  snd (state.set_variable st name value export edit) = st
  \/ exists v, state.is_reserved st name = false
        /\ state.set_variable st name value export edit
           = (inr v, state.assign st export name v).
Proof.
  unfold state.set_variable. destruct (state.is_reserved st name); [by left|].
  destruct edit as [f|]; [|right; by eexists].
  destruct (state.variables st name) as [[v|s]|]; try (by left).
  destruct v; try (by left); right; by eexists.
Qed.

End State_facts.

(** X14: a variable set without [export] reads back: after
    [set_variable(name, value)] returned, [get_variable(name)] is
    [value] (for a value other than [None], which reads as unset). *)
Theorem set_then_get_variable (int_of_string : string -> option Z)
    (st st' : state.State) (name : string) (value v : Value)
    (Hset : state.set_variable st name value false None = (inr v, st'))
    (Hvalue : value <> VNone) :
  v = value /\ state.get_variable int_of_string st' name = value.
Proof.
  unfold state.set_variable in Hset.
  destruct (state.is_reserved st name); [done|]. injection Hset as <- <-.
  split; [done|]. apply get_variable_bound; [|done].
  unfold state.variables, state.assign. simpl. by rewrite lookup_store_same.
Qed.

Lemma set_then_get_variable_witness :
  state.get_variable examples.int_of_small
    (snd (state.set_variable examples.shell_state "x" (VStr "1") false None))
    "x"
  = VStr "1".
Proof.
  assert (Hvalue : VStr "1" <> VNone) by discriminate.
  exact (proj2 (set_then_get_variable examples.int_of_small
                  examples.shell_state _ "x" (VStr "1") (VStr "1")
                  eq_refl Hvalue)).
Defined.

(** X15: a temporary variable shadows an exported one of the same name.
    With a temporary binding in place, [set_variable(name, value,
    export=True)] stores [value] among the exported variables, and
    [get_variable(name)] still reads the temporary value. *)
Theorem temporary_shadows_exported (int_of_string : string -> option Z)
    (st : state.State) (name : string) (value w : Value)
    (Htemporary : state.lookup (state.temporary_variables st) name = Some w)
    (Hw : w <> VNone) :
  state.get_variable int_of_string
    (snd (state.set_variable st name value true None)) name = w
  /\ (state.is_reserved st name = false ->
      state.lookup
        (state.exported_variables
           (snd (state.set_variable st name value true None))) name
      = Some value).
Proof.
  unfold state.set_variable. destruct (state.is_reserved st name); simpl.
  - split; [|done]. apply get_variable_bound; [|done].
    unfold state.variables. by rewrite Htemporary.
  - split.
    + apply get_variable_bound; [|done].
      unfold state.variables. simpl. by rewrite Htemporary.
    + intros _. apply lookup_store_same.
Qed.

Lemma temporary_shadows_exported_witness :
  state.get_variable examples.int_of_small
    (snd (state.set_variable examples.shell_state "greeting" (VStr "bye")
            true None))
    "greeting"
  = VStr "hi".
Proof.
  assert (Hw : VStr "hi" <> VNone) by discriminate.
  exact (proj1 (temporary_shadows_exported examples.int_of_small
                  examples.shell_state "greeting" (VStr "bye") (VStr "hi")
                  eq_refl Hw)).
Defined.

(** X16: [set_variable] and [pop_variable] on one name leave what
    [get_variable] reads under every other name as it was, whether they
    succeed or raise. *)
Theorem variables_frame (int_of_string : string -> option Z)
    (st : state.State) (name other : string) (value : Value) (export : bool)
    (edit : option (Value -> Value -> Value))
    (Hother : other <> name) :
  state.get_variable int_of_string
    (snd (state.set_variable st name value export edit)) other
  = state.get_variable int_of_string st other
  /\ state.get_variable int_of_string
       (snd (state.pop_variable st name export)) other
     = state.get_variable int_of_string st other.
Proof.
  split.
  - destruct (set_variable_state st name value export edit) as [->|(v & _ & ->)];
      [done|]. simpl.
    apply get_variable_variables; [by apply variables_assign_other|].
    unfold state.assign. by destruct export.
  - simpl. apply get_variable_variables; [by apply variables_unassign_other|].
    unfold state.unassign. by destruct export.
Qed.

Lemma variables_frame_witness :
  state.get_variable examples.int_of_small
    (snd (state.pop_variable examples.shell_state "x" false)) "greeting"
  = VStr "hi".
Proof.
  assert (Hother : "greeting" <> "x") by discriminate.
  rewrite (proj2 (variables_frame examples.int_of_small examples.shell_state
                    "x" "greeting" VNone false None Hother)).
  reflexivity.
Defined.

(** X17: the names of [objects_cli] and [special_variables] are never
    bound as variables: when neither dictionary of variables holds a
    reserved name, none does after [set_variable] or [pop_variable],
    whatever the arguments. *)
Theorem reserved_names_stay_unbound (st : state.State) (name : string)
    (value : Value) (export : bool) (edit : option (Value -> Value -> Value))
    (Hinv : state.no_reserved_bound st) :
  state.no_reserved_bound (snd (state.set_variable st name value export edit))
  /\ state.no_reserved_bound (snd (state.pop_variable st name export)).
Proof.
  split.
  - destruct (set_variable_state st name value export edit)
      as [->|(v & Hfree & ->)]; [done|]. simpl.
    intros n Hn.
    assert (Hn' : state.is_reserved st n = true).
    { revert Hn. unfold state.is_reserved, state.assign. by destruct export. }
    destruct (Hinv n Hn') as [He Ht].
    assert (Hne : n <> name) by (intros ->; congruence).
    unfold state.assign. destruct export; simpl;
      rewrite ?lookup_store_other by done; done.
  - simpl. intros n Hn.
    assert (Hn' : state.is_reserved st n = true).
    { revert Hn. unfold state.is_reserved, state.unassign. by destruct export. }
    destruct (Hinv n Hn') as [He Ht].
    unfold state.unassign. destruct export; simpl; split; try done.
    + destruct (String.eqb n name) eqn:E.
      * apply String.eqb_eq in E. subst. apply lookup_discard_same.
      * apply String.eqb_neq in E. by rewrite lookup_discard_other.
    + destruct (String.eqb n name) eqn:E.
      * apply String.eqb_eq in E. subst. apply lookup_discard_same.
      * apply String.eqb_neq in E. by rewrite lookup_discard_other.
Qed.

Lemma reserved_names_stay_unbound_witness :
  state.no_reserved_bound
    (snd (state.set_variable examples.shell_state "_user" (VInt 8) true None)).
Proof.
  assert (Hinv : state.no_reserved_bound examples.shell_state).
  { intros n Hn. unfold examples.shell_state, state.lookup.
    cbn [state.exported_variables state.temporary_variables List.find fst snd].
    destruct (String.eqb_spec "greeting" n) as [<-|Hne]; [|done].
    vm_compute in Hn. discriminate. }
  exact (proj1 (reserved_names_stay_unbound examples.shell_state "_user"
                  (VInt 8) true None Hinv)).
Defined.

(** X18: a name that is no variable and that [int] reads as [i] is a
    positional argument, with Python's indexing of [command_args]: from
    [-len] to [len - 1] it reads the argument at [i mod len], so [-1] is
    the last argument; outside it reads as the empty string. *)
Theorem positional_index_wraps (int_of_string : string -> option Z)
    (st : state.State) (name : string) (i : Z)
    (Hunbound : state.variables st name = None)
    (Hint : int_of_string name = Some i) :
  let args := state.command_args st in
  let len := Z.of_nat (List.length args) in
  state.get_variable int_of_string st name
  = if ((- len <=? i) && (i <? len))%Z
    then match nth_error args (Z.to_nat (i mod len)) with
         | Some VNone | None => VStr ""
         | Some v => v
         end
    else VStr "".
Proof.
  intros args len. unfold state.get_variable. rewrite Hunbound, Hint.
  unfold state.tuple_index. fold args. fold len.
  destruct (Z.leb_spec 0 i) as [Hi|Hi].
  - assert (Hlow : (- len <=? i)%Z = true) by (apply Z.leb_le; lia).
    rewrite Hlow. simpl. destruct (Z.ltb_spec i len) as [Hl|Hl].
    + rewrite Z.mod_small by lia.
      by destruct (nth_error args (Z.to_nat i)) as [[]|].
    + assert (Hnone : nth_error args (Z.to_nat i) = None).
      { apply nth_error_None. unfold len in Hl. lia. }
      by rewrite Hnone.
  - assert (Hup : (i <? len)%Z = true) by (apply Z.ltb_lt; lia).
    rewrite Hup, andb_true_r.
    destruct (Z.leb_spec 0 (len + i)) as [Hl|Hl].
    + assert (Hlow : (- len <=? i)%Z = true) by (apply Z.leb_le; lia).
      rewrite Hlow.
      assert (Hmod : (i mod len = len + i)%Z).
      { symmetry. apply (Z.mod_unique i len (-1) (len + i)); lia. }
      rewrite Hmod. by destruct (nth_error args (Z.to_nat (len + i))) as [[]|].
    + assert (Hlow : (- len <=? i)%Z = false) by (apply Z.leb_gt; lia).
      by rewrite Hlow.
Qed.

(** [$-1] on the arguments [cli a b] reads [b]. *)
Lemma positional_index_wraps_witness :
  state.get_variable examples.int_of_small examples.shell_state "-1" = VStr "b".
Proof.
  rewrite (positional_index_wraps examples.int_of_small examples.shell_state
             "-1" (-1)%Z eq_refl eq_refl).
  reflexivity.
Defined.

(** X19: [pop_variable] right after [set_variable] on a name that is not
    reserved returns the value set, or the empty string when the value
    is falsy, and leaves the name as unbound in that dictionary as
    removing it from the starting state would. *)
Theorem set_then_pop_variable (st : state.State) (name : string)
    (value : Value) (export : bool)
    (Hfree : state.is_reserved st name = false) :
  let st1 := snd (state.set_variable st name value export None) in
  let st2 := snd (state.pop_variable st1 name export) in
  fst (state.pop_variable st1 name export)
  = (if state.is_falsy value then VStr "" else value)
  /\ state.variables st2 name
     = state.variables (state.unassign st export name) name.
Proof.
  unfold state.set_variable. rewrite Hfree. simpl.
  unfold state.pop_variable, state.assign, state.unassign, state.variables.
  destruct export; simpl; rewrite lookup_store_same; split; try done.
  - rewrite !lookup_discard_same. done.
  - by rewrite !lookup_discard_same.
Qed.

Lemma set_then_pop_variable_witness :
  fst (state.pop_variable
         (snd (state.set_variable examples.shell_state "x" (VInt 0) false None))
         "x" false)
  = VStr "".
Proof.
  exact (proj1 (set_then_pop_variable examples.shell_state "x" (VInt 0) false
                  eq_refl)).
Defined.

(** ** Mode.check outside the nine bits, and the actions [owner] and [group] *)

Section Mode_more.

Lemma bit_grouped_four_digits_all :
  forallb
    (fun v =>
       bool_decide
         (bit_grouped {| value := v; owner := IdInt 0;
                         permissions.group := IdInt 0 |}
          = Some ([Z.testbit v 11; Z.testbit v 10; Z.testbit v 9]
                  :: rwx_triples v)))
    (map (fun n => 512 + Z.of_nat n)%Z (seq 0 3584)) = true.
Proof. vm_compute. reflexivity. Qed.

Lemma bit_grouped_four_digits (self : Mode) :
  (512 <= value self < 4096)%Z ->
  bit_grouped self
  = Some ([Z.testbit (value self) 11; Z.testbit (value self) 10;
           Z.testbit (value self) 9] :: rwx_triples (value self)).
Proof.
  intros Hrange.
  assert (Hin : In (value self)
                  (map (fun n => 512 + Z.of_nat n)%Z (seq 0 3584))).
  { apply in_map_iff. exists (Z.to_nat (value self - 512)). split; [lia|].
    apply in_seq. lia. }
  pose proof (proj1 (forallb_forall _ _) bit_grouped_four_digits_all _ Hin)
    as Hok.
  apply bool_decide_eq_true in Hok. exact Hok.
Qed.

Lemma bit_grouped_negative (self : Mode) :
  (value self < 0)%Z -> bit_grouped self = None.
Proof.
  intros Hneg. unfold bit_grouped, Mode_iter.
  destruct (Z.ltb_spec (value self) 0); [done|lia].
Qed.

Lemma indexes_cases (action : string) (index : nat) :
  indexes action = Some index ->
  (action = "read" /\ index = 0%nat)
  \/ (action = "write" /\ index = 1%nat)
  \/ (action = "execute" /\ index = 2%nat).
Proof.
  unfold indexes. intros Haction.
  destruct (String.eqb_spec action "read"); [left; split; congruence|].
  destruct (String.eqb_spec action "write");
    [right; left; split; congruence|].
  destruct (String.eqb_spec action "execute");
    [right; right; split; congruence|done].
Qed.

End Mode_more.

(** X20: a mode value of four octal digits (0o1000 to 0o7777, which
    [chmod] accepts) is read one triple too high: the owner is checked
    against bits 11 to 9, the group against the owner's bits and
    everybody else against the group's bits; the last three bits are
    never read.  A negative value makes every check of [read], [write]
    or [execute] raise [ValueError]. *)
Theorem Mode_check_outside_nine_bits {Event : Type} `{EventOps Event}
    (self : Mode) (file action : string) (event : Event) (exception : bool)
    (index : nat)
    (Haction : indexes action = Some index) :
  ((512 <= value self < 4096)%Z ->
   Mode_check self file action (EventOf event) exception
   = (if Z.testbit (value self)
            (11 - 3 * Z.of_nat (selected_triple self event) - Z.of_nat index)
      then Returns true
      else if exception
           then Raises (ExcError (PermissionDeniedError_of file action))
           else Returns false))
  /\ ((value self < 0)%Z ->
      Mode_check self file action (EventOf event) exception
      = Raises (ExcOther "ValueError")).
Proof.
  destruct (indexes_cases action index Haction) as [[-> ->]|[[-> ->]|[-> ->]]];
    (split; intros Hmode; unfold Mode_check;
     [rewrite (bit_grouped_four_digits self Hmode)
     |rewrite (bit_grouped_negative self Hmode)]);
    unfold selected_triple, rwx_triples;
    (destruct (Ident_eqb _ _); [|destruct (Ident_in _ _)]); reflexivity.
Qed.

(** The owner of a node of mode 0o1777 may not read it. *)
Lemma Mode_check_outside_nine_bits_witness :
  Mode_check {| value := 1023; owner := IdInt 42;
                permissions.group := IdStr "member" |}
    "notes" "read" (EventOf scenario.member_event) false
  = Returns false.
Proof.
  assert (Haction : indexes "read" = Some 0%nat) by reflexivity.
  assert (Hmode : (512 <= 1023 < 4096)%Z) by lia.
  rewrite (proj1 (Mode_check_outside_nine_bits
                    {| value := 1023; owner := IdInt 42;
                       permissions.group := IdStr "member" |}
                    "notes" "read" scenario.member_event false 0%nat Haction)
             Hmode).
  reflexivity.
Defined.

(** X21: the actions ["owner"] and ["group"] (the one [chmod] checks)
    answer [True] to the owner, respectively to a member of the node's
    group, and to nobody else: for everybody else the check ends in a
    [KeyError], never in [False] or a [PermissionDeniedError]. *)
Theorem Mode_check_owner_group {Event : Type} `{EventOps Event}
    (self : Mode) (file action : string) (event : Event) (exception : bool)
    (Hmode : (0 <= value self < 512)%Z)
    (Haction : action = "owner" \/ action = "group") :
  Mode_check self file action (EventOf event) exception
  = if (String.eqb action "owner"
        && Ident_eqb (object_id event) (owner self))
       || (String.eqb action "group"
           && Ident_in (permissions.group self) (groups event))
    then Returns true
    else Raises (ExcOther "KeyError").
Proof.
  unfold Mode_check. rewrite (bit_grouped_rwx self Hmode).
  unfold selected_triple, rwx_triples.
  destruct Haction as [-> | ->]; simpl;
    (destruct (Ident_eqb _ _); [|destruct (Ident_in _ _)]); reflexivity.
Qed.

(** The owner of a node, who is not in its group, asks for ["group"]. *)
Lemma Mode_check_owner_group_witness :
  Mode_check {| value := 493; owner := IdInt 42;
                permissions.group := IdStr "admin" |}
    "notes" "group" (EventOf scenario.member_event) true
  = Raises (ExcOther "KeyError").
Proof.
  assert (Hmode : (0 <= 493 < 512)%Z) by lia.
  rewrite (Mode_check_owner_group
             {| value := 493; owner := IdInt 42;
                permissions.group := IdStr "admin" |}
             "notes" "group" scenario.member_event true Hmode
             (or_intror eq_refl)).
  reflexivity.
Defined.

(** ** Path *)

Section Path_facts.

Lemma Path_new_nonempty (ns : list string) (rs : list Z) :
  names (Path_new ns rs) <> [] /\ references (Path_new ns rs) <> [].
Proof. by destruct ns, rs. Qed.

Lemma Path_new_id (p : Path) :
  names p <> [] -> references p <> [] -> Path_new (names p) (references p) = p.
Proof. destruct p as [[|n ns] [|r rs]]; done. Qed.

Lemma Path_init_div (p : Path) (n : string) (i : Z) :
  names p <> [] -> references p <> [] -> Path_init (Path_div p n i) = p.
Proof.
  intros Hn Hr. unfold Path_init, Path_div.
  assert (Hn' : names (Path_new (names p ++ [n]) (references p ++ [i]))
                = (names p ++ [n])%list) by (by destruct (names p)).
  assert (Hr' : references (Path_new (names p ++ [n]) (references p ++ [i]))
                = (references p ++ [i])%list) by (by destruct (references p)).
  rewrite Hn', Hr', !removelast_last. by apply Path_new_id.
Qed.

Lemma string_app_assoc (a b c : string) : (a +:+ b) +:+ c = a +:+ (b +:+ c).
Proof.
  induction a as [|ch a IH]; [done|].
  change (String ch ((a +:+ b) +:+ c) = String ch (a +:+ (b +:+ c))).
  by rewrite IH.
Qed.

Lemma string_app_nonempty (a b : string) : b <> "" -> a +:+ b <> "".
Proof.
  destruct a as [|ch a]; [done|]. intros _.
  change (String ch (a +:+ b) <> ""). done.
Qed.


Lemma concat_snoc (sep : string) (l : list string) (x : string) :
  l <> [] ->
  String.concat sep (l ++ [x]) = String.concat sep l +:+ sep +:+ x.
Proof.
  induction l as [|a [|b rest] IH]; intros Hl; [done| |].
  - simpl. done.
  - change (String.concat sep ((a :: b :: rest) ++ [x]))
      with (a +:+ sep +:+ String.concat sep ((b :: rest) ++ [x])).
    rewrite IH by done.
    change (String.concat sep (a :: b :: rest))
      with (a +:+ sep +:+ String.concat sep (b :: rest)).
    by rewrite !string_app_assoc.
Qed.

Lemma Path_new_snoc (ns : list string) (rs : list Z) (n : string) (r : Z) :
  Path_new (ns ++ [n]) (rs ++ [r])
  = {| names := ns ++ [n]; references := rs ++ [r] |}.
Proof. by destruct ns, rs. Qed.

Lemma get_parent_stored (fs : FS) (ns : list string) (rs : list Z)
    (pn cn : string) (pr cr : Z) (f : File) :
  get_default fs pr = None ->
  db fs !! pr = Some f ->
  get_parent fs {| names := ns ++ [pn; cn]; references := rs ++ [pr; cr] |}
  = Some (with_name_path f pn
            {| names := ns ++ [pn; pn]; references := rs ++ [pr; pr] |}).
Proof.
  intros Hd Hdb. unfold get_parent. simpl.
  rewrite !rev_app_distr. simpl.
  unfold get_by_inode. rewrite Hd, Hdb. f_equal. f_equal.
  unfold Path_init, Path_div. simpl.
  change [pn; cn] with ([pn] ++ [cn])%list.
  change [pr; cr] with ([pr] ++ [cr])%list.
  rewrite !app_assoc, !removelast_last, Path_new_snoc. simpl.
  by destruct ns, rs; simpl; rewrite <- ?app_assoc.
Qed.

End Path_facts.

(** X22: [path / [name, inode]] and [path[:-1]] are inverse: dropping
    the last step of an extended path gives the path back, and the
    string of the extended path is the joined names of the path, a
    slash and the new name (so ["/name"] under the root). *)
Theorem Path_div_round_trip (ns : list string) (rs : list Z) (n : string)
    (i : Z) :
  Path_init (Path_div (Path_new ns rs) n i) = Path_new ns rs
  /\ Path_str (Path_div (Path_new ns rs) n i)
     = String.concat "/" (names (Path_new ns rs)) +:+ "/" +:+ n.
Proof.
  destruct (Path_new_nonempty ns rs) as [Hn Hr].
  split; [by apply Path_init_div|].
  unfold Path_str, Path_div.
  assert (Hn' : names (Path_new (names (Path_new ns rs) ++ [n])
                         (references (Path_new ns rs) ++ [i]))
                = (names (Path_new ns rs) ++ [n])%list)
    by (by destruct (names (Path_new ns rs))).
  rewrite Hn', concat_snoc by done.
  destruct (String.concat "/" (names (Path_new ns rs)) +:+ "/" +:+ n) eqn:E;
    [|done].
  exfalso. revert E. apply string_app_nonempty. done.
Qed.

(** X23: [Path.get_parent] on the path of a node whose parent is a
    stored node (not one kept in memory) hands [get_by_inode] the path
    that already ends with the parent, and [get_by_inode] extends it by
    the parent once more: the parent comes back under a path that
    repeats its name, and the parent of that path is the same node
    again, so [..] never climbs further. *)
Theorem get_parent_repeats_the_parent (fs : FS) (ns : list string)
    (rs : list Z) (pn cn : string) (pr cr : Z) (f : File)
    (Hdefault : get_default fs pr = None)
    (Hstored : db fs !! pr = Some f) :
  get_parent fs {| names := ns ++ [pn; cn]; references := rs ++ [pr; cr] |}
  = Some (with_name_path f pn
            {| names := ns ++ [pn; pn]; references := rs ++ [pr; pr] |})
  /\ get_parent fs
       (path (with_name_path f pn
                {| names := ns ++ [pn; pn]; references := rs ++ [pr; pr] |}))
     = Some (with_name_path f pn
               {| names := ns ++ [pn; pn]; references := rs ++ [pr; pr] |}).
Proof.
  split; by apply get_parent_stored.
Qed.

(** The parent of [/top/sub] comes back as [/top/top]. *)
Lemma get_parent_repeats_the_parent_witness :
  option_map (fun parent => Path_str (path parent))
    (get_parent scenario.populated (path scenario.sub))
  = Some "/top/top".
Proof.
  assert (Hdefault : get_default scenario.populated 10000 = None)
    by reflexivity.
  assert (Hstored : db scenario.populated !! 10000%Z
                    = Some scenario.top_with_sub) by (vm_compute; reflexivity).
  change (path scenario.sub)
    with {| names := [""] ++ ["top"; "sub"];
            references := [1%Z] ++ [10000%Z; 10001%Z] |}.
  rewrite (proj1 (get_parent_repeats_the_parent scenario.populated [""] [1%Z]
                    "top" "sub" 10000 10001 scenario.top_with_sub
                    Hdefault Hstored)).
  reflexivity.
Defined.

(** ** Directory.create and Directory.select *)

Section Create_facts.

Lemma dict_get_set_same (d : list (string * Z)) (k : string) (v : Z) :
  dict_get (dict_set d k v) k = Some v.
Proof.
  unfold dict_get. induction d as [|[k0 w] rest IH]; simpl.
  - by rewrite String.eqb_refl.
  - destruct (String.eqb k0 k) eqn:E; simpl; rewrite E; [done|exact IH].
Qed.

Lemma create_inode_public_range (fs : FS) :
  (10000 <= next_public_inode fs)%Z ->
  (10000 <= fst (create_inode true fs))%Z.
Proof.
  intros Hc. unfold create_inode.
  destruct (free_public_inodes fs) as [|i rest] eqn:E; [done|]. simpl.
  assert (Hin : In i (free_public_inodes fs)) by (rewrite E; by left).
  unfold free_public_inodes in Hin. apply filter_In in Hin.
  destruct Hin as [_ Hi]. by apply Z.leb_le in Hi.
Qed.

Lemma create_inode_defaults (public : bool) (fs : FS) :
  defaults (snd (create_inode public fs)) = defaults fs.
Proof.
  unfold create_inode. destruct public.
  - by destruct (free_public_inodes fs).
  - by destruct (free_private_inodes fs).
Qed.

Lemma find_private_defaults (l : list File) (i : Z) (f : File) :
  forallb (fun g => (inode g <? 10000)%Z) l = true ->
  (10000 <= i)%Z -> (10000 <= inode f)%Z ->
  List.find (fun g => Z.eqb (inode g) i)
    (map (fun g => if Z.eqb (inode g) (inode f) then f else g) l) = None.
Proof.
  intros Hl Hi Hf. induction l as [|g rest IH]; simpl; [done|].
  simpl in Hl. apply andb_prop in Hl. destruct Hl as [Hg Hrest].
  apply Z.ltb_lt in Hg.
  destruct (Z.eqb_spec (inode g) (inode f)) as [Heq|Hne]; [lia|].
  destruct (Z.eqb_spec (inode g) i) as [Heq|_]; [lia|]. by apply IH.
Qed.

Lemma save_stored (f : File) (fs : FS) :
  is_generated (kind f) = false -> (10000 <= inode f)%Z ->
  save f fs = with_db fs (<[inode f := f]> (db fs)).
Proof.
  intros Hg Hi. unfold save. rewrite Hg.
  by destruct (Z.leb_spec 10000 (inode f)); [|lia].
Qed.

Lemma save_defaults_stored (f : File) (fs : FS) :
  (10000 <= inode f)%Z -> defaults (save f fs) = defaults fs.
Proof.
  intros Hi. unfold save. destruct (is_generated (kind f)); [done|].
  by destruct (Z.leb_spec 10000 (inode f)); [|lia].
Qed.

End Create_facts.

(** X24: what [Directory.create] made in a stored directory,
    [Directory.select] finds again: under a plain name, [select] on the
    directory as [create] left it returns the very node [create]
    returned, and a second [create] under that name is refused with
    [FileExistsError], leaving everything as it is. *)
Theorem create_then_select {Event : Type} `{EventOps Event}
    (self : File) (k : Kind) (n : string) (m : option Mode)
    (event : EventArg Event) (fs fs2 : FS) (created self1 : File)
    (Hcreate : create self k n m event fs = (Returns created, self1, fs2))
    (Hkind : is_file_like (kind self) = false)
    (Hstored : (10000 <= inode self)%Z)
    (Hcounter : (10000 <= next_public_inode fs)%Z)
    (Hdefaults : forallb (fun g => (inode g <? 10000)%Z) (defaults fs) = true)
    (Hplain : paths.plain_name n = true) :
  (check self "read" event = Returns true ->
   select self1 n event fs2 = Returns (Some created))
  /\ create self1 file n m event fs2
     = (Raises (ExcError (MkError FileExistsError n)), self1, fs2)
  /\ create self1 directory n m event fs2
     = (Raises (ExcError (MkError FileExistsError n)), self1, fs2).
Proof.
  unfold create in Hcreate.
  destruct (check self "write" event) as [w|ex] eqn:Hwrite; [|done].
  destruct (files self) as [entries| |] eqn:Hfiles; try (by destruct k).
  assert (Hk : k = file \/ k = directory).
  { destruct k; try done; [by left|by right]. }
  assert (Hbody :
    match dict_get entries n with
    | Some _ => (Raises (ExcError (MkError FileExistsError n)), self, fs)
    | None =>
        let '(i, fs1) := create_inode (10000 <=? inode self)%Z fs in
        let new_file :=
          {| kind := k; filesystem.name := n;
             mode := match m with Some m' => m' | None => mode self end;
             inode := i; path := Path_div (path self) n i;
             refs := [inode self]; content := VNone;
             files := match k with
                      | directory => FilesDict []
                      | _ => NoFilesAttr
                      end |} in
        let self1 := with_files self (FilesDict (dict_set entries n i)) in
        let fs2 := save new_file (save self1 (update_shared fs1 self1)) in
        (Returns new_file, self1, fs2)
    end = (Returns created, self1, fs2)).
  { by destruct Hk as [-> | ->]. }
  clear Hcreate.
  destruct (dict_get entries n) eqn:Hget; [done|].
  assert (Hpub : (10000 <=? inode self)%Z = true) by (by apply Z.leb_le).
  rewrite Hpub in Hbody.
  pose proof (create_inode_public_range fs Hcounter) as Hrange.
  pose proof (create_inode_defaults true fs) as Hdef.
  destruct (create_inode true fs) as [i fs1]. simpl in Hrange, Hdef.
  cbv zeta in Hbody. injection Hbody as <- <- <-.
  assert (Hcheck : forall action,
            check (with_files self (FilesDict (dict_set entries n i))) action event
            = check self action event) by done.
  split; [|split].
  - intros Hread. unfold select. rewrite Hcheck, Hread. simpl.
    rewrite Hkind.
    unfold paths.plain_name in Hplain. apply negb_true_iff in Hplain.
    repeat (apply orb_false_elim in Hplain; destruct Hplain as [Hplain ?]).
    unfold starts_with.
    repeat match goal with Hx : _ = false |- _ => rewrite Hx; clear Hx end.
    simpl. rewrite dict_get_set_same.
    destruct (Z.eqb_spec i 0) as [->|_]; [lia|].
    f_equal. unfold get_by_inode.
    set (self1 := with_files self (FilesDict (dict_set entries n i))).
    set (made := {| kind := k; filesystem.name := n; inode := i |}).
    assert (Hgen : is_generated (kind made) = false)
      by (by destruct Hk as [-> | ->]).
    assert (Hdefault : get_default
                         (save made (save self1 (update_shared fs1 self1))) i
                       = None).
    { unfold get_default.
      rewrite (save_defaults_stored made) by done.
      rewrite (save_defaults_stored self1) by done.
      unfold update_shared. simpl. rewrite Hdef.
      by apply (find_private_defaults (defaults fs) i self1). }
    rewrite Hdefault, (save_stored made) by done.
    simpl. rewrite lookup_insert, decide_True by done. done.
  - unfold create. rewrite Hcheck, Hwrite. simpl.
    by rewrite dict_get_set_same.
  - unfold create. rewrite Hcheck, Hwrite. simpl.
    by rewrite dict_get_set_same.
Qed.

(** [/top/sub], just created, is selected in [/top]. *)
Lemma create_then_select_witness :
  select scenario.top_with_sub "sub" (EventTrue (Event := scenario.SimpleEvent))
    (snd scenario.with_sub)
  = Returns (Some scenario.sub).
Proof.
  assert (Hcreate : create scenario.top directory "sub" None
                      (EventTrue (Event := scenario.SimpleEvent))
                      scenario.top_only
                    = (Returns scenario.sub, scenario.top_with_sub,
                       snd scenario.with_sub)) by reflexivity.
  assert (Hstored : (10000 <= inode scenario.top)%Z) by (simpl; lia).
  assert (Hcounter : (10000 <= next_public_inode scenario.top_only)%Z)
    by (simpl; lia).
  exact (proj1 (create_then_select scenario.top directory "sub" None EventTrue
                  scenario.top_only (snd scenario.with_sub) scenario.sub
                  scenario.top_with_sub Hcreate eq_refl Hstored Hcounter
                  eq_refl eq_refl) eq_refl).
Defined.

(** ** parse: what the retry loop answers *)

(** What the loop answers when it ends. *)
Lemma parse_loop_answers {Ast : Type}
    (bashlex_parse : string -> Reply Ast) (fuel : nat) (prev : list string)
    (final_content : string) :
  match parse_loop bashlex_parse fuel prev final_content with
  | Some (Returns (Some (ast, content))) =>
      bashlex_parse content = ParsedTree ast
  | Some (Returns None) =>
      exists content msg message source position,
        bashlex_parse content = ParsingFailure msg message source position
        /\ str_contains "unexpected token" message = true
        /\ str_contains "(" content = false
  | Some (Raises ex) => exists message, ex = ExcError (ParsingError_of message)
  | None => True
  end.
Proof.
  revert prev final_content.
  induction fuel as [|fuel IH]; intros prev final_content; [done|].
  cbn [parse_loop].
  destruct (bashlex_parse final_content)
    as [ast|msg message source position|text|] eqn:Hreply;
    [done| |by eexists|by eexists].
  destruct (existsb (String.eqb msg) prev); [by eexists|].
  destruct (str_contains "unexpected token" message) eqn:Htoken; [|by eexists].
  unfold escape_retry.
  destruct (str_contains "'('" message); [apply IH|].
  destruct (str_contains "')'" message); [apply IH|].
  destruct (str_contains "(" final_content) eqn:Hparen; [apply IH|].
  by exists final_content, msg, message, source, position.
Qed.

(** X25: whatever the grammar parser answers, the loop of [parse] ends
    in one of three ways, or it is still running because every pass so
    far met a failure with a message not seen before.  A tree comes with
    the content that the parser accepted (the escaped content, not the
    one given).  The only exception is [ParsingError].  The loop is left
    without a result, so that [parse] returns [None], exactly on an
    "unexpected token" failure for a content without an opening
    parenthesis.  A loop that has not ended after [fuel] passes has
    recorded [fuel] new, pairwise distinct messages; so it has ended
    after [length msgs + 1] passes when the messages of the run that
    were not seen before lie in [msgs]. *)
Theorem parse_loop_postconditions {Ast : Type}
    (bashlex_parse : string -> Reply Ast) (fuel : nat) (prev : list string)
    (final_content : string) :
  match parse_loop bashlex_parse fuel prev final_content with
  | Some (Returns (Some (ast, content))) =>
      bashlex_parse content = ParsedTree ast
  | Some (Returns None) =>
      exists content msg message source position,
        bashlex_parse content = ParsingFailure msg message source position
        /\ str_contains "unexpected token" message = true
        /\ str_contains "(" content = false
  | Some (Raises ex) => exists message, ex = ExcError (ParsingError_of message)
  | None =>
      exists seen,
        parse_seen bashlex_parse fuel prev final_content = (prev ++ seen)%list
        /\ List.length seen = fuel
        /\ List.NoDup seen
        /\ (forall m, List.In m seen -> ~ List.In m prev)
  end
  /\ (forall msgs,
         (forall m,
             List.In m (parse_seen bashlex_parse (S (List.length msgs)) prev
                          final_content) ->
             List.In m prev \/ List.In m msgs) ->
         parse_loop bashlex_parse (S (List.length msgs)) prev final_content
         <> None).
Proof.
  split.
  - pose proof (parse_loop_answers bashlex_parse fuel prev final_content)
      as Hanswer.
    destruct (parse_loop bashlex_parse fuel prev final_content)
      as [answer|] eqn:Hloop; [done|].
    destruct (parse_seen_grows bashlex_parse fuel prev final_content)
      as (seen & Hseen & Hnd & Hfresh & Hlen).
    exists seen. by rewrite (Hlen Hloop).
  - intros msgs Hamong Hnone.
    destruct (parse_seen_grows bashlex_parse (S (List.length msgs)) prev
                final_content) as (seen & Hseen & Hnd & Hfresh & Hlen).
    assert (Hincl : incl seen msgs).
    { intros m Hm. destruct (Hamong m) as [Hprev|Hmsgs]; [|by destruct (Hfresh m Hm)|done].
      rewrite Hseen. apply in_or_app. by right. }
    pose proof (NoDup_incl_length Hnd Hincl) as Hle.
    rewrite (Hlen Hnone) in Hle. lia.
Qed.

(** The toy parser accepts [f (x)] once its parenthesis is escaped;
    against the parser that refuses every parenthesis the loop is still
    running after three passes, with three messages recorded. *)
Lemma parse_loop_postconditions_examples :
  parse_loop scenario.toy_parse 2 [] "f (x)"
  = Some (Returns (Some ("f \(x)", "f \(x)")))
  /\ parse_loop examples.refusing_parse 3 [] "f (x)" = None
  /\ List.length (parse_seen examples.refusing_parse 3 [] "f (x)") = 3%nat.
Proof. by vm_compute. Qed.

(** ** get_path *)

Section GetPath_facts.
Context {Event : Type} `{EventOps Event}.



End GetPath_facts.


(** X27: the empty path is the root, not the current directory: its one
    part [""] is replaced by ["/"], which [select] answers with the
    root.  From a readable directory, [get_path("")] returns the root
    ([current] itself when it is the root). *)
Theorem get_path_empty_is_root {Event : Type} `{EventOps Event}
    (current_ root : File) (event : EventArg Event) (directory : option bool)
    (create_ : bool) (fs : FS)
    (Hkind : is_file_like (kind current_) = false)
    (Hread : check current_ "read" event = Returns true)
    (Hroot : get_default fs 1 = Some root)
    (Hrootfs : kind root = rootfs)
    (Hexecute : check root "execute" event = Returns true)
    (Hdirectory : directory <> Some false) :
  paths.get_path "" current_ event directory create_ false fs
  = (Returns (if Z.eqb (inode current_) 1 then current_ else root, None), fs).
Proof.
  assert (Hinode : inode root = 1%Z).
  { unfold get_default in Hroot. apply find_some in Hroot.
    destruct Hroot as [_ Heq]. by apply Z.eqb_eq in Heq. }
  unfold paths.get_path.
  cbn [paths.split_path paths.split_path_from paths.get_path_loop andb orb].
  change (String.eqb "/" "") with false. change (String.eqb "/" ".") with false.
  cbn [orb paths.current].
  assert (Hselect : select current_ "/" event fs = Returns (Some root)).
  { unfold select. rewrite Hread, Hkind. cbn. by rewrite Hroot. }
  rewrite Hselect. unfold paths.enter. rewrite Hrootfs, Hinode.
  cbn [in_dir_kinds]. rewrite Hexecute. cbn [paths.first].
  assert (Hdir : in_dir_kinds (kind current_) = true).
  { revert Hkind. by destruct (kind current_). }
  destruct (Z.eqb (inode current_) 1); cbn;
    rewrite ?Hdir, ?Hrootfs; cbn; by destruct directory as [[|]|].
Qed.

(** From [/top], the empty path leads to the root. *)
Lemma get_path_empty_is_root_witness :
  fst (paths.get_path "" scenario.top
         (EventTrue (Event := scenario.SimpleEvent)) None false false
         examples.rooted)
  = Returns (examples.root, None).
Proof.
  assert (Hdirectory : (None : option bool) <> Some false) by discriminate.
  rewrite (get_path_empty_is_root scenario.top examples.root EventTrue None
             false examples.rooted eq_refl eq_refl eq_refl eq_refl eq_refl
             Hdirectory).
  reflexivity.
Defined.

(** ** RegularFile.write *)



(** ** Command.finalize: the arguments of the state *)



(** ** For: what leaves the loop *)


